(** * eccodes_grib.dataset: a shallow embedding and its properties

    The development follows [eccodes_grib/dataset.py]: header values,
    ordered dictionaries, the index of a GRIB stream, the coordinate
    builder ([enforce_unique_attributes], [simple_header_coordinate]),
    the variable assembler ([DataVariable]), the dense array built by
    [build_array], and the dataset builder ([dict_merge],
    [build_dataset_components]). *)

From Stdlib Require Import List ZArith Bool String Ascii Lia Arith.
From Stdlib Require Import Sorted Permutation.
From Stdlib Require Import Floats.SpecFloat.
From Stdlib Require Import DecimalString.
Import ListNotations.

Local Open Scope string_scope.
Local Open Scope list_scope.

(** ** Header values

    The values eccodes returns for the header keys used here are Python
    [int]s and [str]s; the sentinel for a key that cannot be read is the
    string ['undef']. *)

Inductive value : Type :=
| VInt (z : Z)
| VStr (s : string).

Definition value_eqb (a b : value) : bool :=
  match a, b with
  | VInt x, VInt y => Z.eqb x y
  | VStr s, VStr t => String.eqb s t
  | _, _ => false
  end.

Definition undef : value := VStr "undef".

Fixpoint list_eqb {A : Type} (eqb : A -> A -> bool) (l1 l2 : list A) : bool :=
  match l1, l2 with
  | [], [] => true
  | x :: l1', y :: l2' => eqb x y && list_eqb eqb l1' l2'
  | _, _ => false
  end.

(** ** Exceptions and fallible computations *)

Inductive exn : Type :=
| MultipleValues (key : string) (values : list value)
    (* ValueError raised by enforce_unique_attributes *)
| CoordinateNotFound (key : string)
| MergeConflict (key : string)        (* ValueError raised by dict_merge *)
| NotInList                           (* ValueError raised by list.index *)
| BroadcastError                      (* ValueError raised by ndarray.__setitem__ *)
| NegativeDimension                   (* ValueError raised by np.full *)
| KeyError (key : string)
| AttributeError                      (* [.index] on something that is not a list *)
| IndexError
| StopIteration
| ReadError (offset : Z).             (* no record at that byte offset *)

Inductive result (A : Type) : Type :=
| Ok (a : A)
| Raise (e : exn).

Arguments Ok {A} a.
Arguments Raise {A} e.

Definition bind {A B : Type} (m : result A) (f : A -> result B) : result B :=
  match m with
  | Ok a => f a
  | Raise e => Raise e
  end.

Notation "x <- m ;; k" := (bind m (fun x => k))
  (at level 61, m at next level, right associativity).

Definition of_option {A : Type} (e : exn) (o : option A) : result A :=
  match o with
  | Some a => Ok a
  | None => Raise e
  end.

(** ** Ordered dictionaries

    [collections.OrderedDict]: an association list without repeated
    keys, in insertion order.  Assigning to a key that is present
    replaces its value in place.  Keys are compared with [==]; the keys
    used here are strings (attribute, dimension and coordinate names) and
    header values (the short names of the variables). *)

Class Key (K : Type) : Type := { key_eqb : K -> K -> bool }.

#[export] Instance string_Key : Key string := {| key_eqb := String.eqb |}.
#[export] Instance value_Key : Key value := {| key_eqb := value_eqb |}.

Definition odict (K V : Type) : Type := list (K * V).

Section OrderedDict.
Context {K V : Type} `{Key K}.

Fixpoint od_get (k : K) (d : odict K V) : option V :=
  match d with
  | [] => None
  | (k', v) :: d' => if key_eqb k k' then Some v else od_get k d'
  end.

Fixpoint od_set (k : K) (v : V) (d : odict K V) : odict K V :=
  match d with
  | [] => [(k, v)]
  | (k', v') :: d' =>
      if key_eqb k k' then (k', v) :: d' else (k', v') :: od_set k v d'
  end.

Definition od_keys (d : odict K V) : list K := map fst d.

(** [d.update(u)] and [OrderedDict(pairs)]. *)
Definition od_update (d u : odict K V) : odict K V :=
  fold_left (fun acc kv => od_set (fst kv) (snd kv) acc) u d.

Definition od_of_list (pairs : list (K * V)) : odict K V :=
  od_update [] pairs.
End OrderedDict.

(** ** Lists the way Python reads them *)

(** [l.index(x)]: the first position holding [x]. *)
Fixpoint list_index {A : Type} (eqb : A -> A -> bool) (x : A) (l : list A)
  : option nat :=
  match l with
  | [] => None
  | y :: l' =>
      if eqb x y then Some O
      else match list_index eqb x l' with
           | Some i => Some (S i)
           | None => None
           end
  end.

(** The distinct elements of a list, each at its first occurrence:
    what [list(OrderedDict.fromkeys(l))] returns. *)
Definition add_distinct (acc : list value) (v : value) : list value :=
  if existsb (value_eqb v) acc then acc else acc ++ [v].

Definition distinct_values (l : list value) : list value :=
  fold_left add_distinct l [].

(** ** Records, streams and the index *)

(** Modelled from the spec: the record accessor ([messages.Message]) is
    not part of the sources.  A record is addressed by its byte offset
    and answers header-key lookups and the array-valued keys ['values'],
    ['latitudes'] and ['longitudes']. *)
Record Message : Type := {
  msg_offset : Z;
  msg_header : odict string value;
  msg_values : list spec_float;
  msg_latitudes : list spec_float;
  msg_longitudes : list spec_float
}.

(** Modelled from the spec: [messages.Stream], a path and the records
    found by iterating over the file. *)
Record Stream : Type := {
  stream_path : string;
  stream_messages : list Message
}.

(** Modelled from the spec: [messages.Index], the ordered list of
    header-key names and the mapping from the tuple of header values, in
    schema order, to the byte offsets of the records that produced it. *)
Record Index : Type := {
  index_path : string;
  index_keys : list string;
  offsets : list (list value * list Z)
}.

(** Modelled from the spec: [msg[key]] on a header key. *)
Definition message_getitem (m : Message) (key : string) : result value :=
  of_option (KeyError key) (od_get key (msg_header m)).

(** Modelled from the spec: the entries of the bucket tuples at one
    position of the schema, in insertion order. *)
Definition column (i : nat) (buckets : list (list value * list Z)) : list value :=
  flat_map (fun b => match nth_error (fst b) i with
                     | Some v => [v]
                     | None => []
                     end) buckets.

(** Modelled from the spec: [attribute_values(key)], written [index[key]]
    in the sources: the distinct values observed for [key] across the
    bucket tuples, in insertion order; none when the key is absent from
    the schema. *)
Definition getitem (index : Index) (key : string) : list value :=
  match list_index String.eqb key (index_keys index) with
  | Some i => distinct_values (column i (offsets index))
  | None => []
  end.

(** Modelled from the spec: the exact-equality predicate of a
    sub-index on the entry of a bucket tuple. *)
Definition bucket_matches (i : nat) (v : value) (b : list value * list Z) : bool :=
  match nth_error (fst b) i with
  | Some w => value_eqb w v
  | None => false
  end.

(** Modelled from the spec: [subindex(key=value)], a new index over the
    same schema that keeps the buckets whose entry for [key] is [value]. *)
Definition subindex (index : Index) (key : string) (v : value) : Index :=
  {| index_path := index_path index;
     index_keys := index_keys index;
     offsets :=
       match list_index String.eqb key (index_keys index) with
       | Some i => filter (bucket_matches i v) (offsets index)
       | None => []
       end |}.

(** Modelled from the spec: the tuple of header values of a record, in
    schema order; a key the record cannot answer degrades to the
    sentinel. *)
Definition header_values_of (keys : list string) (m : Message) : list value :=
  map (fun k => match od_get k (msg_header m) with
                | Some v => v
                | None => undef
                end) keys.

(** Modelled from the spec: the offset of a record is appended to the
    bucket of its value tuple, a new bucket going last. *)
Fixpoint bucket_append (hv : list value) (off : Z)
  (buckets : list (list value * list Z)) : list (list value * list Z) :=
  match buckets with
  | [] => [(hv, [off])]
  | (hv', offs) :: rest =>
      if list_eqb value_eqb hv hv' then (hv', offs ++ [off]) :: rest
      else (hv', offs) :: bucket_append hv off rest
  end.

(** Modelled from the spec: [stream.index(keys)], one pass over the
    records of the stream. *)
Definition stream_index (stream : Stream) (keys : list string) : Index :=
  {| index_path := stream_path stream;
     index_keys := keys;
     offsets := fold_left
                  (fun acc m => bucket_append (header_values_of keys m) (msg_offset m) acc)
                  (stream_messages stream) [] |}.

(** ** Key tables *)

Definition GLOBAL_ATTRIBUTES_KEYS : list string :=
  ["edition"; "centre"; "centreDescription"].

Definition VARIABLE_ATTRIBUTES_KEYS : list string :=
  ["paramId"; "shortName"; "units"; "name"; "cfName"; "missingValue"].

Definition SPATIAL_COORDINATES_ATTRIBUTES_KEYS : list string :=
  ["gridType"; "numberOfPoints"].

Definition GRID_TYPE_MAP : list (string * list string) :=
  [ ("regular_ll",
      ["Ni"; "iDirectionIncrementInDegrees"; "iScansNegatively";
       "longitudeOfFirstGridPointInDegrees"; "longitudeOfLastGridPointInDegrees";
       "Nj"; "jDirectionIncrementInDegrees"; "jPointsAreConsecutive"; "jScansPositively";
       "latitudeOfFirstGridPointInDegrees"; "latitudeOfLastGridPointInDegrees"]);
    ("reduced_ll",
      ["Nj"; "jDirectionIncrementInDegrees"; "jPointsAreConsecutive"; "jScansPositively";
       "latitudeOfFirstGridPointInDegrees"; "latitudeOfLastGridPointInDegrees";
       "pl"]);
    ("regular_gg",
      ["Ni"; "iDirectionIncrementInDegrees"; "iScansNegatively";
       "longitudeOfFirstGridPointInDegrees"; "longitudeOfLastGridPointInDegrees";
       "N"]);
    ("lambert",
      ["LaDInDegrees"; "LoVInDegrees"; "iScansNegatively";
       "jPointsAreConsecutive"; "jScansPositively";
       "latitudeOfFirstGridPointInDegrees"; "latitudeOfSouthernPoleInDegrees";
       "longitudeOfFirstGridPointInDegrees"; "longitudeOfSouthernPoleInDegrees";
       "DyInMetres"; "DxInMetres"; "Latin2InDegrees"; "Latin1InDegrees"; "Ny"; "Nx"]);
    ("reduced_gg", ["N"; "pl"]);
    ("sh", ["M"; "K"; "J"]) ].

(** [list(set(...))]: each key once.  Python leaves the order of a set
    unspecified; the first-occurrence order is taken here, and nothing
    below depends on it. *)
Definition add_key (acc : list string) (k : string) : list string :=
  if existsb (String.eqb k) acc then acc else acc ++ [k].

Definition GRID_TYPE_KEYS : list string :=
  fold_left add_key (flat_map snd GRID_TYPE_MAP) [].

Definition HEADER_COORDINATES_MAP : list (string * list string) :=
  [ ("number", ["totalNumber"]);
    ("dataDate", []);
    ("dataTime", []);
    ("endStep", ["stepUnits"; "stepType"]);
    ("topLevel", ["typeOfLevel"]) ].

Definition HEADER_COORDINATES_KEYS : list string :=
  map fst HEADER_COORDINATES_MAP ++ flat_map snd HEADER_COORDINATES_MAP.

Definition ALL_KEYS : list string :=
  GLOBAL_ATTRIBUTES_KEYS ++ VARIABLE_ATTRIBUTES_KEYS ++
  SPATIAL_COORDINATES_ATTRIBUTES_KEYS ++ GRID_TYPE_KEYS ++ HEADER_COORDINATES_KEYS.

(** ** The coordinate builder *)

(** The loop of [enforce_unique_attributes], with the dictionary built
    so far as accumulator. *)
Fixpoint enforce_loop (index : Index) (attributes_keys : list string)
  (attributes : odict string value) : result (odict string value) :=
  match attributes_keys with
  | [] => Ok attributes
  | key :: rest =>
      let values := getitem index key in
      if (1 <? List.length values)%nat then Raise (MultipleValues key values)
      else match values with
           | v0 :: _ => enforce_loop index rest (od_set key v0 attributes)
           | [] => enforce_loop index rest attributes
           end
  end.

Definition enforce_unique_attributes (index : Index) (attributes_keys : list string)
  : result (odict string value) :=
  enforce_loop index attributes_keys [].

Definition is_undef_only (data : list value) : bool :=
  match data with
  | [v] => value_eqb v undef
  | _ => false
  end.

Definition simple_header_coordinate (index : Index) (coordinate_key : string)
  (attributes_keys : list string) : result (list value * odict string value) :=
  let data := getitem index coordinate_key in
  if is_undef_only data then Raise (CoordinateNotFound coordinate_key)
  else
    attributes <- enforce_unique_attributes index attributes_keys ;;
    Ok (data, attributes).

(** ** Coordinate variables *)

(** [np.array(values)] on a list of header values: a list of integers
    stays as it is; as soon as one element is a string NumPy builds a
    string array and every element is converted with [str]. *)
Definition is_int (v : value) : bool :=
  match v with VInt _ => true | VStr _ => false end.

Definition py_str (v : value) : string :=
  match v with
  | VInt z => NilZero.string_of_int (Z.to_int z)
  | VStr s => s
  end.

Definition np_array (values : list value) : list value :=
  if forallb is_int values then values
  else map (fun v => VStr (py_str v)) values.

(** The [data] of a [Variable]: a NumPy scalar ([data[0]]), an array of
    header values, or an array of floats (latitudes, longitudes). *)
Inductive ndata : Type :=
| Scalar (v : value)
| Values (vs : list value)
| Floats (fs : list spec_float).

Definition data_size (d : ndata) : nat :=
  match d with
  | Scalar _ => 1
  | Values vs => List.length vs
  | Floats fs => List.length fs
  end.

Record VariableT : Type := {
  var_dimensions : list string;
  var_data : ndata;
  var_attributes : odict string value
}.

(** What the body of the coordinate loop stores for the values the index
    reports: [np.array(values)], collapsed to its only element, with no
    dimension, when there is exactly one value. *)
Definition coordinate_data (values : list value) : ndata :=
  match values, np_array values with
  | [_], x :: _ => Scalar x
  | _, data => Values data
  end.

Definition coordinate_dimensions (coord_key : string) (values : list value)
  : list string :=
  if (List.length values =? 1)%nat then [] else [coord_key].

(** The loop over [HEADER_COORDINATES_MAP] of [__attrs_post_init__]:
    [CoordinateNotFound] is caught, logged, and the loop continues; any
    other exception leaves the constructor. *)
Fixpoint header_coordinates (index : Index) (table : list (string * list string))
  (coordinates : odict string VariableT) : result (odict string VariableT) :=
  match table with
  | [] => Ok coordinates
  | (coord_key, attrs_keys) :: rest =>
      match simple_header_coordinate index coord_key attrs_keys with
      | Raise (CoordinateNotFound _) => header_coordinates index rest coordinates
      | Raise e => Raise e
      | Ok (values, attributes) =>
          header_coordinates index rest
            (od_set coord_key
               {| var_dimensions := coordinate_dimensions coord_key values;
                  var_data := coordinate_data values;
                  var_attributes := attributes |}
               coordinates)
      end
  end.

(** ** The variable assembler *)

Inductive dtype : Type := Float32 | Float64.

Record DataVariable : Type := {
  dv_index : Index;
  dv_stream : Stream;
  dv_attributes : odict string value;
  dv_coordinates : odict string VariableT;
  dv_dimensions : list string;
  dv_ndim : nat;
  dv_shape : list Z;
  dv_dtype : dtype;
  dv_scale : bool;
  dv_mask : bool;
  dv_size : Z
}.

Fixpoint map_result {A B : Type} (f : A -> result B) (l : list A) : result (list B) :=
  match l with
  | [] => Ok []
  | x :: l' =>
      y <- f x ;;
      ys <- map_result f l' ;;
      Ok (y :: ys)
  end.

(** [GRID_TYPE_MAP.get(leader['gridType'], [])]. *)
Definition grid_type_keys (grid_type : value) : list string :=
  match grid_type with
  | VStr s => match od_get s GRID_TYPE_MAP with
              | Some ks => ks
              | None => []
              end
  | VInt _ => []
  end.

(** [leader['numberOfPoints']]: the accessor answers this key with an
    integer. *)
Definition message_get_long (m : Message) (key : string) : result Z :=
  v <- message_getitem m key ;;
  match v with
  | VInt n => Ok n
  | VStr _ => Raise (KeyError key)
  end.

Definition coordinate_size (coordinates : odict string VariableT) (d : string)
  : result Z :=
  c <- of_option (KeyError d) (od_get d coordinates) ;;
  Ok (Z.of_nat (data_size (var_data c))).

(** [DataVariable.__attrs_post_init__], given the two attribs [index] and
    [stream]. *)
Definition attrs_post_init (index : Index) (stream : Stream) : result DataVariable :=
  leader <- of_option StopIteration (hd_error (stream_messages stream)) ;;
  attributes <- enforce_unique_attributes index VARIABLE_ATTRIBUTES_KEYS ;;
  grid_type <- message_getitem leader "gridType" ;;
  let spatial_attributes_keys :=
    SPATIAL_COORDINATES_ATTRIBUTES_KEYS ++ grid_type_keys grid_type in
  spatial <- enforce_unique_attributes index spatial_attributes_keys ;;
  let attributes := od_update attributes spatial in
  coordinates <- header_coordinates index HEADER_COORDINATES_MAP [] ;;
  let attributes :=
    od_set "coordinates"
      (VStr (String.concat " " (od_keys coordinates) ++ " lat lon")) attributes in
  let dimensions :=
    map fst (filter (fun dc => (1 <? data_size (var_data (snd dc)))%nat) coordinates)
      ++ ["i"] in
  sizes <- map_result (coordinate_size coordinates) (removelast dimensions) ;;
  number_of_points <- message_get_long leader "numberOfPoints" ;;
  let shape := sizes ++ [number_of_points] in
  let coordinates :=
    od_set "lat"
      {| var_dimensions := ["i"];
         var_data := Floats (msg_latitudes leader);
         var_attributes := [("units", VStr "degrees_north")] |} coordinates in
  let coordinates :=
    od_set "lon"
      {| var_dimensions := ["i"];
         var_data := Floats (msg_longitudes leader);
         var_attributes := [("units", VStr "degrees_east")] |} coordinates in
  Ok {| dv_index := index;
        dv_stream := stream;
        dv_attributes := attributes;
        dv_coordinates := coordinates;
        dv_dimensions := dimensions;
        dv_ndim := List.length dimensions;
        dv_shape := shape;
        dv_dtype := Float32;
        dv_scale := true;
        dv_mask := false;
        dv_size := fold_left Z.mul shape 1%Z |}.

(** ** Dense arrays

    An array of shape [(d1, ..., dk, n)] is read row by row: the row at
    the multi-index [(i1, ..., ik)] is the slice [[i1, ..., ik, :]].
    The array is kept as the value it was filled with and the rows
    assigned since, the most recent first; a row that was never assigned
    holds the fill value.  Elements are IEEE 754 values; an array of
    dtype [float32] holds binary32 values (24 bits of precision,
    exponent bound 128). *)

Record ndarray : Type := {
  nd_shape : list Z;
  nd_dtype : dtype;
  nd_fill : spec_float;
  nd_assigned : list (list nat * list spec_float)
}.

Definition nan : spec_float := S754_nan.

Definition row_length (shape : list Z) : nat := Z.to_nat (last shape 0%Z).

(** [data[i1, ..., ik, :]]. *)
Definition nd_row (data : ndarray) (p : list nat) : list spec_float :=
  match find (fun e => list_eqb Nat.eqb p (fst e)) (nd_assigned data) with
  | Some e => snd e
  | None => repeat (nd_fill data) (row_length (nd_shape data))
  end.

(** [np.full(shape, fill_value=np.nan, dtype=dtype)]. *)
Definition np_full (shape : list Z) (dt : dtype) : result ndarray :=
  if forallb (fun d => (0 <=? d)%Z) shape
  then Ok {| nd_shape := shape;
             nd_dtype := dt;
             nd_fill := nan;
             nd_assigned := [] |}
  else Raise NegativeDimension.

(** Conversion of a decoded double to the element type of the array:
    round to nearest even for [float32]. *)
Definition cast (dt : dtype) (x : spec_float) : spec_float :=
  match dt, x with
  | Float32, S754_finite s m e => binary_round 24 128 s m e
  | _, _ => x
  end.

(** NumPy broadcasts the assigned values to the slice: same length, or a
    single value repeated; anything else is a [ValueError]. *)
Definition broadcast_row (n : nat) (values : list spec_float)
  : result (list spec_float) :=
  if (List.length values =? n)%nat then Ok values
  else match values with
       | [v] => Ok (repeat v n)
       | _ => Raise BroadcastError
       end.

Fixpoint in_bounds (pos : list nat) (shape : list Z) : bool :=
  match pos, shape with
  | [], [_] => true
  | i :: pos', d :: shape' => (Z.of_nat i <? d)%Z && in_bounds pos' shape'
  | _, _ => false
  end.

(** [data.__setitem__(tuple(header_indexes + [slice(None, None)]), values)]. *)
Definition setitem (data : ndarray) (header_indexes : list nat)
  (values : list spec_float) : result ndarray :=
  if in_bounds header_indexes (nd_shape data) then
    row <- broadcast_row (row_length (nd_shape data))
             (map (cast (nd_dtype data)) values) ;;
    Ok {| nd_shape := nd_shape data;
          nd_dtype := nd_dtype data;
          nd_fill := nd_fill data;
          nd_assigned := (header_indexes, row) :: nd_assigned data |}
  else Raise IndexError.

(** [data == missing_value] on one element.  The Python scalar is taken
    at the element type of the array; a string compares unequal to every
    element; NaN compares unequal to everything. *)
Definition scalar_as_float32 (v : value) : option spec_float :=
  match v with
  | VInt z => Some (binary_normalize 24 128 z 0 false)
  | VStr _ => None
  end.

Definition equals_scalar (x : spec_float) (v : value) : bool :=
  match scalar_as_float32 v with
  | Some m => SFeqb x m
  | None => false
  end.

Definition mask_element (missing_value : value) (x : spec_float) : spec_float :=
  if equals_scalar x missing_value then nan else x.

(** [data[data == missing_value] = np.nan]. *)
Definition mask_missing (missing_value : value) (data : ndarray) : ndarray :=
  {| nd_shape := nd_shape data;
     nd_dtype := nd_dtype data;
     nd_fill := mask_element missing_value (nd_fill data);
     nd_assigned :=
       map (fun e => (fst e, map (mask_element missing_value) (snd e)))
         (nd_assigned data) |}.

(** ** Materialisation *)

(** Python compares the lists of offsets lexicographically. *)
Fixpoint offsets_leb (a b : list Z) : bool :=
  match a, b with
  | [], _ => true
  | _ :: _, [] => false
  | x :: a', y :: b' =>
      if (x <? y)%Z then true
      else if (y <? x)%Z then false
      else offsets_leb a' b'
  end.

(** [sorted(items, key=lambda x: x[1])]: Python's sort is stable, so the
    result is the one a stable insertion sort computes. *)
Fixpoint insert_item (e : list value * list Z) (l : list (list value * list Z))
  : list (list value * list Z) :=
  match l with
  | [] => [e]
  | e' :: l' =>
      if offsets_leb (snd e) (snd e') then e :: e' :: l'
      else e' :: insert_item e l'
  end.

Definition sorted_items (items : list (list value * list Z))
  : list (list value * list Z) :=
  fold_right insert_item [] items.

(** Modelled from the spec: [messages.Message.fromfile(file, offset=...)],
    the record decoded at a byte offset of the file the stream was read
    from. *)
Definition fromfile (stream : Stream) (offset : Z) : result Message :=
  of_option (ReadError offset)
    (find (fun m => (msg_offset m =? offset)%Z) (stream_messages stream)).

(** [.tolist()] on the data of a header coordinate with a dimension:
    the list of its values.  A NumPy scalar gives a Python scalar, which
    has no [index] method; the float arrays of the latitudes and
    longitudes are not header coordinates. *)
Definition tolist (d : ndata) : result (list value) :=
  match d with
  | Values vs => Ok vs
  | Scalar _ => Raise AttributeError
  | Floats _ => Raise AttributeError
  end.

(** One step of the inner loop of [build_array]: the position of a
    header tuple along dimension [dim]. *)
Definition header_index (self : DataVariable) (header_values : list value)
  (dim : string) : result nat :=
  i <- of_option NotInList (list_index String.eqb dim (index_keys (dv_index self))) ;;
  header_value <- of_option IndexError (nth_error header_values i) ;;
  c <- of_option (KeyError dim) (od_get dim (dv_coordinates self)) ;;
  l <- tolist (var_data c) ;;
  of_option NotInList (list_index value_eqb header_value l).

Definition header_indexes_of (self : DataVariable) (header_values : list value)
  : result (list nat) :=
  map_result (header_index self header_values) (removelast (dv_dimensions self)).

(** The body of the outer loop of [build_array].  The state is the array
    and the trace of the byte offsets decoded so far. *)
Definition place (self : DataVariable) (state : ndarray * list Z)
  (item : list value * list Z) : result (ndarray * list Z) :=
  let '(data, reads) := state in
  let '(header_values, offset) := item in
  header_indexes <- header_indexes_of self header_values ;;
  offset0 <- of_option IndexError (hd_error offset) ;;
  message <- fromfile (dv_stream self) offset0 ;;
  let values := msg_values message in
  data' <- setitem data header_indexes values ;;
  Ok (data', reads ++ [offset0]).

Fixpoint fold_result {A S : Type} (f : S -> A -> result S) (l : list A) (s : S)
  : result S :=
  match l with
  | [] => Ok s
  | x :: l' => s' <- f s x ;; fold_result f l' s'
  end.

Definition missing_value_of (self : DataVariable) : value :=
  match od_get "missingValue" (dv_attributes self) with
  | Some v => v
  | None => VInt 9999
  end.

(** [DataVariable.build_array], with the trace of decoded offsets. *)
Definition build_array_trace (self : DataVariable) : result (ndarray * list Z) :=
  data <- np_full (dv_shape self) (dv_dtype self) ;;
  st <- fold_result (place self) (sorted_items (offsets (dv_index self))) (data, []) ;;
  Ok (mask_missing (missing_value_of self) (fst st), snd st).

Definition build_array (self : DataVariable) : result ndarray :=
  st <- build_array_trace self ;;
  Ok (fst st).

(** ** The cached [data] property

    Arrays are objects: the world holds the arrays allocated so far, an
    array is referred to by its address, and the trace records the byte
    offsets decoded from the file.  The instance attribute [_data] is
    absent ([None]) until the first access. *)

Record World : Type := {
  heap : list ndarray;
  file_reads : list Z
}.

Record DataVariableObject : Type := {
  obj_fields : DataVariable;
  obj_data : option nat
}.

(** [DataArray.data], inherited by [DataVariable]. *)
Definition data (self : DataVariableObject) (w : World)
  : result (nat * DataVariableObject * World) :=
  match obj_data self with
  | None =>
      st <- build_array_trace (obj_fields self) ;;
      let ref := List.length (heap w) in
      Ok (ref,
          {| obj_fields := obj_fields self; obj_data := Some ref |},
          {| heap := heap w ++ [fst st]; file_reads := file_reads w ++ snd st |})
  | Some ref => Ok (ref, self, w)
  end.

(** ** The dataset builder *)

Section DictMerge.
Context {K V : Type} `{Key K}.
Variable value_eq : V -> V -> bool.   (* [master[key] == value] *)

(** [dict_merge(master, update)].  The dictionary is updated in place:
    the result is its final state, with the exception raised, if any. *)
Fixpoint dict_merge (master : odict K V) (update : list (K * V))
  : odict K V * option K :=
  match update with
  | [] => (master, None)
  | (key, v) :: rest =>
      match od_get key master with
      | None => dict_merge (od_set key v master) rest
      | Some v' =>
          if value_eq v' v then dict_merge master rest
          else (master, Some key)
      end
  end.
End DictMerge.

(** The values of the [variables] mapping: data variables and coordinate
    variables. *)
Inductive pyobj : Type :=
| ODataVariable (dv : DataVariable)
| OVariable (v : VariableT).

(** [np.array_equal]. *)
Definition array_equal (a b : ndata) : bool :=
  match a, b with
  | Scalar x, Scalar y => value_eqb x y
  | Values xs, Values ys => list_eqb value_eqb xs ys
  | Floats xs, Floats ys => list_eqb SFeqb xs ys
  | _, _ => false
  end.

Definition attributes_eqb (a b : odict string value) : bool :=
  list_eqb (fun x y => String.eqb (fst x) (fst y) && value_eqb (snd x) (snd y)) a b.

(** [Variable.__eq__]. *)
Definition Variable_eq (a b : VariableT) : bool :=
  list_eqb String.eqb (var_dimensions a) (var_dimensions b)
  && attributes_eqb (var_attributes a) (var_attributes b)
  && array_equal (var_data a) (var_data b).

(** Modelled from the spec: equality of two buckets, header tuple and
    offsets. *)
Definition bucket_eqb (a b : list value * list Z) : bool :=
  list_eqb value_eqb (fst a) (fst b) && list_eqb Z.eqb (snd a) (snd b).

(** Modelled from the spec: equality of [messages.Index] objects, field
    by field. *)
Definition Index_eq (a b : Index) : bool :=
  String.eqb (index_path a) (index_path b)
  && list_eqb String.eqb (index_keys a) (index_keys b)
  && list_eqb bucket_eqb (offsets a) (offsets b).

(** Modelled from the spec: equality of [messages.Stream] objects, by
    their path. *)
Definition Stream_eq (a b : Stream) : bool :=
  String.eqb (stream_path a) (stream_path b).

(** [==] on the values of the [variables] mapping: the [__eq__] that
    [attr.attrs()] generates for [DataVariable] compares its attribs
    [index] and [stream]; both classes answer [NotImplemented] for an
    object of another class, and Python then compares identities. *)
Definition pyobj_eq (a b : pyobj) : bool :=
  match a, b with
  | ODataVariable x, ODataVariable y =>
      Index_eq (dv_index x) (dv_index y) && Stream_eq (dv_stream x) (dv_stream y)
  | OVariable x, OVariable y => Variable_eq x y
  | _, _ => false
  end.

(** The two dictionaries one iteration of [build_dataset_components]
    merges into the dataset. *)
Definition variable_dims (var : DataVariable) : odict string Z :=
  od_of_list (combine (dv_dimensions var) (dv_shape var)).

Definition variable_vars (short_name : value) (var : DataVariable)
  : odict value pyobj :=
  od_update (od_of_list [(short_name, ODataVariable var)])
    (map (fun kv => (VStr (fst kv), OVariable (snd kv))) (dv_coordinates var)).

Definition raise_conflict {A K : Type} (show : K -> string) (r : A * option K)
  : result A :=
  match r with
  | (a, None) => Ok a
  | (_, Some k) => Raise (MergeConflict (show k))
  end.

(** The loop of [build_dataset_components] over
    [zip(param_ids, index['shortName'])]. *)
Fixpoint components_loop (stream : Stream) (index : Index)
  (pairs : list (value * value))
  (dimensions : odict string Z) (variables : odict value pyobj)
  : result (odict string Z * odict value pyobj) :=
  match pairs with
  | [] => Ok (dimensions, variables)
  | (param_id, short_name) :: rest =>
      var <- attrs_post_init (subindex index "paramId" param_id) stream ;;
      let vars := variable_vars short_name var in
      let dims := variable_dims var in
      dimensions' <- raise_conflict (fun k => k) (dict_merge Z.eqb dimensions dims) ;;
      variables' <- raise_conflict py_str (dict_merge pyobj_eq variables vars) ;;
      components_loop stream index rest dimensions' variables'
  end.

(** [build_dataset_components]; [VERSION] is the version string of the
    installed distribution. *)
Definition build_dataset_components (VERSION : string) (stream : Stream)
  (global_attributes_keys : list string)
  : result (odict string Z * odict value pyobj * odict string value) :=
  let index := stream_index stream ALL_KEYS in
  let param_ids := getitem index "paramId" in
  dv <- components_loop stream index
          (combine param_ids (getitem index "shortName")) [] [] ;;
  attributes <- enforce_unique_attributes index global_attributes_keys ;;
  let attributes := od_set "eccodesGribVersion" (VStr VERSION) attributes in
  Ok (fst dv, snd dv, attributes).

(** ** Dates and times

    [from_grib_date_time] goes through [datetime.datetime], which checks
    its fields and counts days in the proleptic Gregorian calendar.  The
    exceptions of these functions are kept apart from the others. *)

Inductive date_exn : Type :=
| DateValueError            (* ValueError raised by datetime.datetime *)
| DateOverflowError         (* OverflowError raised by datetime.datetime *)
| DateTypeError             (* TypeError: [//] on a value that is not an integer *)
| DateKeyMissing            (* ValueError raised by index_keys.index *)
| DateIndexError.           (* IndexError: a header tuple shorter than the schema *)

Inductive dresult (A : Type) : Type :=
| DOk (a : A)
| DRaise (e : date_exn).

Arguments DOk {A} a.
Arguments DRaise {A} e.

Definition dbind {A B : Type} (m : dresult A) (f : A -> dresult B) : dresult B :=
  match m with
  | DOk a => f a
  | DRaise e => DRaise e
  end.

Definition d_of_option {A : Type} (e : date_exn) (o : option A) : dresult A :=
  match o with
  | Some a => DOk a
  | None => DRaise e
  end.

(** The calendar arithmetic of the [datetime] module. *)
Definition is_leap (year : Z) : bool :=
  ((year mod 4 =? 0) && (negb (year mod 100 =? 0) || (year mod 400 =? 0)))%Z.

Definition days_in_month (year month : Z) : Z :=
  (if month =? 2 then (if is_leap year then 29 else 28)
   else if (month =? 4) || (month =? 6) || (month =? 9) || (month =? 11) then 30
   else 31)%Z.

Definition days_before_year (year : Z) : Z :=
  (let y := year - 1 in y * 365 + y / 4 - y / 100 + y / 400)%Z.

Definition DAYS_BEFORE_MONTH : list Z :=
  [0; 31; 59; 90; 120; 151; 181; 212; 243; 273; 304; 334]%Z.

Definition days_before_month (year month : Z) : Z :=
  (nth (Z.to_nat (month - 1)) DAYS_BEFORE_MONTH 0
   + (if (2 <? month) && is_leap year then 1 else 0))%Z.

Definition ymd2ord (year month day : Z) : Z :=
  (days_before_year year + days_before_month year month + day)%Z.

Record datetime : Type := {
  dt_year : Z;
  dt_month : Z;
  dt_day : Z;
  dt_hour : Z;
  dt_minute : Z
}.

(** The fields of [datetime.datetime] are C [int]s: an argument that
    does not fit one raises [OverflowError] while the arguments are
    parsed, before any field is checked against its range. *)
Definition fits_c_int (z : Z) : bool :=
  ((-2147483648 <=? z) && (z <=? 2147483647))%Z.

(** [datetime.datetime(year, month, day, hour, minute)]. *)
Definition datetime_new (year month day hour minute : Z) : dresult datetime :=
  if negb (fits_c_int year && fits_c_int month && fits_c_int day
           && fits_c_int hour && fits_c_int minute)
  then DRaise DateOverflowError
  else
  if ((1 <=? year) && (year <=? 9999)
      && (1 <=? month) && (month <=? 12)
      && (1 <=? day) && (day <=? days_in_month year month)
      && (0 <=? hour) && (hour <=? 23)
      && (0 <=? minute) && (minute <=? 59))%Z
  then DOk {| dt_year := year; dt_month := month; dt_day := day;
              dt_hour := hour; dt_minute := minute |}
  else DRaise DateValueError.

(** [(a - b).total_seconds()], a whole number here. *)
Definition total_seconds_between (a b : datetime) : Z :=
  ((ymd2ord (dt_year a) (dt_month a) (dt_day a)
    - ymd2ord (dt_year b) (dt_month b) (dt_day b)) * 86400
   + ((dt_hour a * 3600 + dt_minute a * 60)
      - (dt_hour b * 3600 + dt_minute b * 60)))%Z.

Definition EPOCH : datetime :=
  {| dt_year := 1970; dt_month := 1; dt_day := 1; dt_hour := 0; dt_minute := 0 |}.

(** [from_grib_date_time(date, time)]; [//] and [%] round to the floor,
    as [Z.div] and [Z.modulo] do for a positive divisor. *)
Definition from_grib_date_time (date time : Z) : dresult Z :=
  let hour := (time / 100)%Z in
  let minute := (time mod 100)%Z in
  let year := (date / 10000)%Z in
  let month := (date / 100 mod 100)%Z in
  let day := (date mod 100)%Z in
  dbind (datetime_new year month day hour minute) (fun data_datetime =>
  DOk (total_seconds_between data_datetime EPOCH)).

(** The call of [from_grib_date_time] in [data_date_time], on two header
    values: the sentinel, a string, has no floor division. *)
Definition from_grib_date_time_values (date time : value) : dresult Z :=
  match time, date with
  | VInt t, VInt d => from_grib_date_time d t
  | _, _ => DRaise DateTypeError
  end.

#[export] Instance Z_Key : Key Z := {| key_eqb := Z.eqb |}.

(** One iteration of the loop of [data_date_time]. *)
Definition date_time_step (idate itime : nat)
  (state : list Z * odict Z (value * value)) (header_values : list value)
  : dresult (list Z * odict Z (value * value)) :=
  let '(data, reverse_index) := state in
  dbind (d_of_option DateIndexError (nth_error header_values idate)) (fun date =>
  dbind (d_of_option DateIndexError (nth_error header_values itime)) (fun time =>
  dbind (from_grib_date_time_values date time) (fun seconds =>
  let data := if existsb (Z.eqb seconds) data then data else data ++ [seconds] in
  DOk (data, od_set seconds (date, time) reverse_index)))).

Fixpoint date_time_loop (idate itime : nat) (tuples : list (list value))
  (state : list Z * odict Z (value * value))
  : dresult (list Z * odict Z (value * value)) :=
  match tuples with
  | [] => DOk state
  | header_values :: rest =>
      dbind (date_time_step idate itime state header_values)
        (date_time_loop idate itime rest)
  end.

(** [data_date_time(index)]. *)
Definition data_date_time (index : Index)
  : dresult (list Z * odict string value * odict Z (value * value)) :=
  dbind (d_of_option DateKeyMissing
           (list_index String.eqb "dataDate" (index_keys index))) (fun idate =>
  dbind (d_of_option DateKeyMissing
           (list_index String.eqb "dataTime" (index_keys index))) (fun itime =>
  dbind (date_time_loop idate itime (map fst (offsets index)) ([], [])) (fun st =>
  let attributes :=
    [("units", VStr "seconds since 1970-01-01T00:00:00+00:00");
     ("calendar", VStr "proleptic_gregorian");
     ("axis", VStr "T");
     ("standard_name", VStr "forecast_reference_time")] in
  DOk (fst st, attributes, snd st)))).

(** ** Constructors from a stream *)

(** [DataVariable.fromstream(paramId, ...)], once the stream is open. *)
Definition DataVariable_fromstream (paramId : value) (stream : Stream)
  : result DataVariable :=
  let index := subindex (stream_index stream ALL_KEYS) "paramId" paramId in
  attrs_post_init index stream.

Record Dataset : Type := {
  ds_stream : Stream;
  ds_encode : bool;
  ds_dimensions : odict string Z;
  ds_variables : odict value pyobj;
  ds_attributes : odict string value
}.

(** [Dataset.__attrs_post_init__], given the attribs [stream] and
    [encode]. *)
Definition Dataset_attrs_post_init (VERSION : string) (stream : Stream) (encode : bool)
  : result Dataset :=
  triple <- build_dataset_components VERSION stream GLOBAL_ATTRIBUTES_KEYS ;;
  Ok {| ds_stream := stream;
        ds_encode := encode;
        ds_dimensions := fst (fst triple);
        ds_variables := snd (fst triple);
        ds_attributes := snd triple |}.

(** ** Sample streams

    A small file in the shape of the ensemble sample: every record
    carries its parameter id, short name, member number, grid type and
    number of points; the payloads are small integers taken as doubles. *)

Definition double_of_Z (z : Z) : spec_float := binary_normalize 53 1024 z 0 false.

Definition sample_message (offset param_id : Z) (short_name : string) (number : Z)
  (payload : list Z) : Message :=
  {| msg_offset := offset;
     msg_header := [("paramId", VInt param_id); ("shortName", VStr short_name);
                    ("number", VInt number); ("gridType", VStr "regular_ll");
                    ("numberOfPoints", VInt 2); ("edition", VInt 1);
                    ("missingValue", VInt 9999)];
     msg_values := map double_of_Z payload;
     msg_latitudes := map double_of_Z [10; 20]%Z;
     msg_longitudes := map double_of_Z [1; 2]%Z |}.

(** Two parameters, two members each; one payload holds the sentinel. *)
Definition sample_stream : Stream :=
  {| stream_path := "sample.grib";
     stream_messages :=
       [ sample_message 0 130 "t" 0 [1; 2]%Z;
         sample_message 100 130 "t" 1 [3; 9999]%Z;
         sample_message 200 131 "u" 0 [5; 6]%Z;
         sample_message 300 131 "u" 1 [7; 8]%Z ] |}.

Definition sample_index : Index := stream_index sample_stream ALL_KEYS.

Definition sample_t_index : Index := subindex sample_index "paramId" (VInt 130).

(** Two records with the same header tuple share one bucket of the index. *)
Definition duplicate_stream : Stream :=
  {| stream_path := "duplicate.grib";
     stream_messages :=
       [ sample_message 0 130 "t" 0 [1; 2]%Z;
         sample_message 100 130 "t" 0 [3; 4]%Z ] |}.

Definition duplicate_index : Index :=
  subindex (stream_index duplicate_stream ALL_KEYS) "paramId" (VInt 130).

(** Two parameter ids that share a short name, followed by a third. *)
Definition shared_name_stream : Stream :=
  {| stream_path := "shared.grib";
     stream_messages :=
       [ sample_message 0 1 "a" 0 [1; 2]%Z;
         sample_message 100 2 "a" 0 [3; 4]%Z;
         sample_message 200 3 "b" 0 [5; 6]%Z ] |}.

(** An index over the schema [number, totalNumber] whose only record
    cannot answer ['number']. *)
Definition undef_number_index : Index :=
  {| index_path := "undef.grib";
     index_keys := ["number"; "totalNumber"];
     offsets := [([undef; VInt 10], [0%Z])] |}.

(** The variables the constructor builds for the sample streams. *)
Definition no_variable : DataVariable :=
  {| dv_index := {| index_path := ""; index_keys := []; offsets := [] |};
     dv_stream := {| stream_path := ""; stream_messages := [] |};
     dv_attributes := [];
     dv_coordinates := [];
     dv_dimensions := [];
     dv_ndim := 0;
     dv_shape := [];
     dv_dtype := Float32;
     dv_scale := true;
     dv_mask := false;
     dv_size := 1 |}.

Definition constructed (r : result DataVariable) : DataVariable :=
  match r with
  | Ok dv => dv
  | Raise _ => no_variable
  end.

Definition sample_t_variable : DataVariable :=
  Eval vm_compute in constructed (attrs_post_init sample_t_index sample_stream).

Definition duplicate_variable : DataVariable :=
  Eval vm_compute in constructed (attrs_post_init duplicate_index duplicate_stream).

(** The array a successful call of [build_array] returns. *)
Definition built (r : result ndarray) : ndarray :=
  match r with
  | Ok arr => arr
  | Raise _ => {| nd_shape := []; nd_dtype := Float32; nd_fill := nan;
                  nd_assigned := [] |}
  end.

(** The array and the trace a successful materialisation returns. *)
Definition constructed_trace (r : result (ndarray * list Z)) : ndarray * list Z :=
  match r with
  | Ok st => st
  | Raise _ => ({| nd_shape := []; nd_dtype := Float32; nd_fill := nan;
                   nd_assigned := [] |}, [])
  end.

(** Two parameters whose numbers of members differ. *)
Definition conflict_stream : Stream :=
  {| stream_path := "conflict.grib";
     stream_messages :=
       [ sample_message 0 130 "t" 0 [1; 2]%Z;
         sample_message 100 130 "t" 1 [3; 4]%Z;
         sample_message 200 131 "u" 0 [5; 6]%Z;
         sample_message 300 131 "u" 1 [7; 8]%Z;
         sample_message 400 131 "u" 2 [9; 10]%Z ] |}.

(** An index over the schema [dataDate, dataTime, number]: two members
    at midnight and one at noon of the same day. *)
Definition dated_index : Index :=
  {| index_path := "dated.grib";
     index_keys := ["dataDate"; "dataTime"; "number"];
     offsets := [ ([VInt 20180101; VInt 0; VInt 0], [0%Z]);
                  ([VInt 20180101; VInt 0; VInt 1], [100%Z]);
                  ([VInt 20180101; VInt 1200; VInt 0], [200%Z]) ] |}.

(** The same schema with a record that cannot answer ['dataDate']. *)
Definition undated_index : Index :=
  {| index_path := "undated.grib";
     index_keys := ["dataDate"; "dataTime"; "number"];
     offsets := [ ([undef; VInt 0; VInt 0], [0%Z]) ] |}.

(** A record on a grid of one point, after a record on a grid of two. *)
Definition point_message (offset param_id : Z) (short_name : string) (payload : Z)
  : Message :=
  {| msg_offset := offset;
     msg_header := [("paramId", VInt param_id); ("shortName", VStr short_name);
                    ("number", VInt 0); ("gridType", VStr "regular_ll");
                    ("numberOfPoints", VInt 1); ("edition", VInt 1);
                    ("missingValue", VInt 9999)];
     msg_values := [double_of_Z payload];
     msg_latitudes := [double_of_Z 10];
     msg_longitudes := [double_of_Z 1] |}.

Definition mixed_grid_stream : Stream :=
  {| stream_path := "grids.grib";
     stream_messages :=
       [ sample_message 0 130 "t" 0 [1; 2]%Z;
         point_message 100 131 "u" 7 ] |}.

Definition mixed_grid_variable : DataVariable :=
  Eval vm_compute in
    constructed (DataVariable_fromstream (VInt 131) mixed_grid_stream).

(** Records of one parameter, one of which cannot answer ['number']. *)
Definition mixed_number_stream : Stream :=
  {| stream_path := "members.grib";
     stream_messages :=
       [ sample_message 0 130 "t" 0 [1; 2]%Z;
         {| msg_offset := 100;
            msg_header := [("paramId", VInt 130); ("shortName", VStr "t");
                           ("gridType", VStr "regular_ll");
                           ("numberOfPoints", VInt 2); ("edition", VInt 1);
                           ("missingValue", VInt 9999)];
            msg_values := map double_of_Z [3; 4]%Z;
            msg_latitudes := map double_of_Z [10; 20]%Z;
            msg_longitudes := map double_of_Z [1; 2]%Z |} ] |}.

Definition mixed_number_variable : DataVariable :=
  Eval vm_compute in
    constructed (DataVariable_fromstream (VInt 130) mixed_number_stream).

(** Two analyses of one parameter on consecutive days, from records
    that cannot answer ['number']. *)
Definition dated_message (offset date : Z) (payload : list Z) : Message :=
  {| msg_offset := offset;
     msg_header := [("paramId", VInt 130); ("shortName", VStr "t");
                    ("dataDate", VInt date); ("dataTime", VInt 0);
                    ("gridType", VStr "regular_ll");
                    ("numberOfPoints", VInt 2); ("edition", VInt 1);
                    ("missingValue", VInt 9999)];
     msg_values := map double_of_Z payload;
     msg_latitudes := map double_of_Z [10; 20]%Z;
     msg_longitudes := map double_of_Z [1; 2]%Z |}.

Definition dated_stream : Stream :=
  {| stream_path := "days.grib";
     stream_messages :=
       [ dated_message 0 20180101 [1; 2]%Z;
         dated_message 100 20180102 [3; 4]%Z ] |}.

Definition dated_t_index : Index :=
  subindex (stream_index dated_stream ALL_KEYS) "paramId" (VInt 130).

Definition dated_variable : DataVariable :=
  Eval vm_compute in constructed (attrs_post_init dated_t_index dated_stream).

(** Two records of one parameter and one member that differ in their
    GRIB edition only: two header tuples, one multi-index. *)
Definition edition_message (offset edition : Z) (payload : list Z) : Message :=
  {| msg_offset := offset;
     msg_header := [("paramId", VInt 130); ("shortName", VStr "t");
                    ("number", VInt 0); ("gridType", VStr "regular_ll");
                    ("numberOfPoints", VInt 2); ("edition", VInt edition);
                    ("missingValue", VInt 9999)];
     msg_values := map double_of_Z payload;
     msg_latitudes := map double_of_Z [10; 20]%Z;
     msg_longitudes := map double_of_Z [1; 2]%Z |}.

Definition editions_stream : Stream :=
  {| stream_path := "editions.grib";
     stream_messages :=
       [ edition_message 0 1 [1; 2]%Z;
         edition_message 100 2 [3; 4]%Z ] |}.

Definition editions_variable : DataVariable :=
  Eval vm_compute in
    constructed (DataVariable_fromstream (VInt 130) editions_stream).

(** A decoded value next to the sentinel: 9999 + 2^-13, a double that
    is not 9999 and that binary32 cannot tell from it. *)
Definition near_sentinel : spec_float :=
  Eval vm_compute in binary_round 53 1024 false 81911809 (-13).

Definition rounded_message : Message :=
  {| msg_offset := 0;
     msg_header := [("paramId", VInt 130); ("shortName", VStr "t");
                    ("number", VInt 0); ("gridType", VStr "regular_ll");
                    ("numberOfPoints", VInt 2); ("edition", VInt 1);
                    ("missingValue", VInt 9999)];
     msg_values := [near_sentinel; double_of_Z 2];
     msg_latitudes := map double_of_Z [10; 20]%Z;
     msg_longitudes := map double_of_Z [1; 2]%Z |}.

Definition rounded_stream : Stream :=
  {| stream_path := "rounded.grib"; stream_messages := [rounded_message] |}.

Definition rounded_variable : DataVariable :=
  Eval vm_compute in
    constructed (DataVariable_fromstream (VInt 130) rounded_stream).

(** ** Notions used in the statements *)

(** The keys of a list, each once, at its first occurrence. *)
Definition first_occurrences (keys : list string) : list string :=
  fold_left add_key keys [].

(** The index reports at least one value for the key. *)
Definition reported (index : Index) (key : string) : bool :=
  match getitem index key with [] => false | _ :: _ => true end.

(** The coordinate loop keeps the key: the index does not report the
    sentinel as its only value. *)
Definition retained (index : Index) (key : string) : bool :=
  negb (is_undef_only (getitem index key)).

(** The index reports more than one distinct value for the key. *)
Definition varying (index : Index) (key : string) : bool :=
  (1 <? List.length (getitem index key))%nat.

(** The keys and data of the coordinates, without their attributes. *)
Definition key_data (kv : string * VariableT) : string * ndata :=
  (fst kv, var_data (snd kv)).

(** What the loop of [build_array] writes for an item of the index: the
    payload of the record at the first offset of the bucket, converted
    to the element type and broadcast to the length of a row. *)
Definition item_row (self : DataVariable) (item : list value * list Z)
  : result (list spec_float) :=
  offset0 <- of_option IndexError (hd_error (snd item)) ;;
  message <- fromfile (dv_stream self) offset0 ;;
  broadcast_row (row_length (dv_shape self))
    (map (cast (dv_dtype self)) (msg_values message)).

(** The item is placed at the multi-index [p]. *)
Definition at_position (self : DataVariable) (p : list nat)
  (item : list value * list Z) : bool :=
  match header_indexes_of self (fst item) with
  | Ok q => list_eqb Nat.eqb q p
  | Raise _ => false
  end.

(** The first offset of every bucket, in the order of the list. *)
Definition first_offsets (items : list (list value * list Z)) : list Z :=
  flat_map (fun item => match snd item with
                        | o :: _ => [o]
                        | [] => []
                        end) items.

(** The order [sorted] puts the items in. *)
Definition offsets_le (a b : list value * list Z) : Prop :=
  offsets_leb (snd a) (snd b) = true.

(** The pairs [build_dataset_components] iterates over and the variable
    it constructs for a parameter id. *)
Definition variable_pairs (stream : Stream) : list (value * value) :=
  let index := stream_index stream ALL_KEYS in
  combine (getitem index "paramId") (getitem index "shortName").

Definition variable_of (stream : Stream) (param_id : value) : result DataVariable :=
  attrs_post_init (subindex (stream_index stream ALL_KEYS) "paramId" param_id) stream.

(** The names under which the [variables] mapping holds a data variable,
    and an attribute of the data variable held under a name. *)
Definition data_variable_names (variables : odict value pyobj) : list value :=
  flat_map (fun kv => match snd kv with
                      | ODataVariable _ => [fst kv]
                      | OVariable _ => []
                      end) variables.

Definition data_variable_attribute (variables : odict value pyobj)
  (name : value) (key : string) : option value :=
  match od_get name variables with
  | Some (ODataVariable var) => od_get key (dv_attributes var)
  | _ => None
  end.

(** The triple a successful call of [build_dataset_components] returns. *)
Definition built_components
  (r : result (odict string Z * odict value pyobj * odict string value))
  : odict string Z * odict value pyobj * odict string value :=
  match r with
  | Ok triple => triple
  | Raise _ => ([], [], [])
  end.

(** What the loop of [data_date_time] keeps: the list of seconds has no
    repetition, it is the list of keys of the reverse index, and the
    reverse index maps every number of seconds to a date and a time that
    convert to it. *)
Definition date_time_invariant (st : list Z * odict Z (value * value)) : Prop :=
  NoDup (fst st) /\
  od_keys (snd st) = fst st /\
  forall seconds pair,
    od_get seconds (snd st) = Some pair ->
    exists date time,
      pair = (VInt date, VInt time) /\ from_grib_date_time date time = DOk seconds.

(** The names of the coordinate variables, as keys of the [variables]
    mapping. *)
Definition coordinate_names : list value :=
  map VStr ["number"; "dataDate"; "dataTime"; "endStep"; "topLevel"; "lat"; "lon"].

(** ** Properties of the basic structures *)

Lemma string_key_eq (a b : string) : key_eqb a b = true <-> a = b.
Proof. apply String.eqb_eq. Qed.

Lemma value_eqb_eq (a b : value) : value_eqb a b = true <-> a = b.
Proof.
  destruct a as [x|s], b as [y|t]; simpl; split; intro E;
    try discriminate; try (inversion E; subst).
  - apply Z.eqb_eq in E. now subst.
  - apply Z.eqb_refl.
  - apply String.eqb_eq in E. now subst.
  - apply String.eqb_refl.
Qed.

Lemma value_eqb_refl (a : value) : value_eqb a a = true.
Proof. now apply value_eqb_eq. Qed.

Lemma value_key_eq (a b : value) : key_eqb a b = true <-> a = b.
Proof. apply value_eqb_eq. Qed.

Lemma bind_ok {A B : Type} (m : result A) (f : A -> result B) (b : B) :
  bind m f = Ok b -> exists a, m = Ok a /\ f a = Ok b.
Proof. destruct m as [a|e]; simpl; intro E; [eauto | discriminate]. Qed.

Ltac bind_inv H :=
  let a := fresh "a" in
  let Ha := fresh "Ha" in
  apply bind_ok in H; destruct H as [a [Ha H]].

Section OrderedDictFacts.
Context {K V : Type} `{Key K}.
Hypothesis key_ok : forall a b : K, key_eqb a b = true <-> a = b.

Lemma key_eqb_refl (k : K) : key_eqb k k = true.
Proof. now apply key_ok. Qed.

Lemma key_eqb_neq (a b : K) : a <> b -> key_eqb a b = false.
Proof.
  intro N. destruct (key_eqb a b) eqn:E; [|reflexivity].
  apply key_ok in E. contradiction.
Qed.

Lemma od_get_set_same (k : K) (v : V) (d : odict K V) :
  od_get k (od_set k v d) = Some v.
Proof.
  induction d as [|[k' v'] d IH]; simpl.
  - now rewrite key_eqb_refl.
  - destruct (key_eqb k k') eqn:E; simpl; rewrite E; auto.
Qed.

Lemma od_get_set_other (k k' : K) (v : V) (d : odict K V) :
  k <> k' -> od_get k (od_set k' v d) = od_get k d.
Proof.
  intro N. induction d as [|[k0 v0] d IH]; simpl.
  - rewrite key_eqb_neq; auto.
  - destruct (key_eqb k' k0) eqn:E; simpl.
    + apply key_ok in E. subst k0. rewrite key_eqb_neq; auto.
    + destruct (key_eqb k k0); auto.
Qed.

Lemma od_get_none_iff (k : K) (d : odict K V) :
  od_get k d = None <-> ~ In k (od_keys d).
Proof.
  induction d as [|[k' v'] d IH]; simpl.
  - tauto.
  - destruct (key_eqb k k') eqn:E.
    + apply key_ok in E. subst. split; [discriminate | intro N; exfalso; auto].
    + split.
      * intros G [E'|I]; [subst; rewrite key_eqb_refl in E; discriminate|].
        now apply IH in G.
      * intro N. apply IH. intro I. apply N. now right.
Qed.

Lemma od_set_absent (k : K) (v : V) (d : odict K V) :
  od_get k d = None -> od_set k v d = d ++ [(k, v)].
Proof.
  induction d as [|[k' v'] d IH]; simpl; intro G; [reflexivity|].
  destruct (key_eqb k k'); [discriminate|]. now rewrite IH.
Qed.

Lemma od_get_app (k : K) (d1 d2 : odict K V) :
  od_get k (d1 ++ d2) =
  match od_get k d1 with Some v => Some v | None => od_get k d2 end.
Proof.
  induction d1 as [|[k' v'] d1 IH]; simpl; [reflexivity|].
  destruct (key_eqb k k'); auto.
Qed.
End OrderedDictFacts.

Lemma od_keys_set (k : string) {V : Type} (v : V) (d : odict string V) :
  od_keys (od_set k v d) = add_key (od_keys d) k.
Proof.
  unfold add_key, od_keys. induction d as [|[k' v'] d IH]; simpl; [reflexivity|].
  change (key_eqb k k') with (String.eqb k k').
  destruct (String.eqb k k') eqn:E; simpl; [reflexivity|].
  rewrite IH.
  destruct (existsb (String.eqb k) (map fst d)); reflexivity.
Qed.

(** ** The coordinate builder *)

Lemma enforce_loop_raise index keys acc e :
  enforce_loop index keys acc = Raise e ->
  exists key, In key keys /\ (2 <= List.length (getitem index key))%nat /\
              e = MultipleValues key (getitem index key).
Proof.
  revert acc. induction keys as [|key0 rest IH]; simpl; intros acc E; [discriminate|].
  destruct (1 <? List.length (getitem index key0))%nat eqn:L.
  - inversion E; subst. exists key0. apply Nat.ltb_lt in L. auto.
  - destruct (getitem index key0) as [|v0 vs];
      apply IH in E; destruct E as [key [I [G Ee]]]; exists key; auto.
Qed.

Lemma enforce_loop_ok index keys acc attributes :
  enforce_loop index keys acc = Ok attributes ->
  (forall key, In key keys -> (List.length (getitem index key) <= 1)%nat) /\
  (forall key,
     od_get key attributes =
     match (if existsb (String.eqb key) keys then hd_error (getitem index key)
            else None) with
     | Some v => Some v
     | None => od_get key acc
     end) /\
  od_keys attributes = fold_left add_key (filter (reported index) keys) (od_keys acc).
Proof.
  revert acc. induction keys as [|key0 rest IH]; simpl; intros acc E.
  - inversion E; subst. repeat split; auto. intros key [].
  - destruct (1 <? List.length (getitem index key0))%nat eqn:L; [discriminate|].
    apply Nat.ltb_ge in L. unfold reported at 1.
    destruct (getitem index key0) as [|v0 vs] eqn:G0;
      apply IH in E; destruct E as [B [G O]].
    + repeat split; auto.
      * intros key [->|I]; [rewrite G0; simpl; lia | auto].
      * intro key. rewrite G. destruct (String.eqb key key0) eqn:E0; simpl; auto.
        apply String.eqb_eq in E0. subst key0. rewrite G0. simpl.
        destruct (existsb (String.eqb key) rest); reflexivity.
    + repeat split; auto.
      * intros key [->|I]; [rewrite G0; simpl in *; lia | auto].
      * intro key. rewrite G. destruct (String.eqb key key0) eqn:E0; simpl.
        -- apply String.eqb_eq in E0. subst key0. rewrite G0. simpl.
           destruct (existsb (String.eqb key) rest); [reflexivity|].
           apply (od_get_set_same string_key_eq).
        -- destruct (if existsb (String.eqb key) rest then _ else _); auto.
           apply (od_get_set_other string_key_eq).
           intro N. subst. rewrite String.eqb_refl in E0. discriminate.
      * simpl. rewrite O, od_keys_set. reflexivity.
Qed.

(** C4.  [enforce_unique_attributes] is a three-way case per key: a key
    for which the index reports two or more values makes the call raise
    the ambiguous-attribute error (naming the first such key and its
    values); otherwise the result maps every key with exactly one value
    to that value, leaves out every key with no value, and lists its keys
    in the order of the given key list. *)
Theorem enforce_unique_attributes_three_way (index : Index) (keys : list string) :
  ((exists key, In key keys /\ (2 <= List.length (getitem index key))%nat) ->
   exists key,
     In key keys /\ (2 <= List.length (getitem index key))%nat /\
     enforce_unique_attributes index keys
     = Raise (MultipleValues key (getitem index key))) /\
  ((forall key, In key keys -> (List.length (getitem index key) <= 1)%nat) ->
   exists attributes,
     enforce_unique_attributes index keys = Ok attributes /\
     (forall key v, In key keys -> getitem index key = [v] ->
                    od_get key attributes = Some v) /\
     (forall key, In key keys -> getitem index key = [] ->
                  od_get key attributes = None) /\
     (forall key, ~ In key keys -> od_get key attributes = None) /\
     od_keys attributes = first_occurrences (filter (reported index) keys)).
Proof.
  unfold enforce_unique_attributes.
  destruct (enforce_loop index keys []) as [attributes|e] eqn:E.
  - apply enforce_loop_ok in E. destruct E as [B [G O]]. split.
    + intros [key [I L]]. apply B in I. lia.
    + intros _. exists attributes. split; [reflexivity|]. repeat split.
      * intros key v I Gv. rewrite G.
        replace (existsb (String.eqb key) keys) with true.
        -- rewrite Gv. reflexivity.
        -- symmetry. apply existsb_exists. exists key. split; auto.
           apply String.eqb_refl.
      * intros key I Gv. rewrite G, Gv.
        destruct (existsb (String.eqb key) keys); reflexivity.
      * intros key N. rewrite G.
        destruct (existsb (String.eqb key) keys) eqn:X; [|reflexivity].
        apply existsb_exists in X. destruct X as [k [I Ek]].
        apply String.eqb_eq in Ek. subst. contradiction.
      * exact O.
  - apply enforce_loop_raise in E. destruct E as [key [I [L Ee]]]. subst e. split.
    + intros _. exists key. auto.
    + intro B. apply B in I. lia.
Qed.

Lemma enforce_unique_attributes_three_way_witness :
  (exists key,
     In key ["paramId"; "number"] /\
     (2 <= List.length (getitem sample_index key))%nat /\
     enforce_unique_attributes sample_index ["paramId"; "number"]
     = Raise (MultipleValues key (getitem sample_index key))) /\
  (exists attributes,
     enforce_unique_attributes sample_t_index ["shortName"; "paramId"; "lat"]
     = Ok attributes /\
     od_get "paramId" attributes = Some (VInt 130) /\
     od_get "lat" attributes = None /\
     od_keys attributes = ["shortName"; "paramId"]).
Proof.
  split.
  - apply (proj1 (enforce_unique_attributes_three_way sample_index ["paramId"; "number"])).
    exists "paramId". split; [simpl; auto | vm_compute; lia].
  - destruct (proj2 (enforce_unique_attributes_three_way sample_t_index
                       ["shortName"; "paramId"; "lat"]))
      as [attributes [E [G1 [G0 [_ O]]]]].
    + intros key [<-|[<-|[<-|[]]]]; vm_compute; lia.
    + exists attributes. split; [exact E|]. repeat split.
      * apply G1; [simpl; auto | vm_compute; reflexivity].
      * apply G0; [simpl; auto | vm_compute; reflexivity].
      * rewrite O. reflexivity.
Defined.

Lemma enforce_unique_attributes_raise index keys e :
  enforce_unique_attributes index keys = Raise e ->
  exists key values, e = MultipleValues key values.
Proof.
  intro E. apply enforce_loop_raise in E. destruct E as [key [_ [_ ->]]]. eauto.
Qed.

Lemma simple_header_coordinate_not_found index key attrs_keys :
  simple_header_coordinate index key attrs_keys = Raise (CoordinateNotFound key)
  <-> getitem index key = [undef].
Proof.
  unfold simple_header_coordinate. split.
  - destruct (is_undef_only (getitem index key)) eqn:U.
    + intros _. unfold is_undef_only in U.
      destruct (getitem index key) as [|v [|w l]]; try discriminate.
      apply value_eqb_eq in U. now subst.
    + destruct (enforce_unique_attributes index attrs_keys) eqn:E; simpl;
        [discriminate|].
      apply enforce_unique_attributes_raise in E. destruct E as [k [vs ->]].
      discriminate.
  - intros ->. reflexivity.
Qed.

Lemma simple_header_coordinate_cases index key attrs_keys :
  (retained index key = false /\
   simple_header_coordinate index key attrs_keys = Raise (CoordinateNotFound key)) \/
  (retained index key = true /\
   ((exists attributes,
       simple_header_coordinate index key attrs_keys
       = Ok (getitem index key, attributes)) \/
    (exists k vs,
       simple_header_coordinate index key attrs_keys = Raise (MultipleValues k vs)))).
Proof.
  unfold simple_header_coordinate, retained.
  destruct (is_undef_only (getitem index key)); simpl; [left; auto|right].
  split; [reflexivity|].
  destruct (enforce_unique_attributes index attrs_keys) as [a|e] eqn:E; simpl.
  - left. eauto.
  - right. apply enforce_unique_attributes_raise in E. destruct E as [k [vs ->]]. eauto.
Qed.

Lemma header_coordinates_skip index key attrs_keys rest acc :
  retained index key = false ->
  header_coordinates index ((key, attrs_keys) :: rest) acc
  = header_coordinates index rest acc.
Proof.
  intro R. simpl.
  destruct (simple_header_coordinate_cases index key attrs_keys)
    as [[_ E]|[R' _]]; [now rewrite E | congruence].
Qed.

Lemma header_coordinates_filter index table acc :
  header_coordinates index table acc
  = header_coordinates index (filter (fun e => retained index (fst e)) table) acc.
Proof.
  revert acc. induction table as [|[key attrs_keys] rest IH]; intro acc; [reflexivity|].
  cbn [filter fst]. destruct (retained index key) eqn:R.
  - simpl. destruct (simple_header_coordinate index key attrs_keys) as [[vs a]|e];
      [apply IH | destruct e; auto].
  - rewrite header_coordinates_skip by exact R. apply IH.
Qed.

Lemma key_data_set k v (d : odict string VariableT) :
  map key_data (od_set k v d) = od_set k (var_data v) (map key_data d).
Proof.
  induction d as [|[k' v'] d IH]; simpl; [reflexivity|].
  destruct (String.eqb k k'); simpl; [reflexivity|]. now rewrite IH.
Qed.

Lemma key_data_get k (d : odict string VariableT) :
  od_get k (map key_data d) = option_map var_data (od_get k d).
Proof.
  induction d as [|[k' v'] d IH]; simpl; [reflexivity|].
  destruct (String.eqb k k'); simpl; auto.
Qed.

Lemma header_coordinates_data index table acc coordinates :
  header_coordinates index table acc = Ok coordinates ->
  map key_data coordinates =
  fold_left (fun d k => od_set k (coordinate_data (getitem index k)) d)
    (filter (retained index) (map fst table)) (map key_data acc).
Proof.
  revert acc. induction table as [|[key attrs_keys] rest IH]; intros acc E.
  - simpl in E. inversion E; subst. reflexivity.
  - cbn [map fst filter].
    destruct (simple_header_coordinate_cases index key attrs_keys)
      as [[R S]|[R [[a S]|[k [vs S]]]]]; rewrite R.
    + rewrite header_coordinates_skip in E by exact R. now apply IH.
    + simpl in E. rewrite S in E. apply IH in E. rewrite E.
      rewrite key_data_set. reflexivity.
    + simpl in E. rewrite S in E. discriminate.
Qed.

Lemma fold_set_fresh {V : Type} (f : string -> V) (l : list string)
  (d : odict string V) :
  NoDup l -> (forall k, In k l -> ~ In k (od_keys d)) ->
  fold_left (fun d k => od_set k (f k) d) l d = d ++ map (fun k => (k, f k)) l.
Proof.
  revert d. induction l as [|k l IH]; intros d N F; simpl.
  - now rewrite app_nil_r.
  - inversion N as [|? ? Nk Nl]; subst.
    rewrite (od_set_absent k (f k) d).
    + rewrite IH; auto.
      * now rewrite <- app_assoc.
      * intros k' I. unfold od_keys. rewrite map_app, in_app_iff. simpl.
        intros [J|[J|[]]]; [apply (F k'); simpl; auto | subst; contradiction].
    + apply (od_get_none_iff string_key_eq). apply F. simpl; auto.
Qed.

Lemma NoDup_filter {A : Type} (p : A -> bool) (l : list A) :
  NoDup l -> NoDup (filter p l).
Proof.
  induction 1 as [|x l N _ IH]; simpl; [constructor|].
  destruct (p x); auto. constructor; auto.
  intro I. apply filter_In in I. tauto.
Qed.

Lemma header_keys_NoDup : NoDup (map fst HEADER_COORDINATES_MAP).
Proof.
  simpl. repeat constructor; simpl; intuition discriminate.
Qed.

(** The coordinates [__attrs_post_init__] holds after its loop: the
    retained keys of the table, in its order, each with the data built
    from the values the index reports. *)
Lemma header_coordinates_retained index coordinates :
  header_coordinates index HEADER_COORDINATES_MAP [] = Ok coordinates ->
  map key_data coordinates =
  map (fun k => (k, coordinate_data (getitem index k)))
    (filter (retained index) (map fst HEADER_COORDINATES_MAP)).
Proof.
  intro E. apply header_coordinates_data in E. rewrite E.
  rewrite fold_set_fresh; [reflexivity | | intros k _ []].
  apply NoDup_filter, header_keys_NoDup.
Qed.

(** ** The variable assembler *)

Lemma attrs_post_init_ok index stream dv :
  attrs_post_init index stream = Ok dv ->
  exists leader attributes grid_type spatial coordinates sizes n,
    hd_error (stream_messages stream) = Some leader /\
    enforce_unique_attributes index VARIABLE_ATTRIBUTES_KEYS = Ok attributes /\
    message_getitem leader "gridType" = Ok grid_type /\
    enforce_unique_attributes index
      (SPATIAL_COORDINATES_ATTRIBUTES_KEYS ++ grid_type_keys grid_type) = Ok spatial /\
    header_coordinates index HEADER_COORDINATES_MAP [] = Ok coordinates /\
    map_result (coordinate_size coordinates) (removelast (dv_dimensions dv)) = Ok sizes /\
    message_get_long leader "numberOfPoints" = Ok n /\
    dv_index dv = index /\
    dv_stream dv = stream /\
    dv_dtype dv = Float32 /\
    dv_attributes dv =
      od_set "coordinates"
        (VStr (String.concat " " (od_keys coordinates) ++ " lat lon"))
        (od_update attributes spatial) /\
    dv_dimensions dv =
      map fst (filter (fun dc => (1 <? data_size (var_data (snd dc)))%nat) coordinates)
        ++ ["i"] /\
    dv_shape dv = sizes ++ [n] /\
    dv_coordinates dv =
      od_set "lon"
        {| var_dimensions := ["i"];
           var_data := Floats (msg_longitudes leader);
           var_attributes := [("units", VStr "degrees_east")] |}
        (od_set "lat"
           {| var_dimensions := ["i"];
              var_data := Floats (msg_latitudes leader);
              var_attributes := [("units", VStr "degrees_north")] |} coordinates).
Proof.
  unfold attrs_post_init. intro E.
  apply bind_ok in E. destruct E as [leader [L E]]. cbv beta zeta in E.
  apply bind_ok in E. destruct E as [attributes [A E]]. cbv beta zeta in E.
  apply bind_ok in E. destruct E as [grid_type [G E]]. cbv beta zeta in E.
  apply bind_ok in E. destruct E as [spatial [S E]]. cbv beta zeta in E.
  apply bind_ok in E. destruct E as [coordinates [C E]]. cbv beta zeta in E.
  apply bind_ok in E. destruct E as [sizes [Z E]]. cbv beta zeta in E.
  apply bind_ok in E. destruct E as [n [N E]]. cbv beta zeta in E.
  inversion E; subst; clear E. cbn [dv_dimensions].
  exists leader, attributes, grid_type, spatial, coordinates, sizes, n.
  repeat split; auto.
  destruct (hd_error (stream_messages stream)); simpl in L; congruence.
Qed.

Lemma np_array_length values : List.length (np_array values) = List.length values.
Proof.
  unfold np_array. destruct (forallb is_int values); [reflexivity|].
  apply length_map.
Qed.

Lemma coordinate_data_size values :
  data_size (coordinate_data values) = List.length values.
Proof.
  unfold coordinate_data. pose proof (np_array_length values) as L.
  destruct values as [|v [|w l]]; destruct (np_array _) as [|x xs];
    simpl in *; try discriminate; auto.
Qed.

Lemma filter_key_data (p : ndata -> bool) (coordinates : odict string VariableT) :
  map fst (filter (fun dc => p (var_data (snd dc))) coordinates)
  = map fst (filter (fun kd => p (snd kd)) (map key_data coordinates)).
Proof.
  induction coordinates as [|[k v] l IH]; simpl; [reflexivity|].
  destruct (p (var_data v)); simpl; now rewrite IH.
Qed.

Lemma filter_tagged {A B : Type} (f : A -> B) (p : B -> bool) (l : list A) :
  map fst (filter (fun kd => p (snd kd)) (map (fun k => (k, f k)) l))
  = filter (fun k => p (f k)) l.
Proof.
  induction l as [|x l IH]; simpl; [reflexivity|].
  destruct (p (f x)); simpl; now rewrite IH.
Qed.

Lemma od_get_tagged {V : Type} (f : string -> V) (l : list string) (k : string) :
  od_get k (map (fun k => (k, f k)) l) = if existsb (String.eqb k) l then Some (f k) else None.
Proof.
  induction l as [|x l IH]; simpl; [reflexivity|].
  destruct (String.eqb k x) eqn:E; simpl; auto.
  apply String.eqb_eq in E. now subst.
Qed.

Lemma existsb_eqb_In (k : string) (l : list string) :
  existsb (String.eqb k) l = true <-> In k l.
Proof.
  rewrite existsb_exists. split.
  - intros [x [I E]]. apply String.eqb_eq in E. now subst.
  - intro I. exists k. split; auto. apply String.eqb_refl.
Qed.

Lemma varying_retained index key : varying index key = true -> retained index key = true.
Proof.
  unfold varying, retained, is_undef_only.
  destruct (getitem index key) as [|v [|w l]]; simpl; auto; discriminate.
Qed.

Lemma filter_filter_implied {A : Type} (p q : A -> bool) (l : list A) :
  (forall x, p x = true -> q x = true) ->
  filter p (filter q l) = filter p l.
Proof.
  intro I. induction l as [|x l IH]; simpl; [reflexivity|].
  destruct (q x) eqn:Q; simpl.
  - destruct (p x); now rewrite IH.
  - destruct (p x) eqn:P; [apply I in P; congruence | exact IH].
Qed.

Lemma coordinate_sizes index coordinates dims sizes :
  map key_data coordinates =
    map (fun k => (k, coordinate_data (getitem index k)))
      (filter (retained index) (map fst HEADER_COORDINATES_MAP)) ->
  (forall d, In d dims -> In d (filter (retained index) (map fst HEADER_COORDINATES_MAP))) ->
  map_result (coordinate_size coordinates) dims = Ok sizes ->
  sizes = map (fun k => Z.of_nat (List.length (getitem index k))) dims.
Proof.
  intros KD. revert sizes. induction dims as [|d dims IH]; intros sizes I E; simpl in E.
  - now inversion E.
  - apply bind_ok in E. destruct E as [y [Y E]].
    apply bind_ok in E. destruct E as [ys [YS E]].
    inversion E; subst; clear E. simpl. f_equal.
    + unfold coordinate_size in Y. apply bind_ok in Y. destruct Y as [c [C Y]].
      inversion Y; subst; clear Y.
      pose proof (key_data_get d coordinates) as G. rewrite KD, od_get_tagged in G.
      replace (existsb _ _) with true in G
        by (symmetry; apply existsb_eqb_In, I; simpl; auto).
      destruct (od_get d coordinates) as [c'|] eqn:C'; simpl in C; [|discriminate].
      inversion C; subst c'. simpl in G. inversion G as [G'].
      now rewrite coordinate_data_size.
    + apply IH; auto. intros d' J. apply I. now right.
Qed.

Lemma constructed_dimensions (index : Index) (stream : Stream) (dv : DataVariable) :
  attrs_post_init index stream = Ok dv ->
  dv_dimensions dv
  = filter (fun k => retained index k && varying index k)
      ["number"; "dataDate"; "dataTime"; "endStep"; "topLevel"] ++ ["i"].
Proof.
  intro E. apply attrs_post_init_ok in E.
  destruct E as (leader & attributes & grid_type & spatial & coordinates & sizes & n
                 & _ & _ & _ & _ & C & _ & _ & _ & _ & _ & _ & D & _).
  apply header_coordinates_retained in C.
  rewrite D. f_equal.
  rewrite (filter_key_data (fun d => (1 <? data_size d)%nat)), C.
  rewrite (filter_tagged _ (fun d => (1 <? data_size d)%nat)).
  change (map fst HEADER_COORDINATES_MAP)
    with ["number"; "dataDate"; "dataTime"; "endStep"; "topLevel"].
  rewrite <- (filter_filter_implied (fun k => retained index k && varying index k)
                (retained index))
    by (intros x H; apply andb_true_iff in H; tauto).
  apply filter_ext_in. intros k I. rewrite coordinate_data_size.
  apply filter_In in I. destruct I as [_ R]. rewrite R. reflexivity.
Qed.

(** C1.  The dimensions of a constructed [DataVariable] are the retained
    header coordinates with more than one distinct value, in the order
    of the coordinate table (number, dataDate, dataTime, endStep,
    topLevel), followed by ['i']; its shape gives the number of distinct
    values of each of them, followed by the [numberOfPoints] of the
    first record of the stream. *)
Theorem dimensions_and_shape (index : Index) (stream : Stream) (dv : DataVariable) :
  attrs_post_init index stream = Ok dv ->
  let dims :=
    filter (fun k => retained index k && varying index k)
      ["number"; "dataDate"; "dataTime"; "endStep"; "topLevel"] in
  dv_dimensions dv = dims ++ ["i"] /\
  exists leader n,
    hd_error (stream_messages stream) = Some leader /\
    message_get_long leader "numberOfPoints" = Ok n /\
    dv_shape dv = map (fun k => Z.of_nat (List.length (getitem index k))) dims ++ [n].
Proof.
  intros E dims. pose proof (constructed_dimensions index stream dv E) as DD.
  fold dims in DD. split; [exact DD|].
  apply attrs_post_init_ok in E.
  destruct E as (leader & attributes & grid_type & spatial & coordinates & sizes & n
                 & L & _ & _ & _ & C & Z & N & _ & _ & _ & _ & _ & S & _).
  apply header_coordinates_retained in C.
  exists leader, n. split; [exact L|]. split; [exact N|].
  rewrite S. f_equal. rewrite DD, removelast_last in Z.
  apply (coordinate_sizes index coordinates); auto.
  intros d I. unfold dims in I. apply filter_In in I. destruct I as [I R].
  apply andb_true_iff in R. apply filter_In. tauto.
Qed.

Lemma dimensions_and_shape_witness :
  exists dv,
    attrs_post_init sample_t_index sample_stream = Ok dv /\
    dv_dimensions dv = ["number"; "i"] /\
    dv_shape dv = [2; 2]%Z.
Proof.
  destruct (attrs_post_init sample_t_index sample_stream) as [dv|e] eqn:E;
    [|vm_compute in E; discriminate].
  exists dv. split; [reflexivity|].
  destruct (dimensions_and_shape sample_t_index sample_stream dv E)
    as [D [leader [n [L [N S]]]]].
  split.
  - rewrite D. vm_compute. reflexivity.
  - rewrite S. vm_compute in L. inversion L; subst leader.
    vm_compute in N. inversion N; subst n. vm_compute. reflexivity.
Defined.

Lemma header_coordinates_entries index table : forall acc coordinates,
  header_coordinates index table acc = Ok coordinates ->
  forall k c,
    od_get k coordinates = Some c ->
    od_get k acc = Some c \/
    (retained index k = true /\
     var_dimensions c = coordinate_dimensions k (getitem index k) /\
     var_data c = coordinate_data (getitem index k) /\
     exists attrs_keys,
       In (k, attrs_keys) table /\
       enforce_unique_attributes index attrs_keys = Ok (var_attributes c)).
Proof.
  induction table as [|[key attrs_keys] rest IH]; intros acc coordinates E k c G.
  - simpl in E. inversion E; subst. now left.
  - destruct (simple_header_coordinate_cases index key attrs_keys)
      as [[R S]|[R [[a S]|[k' [vs S]]]]].
    + rewrite header_coordinates_skip in E by exact R.
      destruct (IH _ _ E k c G) as [L|(R' & D & V & aks & I & A)]; [now left|].
      right. repeat split; auto. exists aks. split; [now right | exact A].
    + simpl in E. rewrite S in E.
      destruct (IH _ _ E k c G) as [L|(R' & D & V & aks & I & A)].
      * destruct (String.eqb k key) eqn:EK.
        -- apply String.eqb_eq in EK. subst k.
           rewrite (od_get_set_same string_key_eq) in L. inversion L; subst c.
           right. simpl. repeat split; auto. exists attrs_keys. split; [now left|].
           unfold simple_header_coordinate in S.
           destruct (is_undef_only (getitem index key)); [discriminate|].
           destruct (enforce_unique_attributes index attrs_keys); simpl in S;
             congruence.
        -- rewrite (od_get_set_other string_key_eq) in L; [now left|].
           intros ->. rewrite String.eqb_refl in EK. discriminate.
      * right. repeat split; auto. exists aks. split; [now right | exact A].
    + simpl in E. rewrite S in E. discriminate.
Qed.

Lemma retained_false_iff index key :
  retained index key = false <-> getitem index key = [undef].
Proof.
  unfold retained, is_undef_only. split.
  - destruct (getitem index key) as [|v [|w l]]; simpl; try discriminate.
    intro U. apply negb_false_iff, value_eqb_eq in U. now subst.
  - intros ->. reflexivity.
Qed.

(** A header coordinate is among the coordinates of a constructed
    variable exactly when the loop retained it. *)
Lemma coordinate_present_iff index stream dv key :
  attrs_post_init index stream = Ok dv ->
  In key (map fst HEADER_COORDINATES_MAP) ->
  (od_get key (dv_coordinates dv) <> None <-> retained index key = true).
Proof.
  intros E I. apply attrs_post_init_ok in E.
  destruct E as (leader & attributes & grid_type & spatial & coordinates & sizes & n
                 & _ & _ & _ & _ & C & _ & _ & _ & _ & _ & _ & _ & _ & CS).
  rewrite CS.
  rewrite !(od_get_set_other string_key_eq)
    by (simpl in I; intuition (subst; discriminate)).
  apply header_coordinates_retained in C.
  pose proof (key_data_get key coordinates) as G. rewrite C, od_get_tagged in G.
  destruct (existsb (String.eqb key) _) eqn:X in G.
  - apply existsb_eqb_In, filter_In in X. destruct X as [_ R].
    destruct (od_get key coordinates); [split; auto; discriminate | discriminate].
  - destruct (od_get key coordinates); [discriminate|]. split; [congruence|].
    intro R. exfalso.
    assert (T : existsb (String.eqb key)
                  (filter (retained index) (map fst HEADER_COORDINATES_MAP)) = true)
      by (apply existsb_eqb_In, filter_In; auto).
    congruence.
Qed.

(** C6.  [simple_header_coordinate] raises [CoordinateNotFound] exactly
    when the index reports the sentinel ['undef'] as the only value of
    the coordinate key; the coordinate loop of the constructor catches
    it and goes on with the rest of the table; the constructed variable
    has neither a coordinate nor a dimension for that key; and every
    other key of the table, before or after a skipped one, has its
    coordinate built from the values the index reports, with a
    dimension of its name when there are two or more. *)
Theorem coordinate_not_found_is_skipped :
  (forall index key attrs_keys,
     (exists k, simple_header_coordinate index key attrs_keys
                = Raise (CoordinateNotFound k))
     <-> getitem index key = [undef]) /\
  (forall index key attrs_keys rest coordinates,
     getitem index key = [undef] ->
     header_coordinates index ((key, attrs_keys) :: rest) coordinates
     = header_coordinates index rest coordinates) /\
  (forall index stream dv key,
     attrs_post_init index stream = Ok dv ->
     In key (map fst HEADER_COORDINATES_MAP) ->
     getitem index key = [undef] ->
     od_get key (dv_coordinates dv) = None /\ ~ In key (dv_dimensions dv)) /\
  (forall index stream dv key,
     attrs_post_init index stream = Ok dv ->
     In key (map fst HEADER_COORDINATES_MAP) ->
     getitem index key <> [undef] ->
     exists c,
       od_get key (dv_coordinates dv) = Some c /\
       var_data c = coordinate_data (getitem index key) /\
       var_dimensions c = coordinate_dimensions key (getitem index key) /\
       ((2 <= List.length (getitem index key))%nat -> In key (dv_dimensions dv))).
Proof.
  split; [|split; [|split]].
  - intros index key attrs_keys. split.
    + intros [k E]. apply retained_false_iff.
      destruct (simple_header_coordinate_cases index key attrs_keys)
        as [[R _]|[_ [[a S]|[k' [vs S]]]]]; [exact R | congruence | congruence].
    + intro U. exists key. now apply simple_header_coordinate_not_found.
  - intros index key attrs_keys rest coordinates U.
    apply header_coordinates_skip. now apply retained_false_iff.
  - intros index stream dv key E I U. apply retained_false_iff in U. split.
    + destruct (od_get key (dv_coordinates dv)) eqn:G; [|reflexivity].
      assert (N : od_get key (dv_coordinates dv) <> None) by congruence.
      apply (coordinate_present_iff index stream dv key E I) in N. congruence.
    + rewrite (constructed_dimensions index stream dv E), in_app_iff.
      intros [J|[J|[]]].
      * apply filter_In in J. destruct J as [_ J].
        apply andb_true_iff in J. destruct J. congruence.
      * subst key. simpl in I. intuition discriminate.
  - intros index stream dv key E I U.
    assert (R : retained index key = true).
    { destruct (retained index key) eqn:R; [reflexivity|].
      apply retained_false_iff in R. contradiction. }
    pose proof (proj2 (coordinate_present_iff index stream dv key E I) R) as P.
    destruct (od_get key (dv_coordinates dv)) as [c|] eqn:G; [|congruence].
    exists c. split; [reflexivity|].
    pose proof (constructed_dimensions index stream dv E) as DS.
    apply attrs_post_init_ok in E.
    destruct E as (leader & attributes & grid_type & spatial & coordinates & sizes & n
                   & _ & _ & _ & _ & C & _ & _ & _ & _ & _ & _ & _ & _ & CS).
    rewrite CS in G.
    rewrite !(od_get_set_other string_key_eq) in G
      by (simpl in I; intuition (subst; discriminate)).
    destruct (header_coordinates_entries index _ _ _ C key c G)
      as [B|(_ & DM & D & _)]; [discriminate|].
    split; [exact D|]. split; [exact DM|].
    intro L. rewrite DS. apply in_or_app. left. apply filter_In.
    split; [exact I|]. rewrite R. apply Nat.ltb_lt. exact L.
Qed.

Lemma coordinate_not_found_is_skipped_witness :
  simple_header_coordinate undef_number_index "number" ["totalNumber"]
  = Raise (CoordinateNotFound "number") /\
  header_coordinates undef_number_index
    [("number", ["totalNumber"]); ("totalNumber", [])] []
  = header_coordinates undef_number_index [("totalNumber", [])] [] /\
  (od_get "number" (dv_coordinates dated_variable) = None /\
   ~ In "number" (dv_dimensions dated_variable)) /\
  (exists c,
     od_get "dataDate" (dv_coordinates dated_variable) = Some c /\
     var_data c = Values [VInt 20180101; VInt 20180102] /\
     var_dimensions c = ["dataDate"] /\
     In "dataDate" (dv_dimensions dated_variable)) /\
  (exists c,
     od_get "dataTime" (dv_coordinates dated_variable) = Some c /\
     var_data c = Scalar (VInt 0) /\
     var_dimensions c = []).
Proof.
  destruct coordinate_not_found_is_skipped as [A [B [C D]]].
  assert (E : attrs_post_init dated_t_index dated_stream = Ok dated_variable)
    by (vm_compute; reflexivity).
  split; [|split; [|split; [|split]]].
  - destruct (proj2 (A undef_number_index "number" ["totalNumber"])) as [k F];
      [vm_compute; reflexivity|].
    rewrite F. vm_compute in F. inversion F. reflexivity.
  - apply (B undef_number_index "number" ["totalNumber"]). vm_compute. reflexivity.
  - apply (C dated_t_index dated_stream dated_variable "number" E);
      [simpl; auto | vm_compute; reflexivity].
  - destruct (D dated_t_index dated_stream dated_variable "dataDate" E)
      as (c & G & V & DM & I);
      [simpl; auto | vm_compute; discriminate |].
    exists c. split; [exact G|].
    split; [rewrite V; vm_compute; reflexivity|].
    split; [rewrite DM; vm_compute; reflexivity|].
    apply I. vm_compute. lia.
  - destruct (D dated_t_index dated_stream dated_variable "dataTime" E)
      as (c & G & V & DM & _);
      [simpl; auto 6 | vm_compute; discriminate |].
    exists c. split; [exact G|].
    split; [rewrite V; vm_compute; reflexivity|].
    rewrite DM. vm_compute. reflexivity.
Defined.

(** ** Materialisation *)

Lemma list_eqb_nat_eq (p q : list nat) : list_eqb Nat.eqb p q = true <-> p = q.
Proof.
  revert q. induction p as [|x p IH]; destruct q as [|y q]; simpl;
    try (split; [discriminate | discriminate]); [tauto|].
  rewrite andb_true_iff, Nat.eqb_eq, IH. split.
  - intros [-> ->]. reflexivity.
  - intro E. inversion E. auto.
Qed.

Lemma at_position_iff self p item :
  at_position self p item = true <-> header_indexes_of self (fst item) = Ok p.
Proof.
  unfold at_position. destruct (header_indexes_of self (fst item)) as [q|e].
  - rewrite list_eqb_nat_eq. split; congruence.
  - split; discriminate.
Qed.

Lemma of_option_ok {A : Type} (e : exn) (o : option A) (a : A) :
  of_option e o = Ok a -> o = Some a.
Proof. destruct o; simpl; congruence. Qed.

Lemma setitem_ok data pos values data' :
  setitem data pos values = Ok data' ->
  exists row,
    broadcast_row (row_length (nd_shape data)) (map (cast (nd_dtype data)) values)
    = Ok row /\
    nd_shape data' = nd_shape data /\
    nd_dtype data' = nd_dtype data /\
    (forall p, nd_row data' p = if list_eqb Nat.eqb p pos then row else nd_row data p).
Proof.
  unfold setitem. destruct (in_bounds pos (nd_shape data)); [|discriminate].
  intro E. apply bind_ok in E. destruct E as [row [B E]].
  inversion E; subst; clear E. exists row. unfold nd_row. simpl.
  split; [exact B|]. split; [reflexivity|]. split; [reflexivity|].
  intro p. destruct (list_eqb Nat.eqb p pos); reflexivity.
Qed.

Lemma place_ok self data reads item st :
  place self (data, reads) item = Ok st ->
  nd_shape data = dv_shape self ->
  nd_dtype data = dv_dtype self ->
  exists pos off row,
    header_indexes_of self (fst item) = Ok pos /\
    hd_error (snd item) = Some off /\
    item_row self item = Ok row /\
    nd_shape (fst st) = dv_shape self /\
    nd_dtype (fst st) = dv_dtype self /\
    snd st = reads ++ [off] /\
    (forall p, nd_row (fst st) p
               = if list_eqb Nat.eqb p pos then row else nd_row data p).
Proof.
  unfold place. destruct item as [hv offs]. intros E S D.
  apply bind_ok in E. destruct E as [pos [P E]].
  apply bind_ok in E. destruct E as [off [O E]].
  apply bind_ok in E. destruct E as [msg [M E]].
  cbv beta zeta in E.
  apply bind_ok in E. destruct E as [data' [W E]].
  inversion E; subst; clear E.
  apply setitem_ok in W. destruct W as [row [B [S' [D' R]]]].
  exists pos, off, row. simpl. repeat split; try congruence.
  - now apply of_option_ok in O.
  - unfold item_row. simpl. rewrite O. simpl. rewrite M. simpl.
    now rewrite <- S, <- D.
  - exact R.
Qed.

(** The state after the loop of [build_array] over a list of items. *)
Lemma fold_place self items : forall data reads st,
  fold_result (place self) items (data, reads) = Ok st ->
  nd_shape data = dv_shape self ->
  nd_dtype data = dv_dtype self ->
  nd_shape (fst st) = dv_shape self /\
  nd_dtype (fst st) = dv_dtype self /\
  snd st = reads ++ first_offsets items /\
  (forall item, In item items -> snd item <> []) /\
  (forall p, (forall item, In item items -> at_position self p item = false) ->
             nd_row (fst st) p = nd_row data p) /\
  (forall l1 item l2 p,
     items = l1 ++ item :: l2 ->
     at_position self p item = true ->
     (forall item', In item' l2 -> at_position self p item' = false) ->
     item_row self item = Ok (nd_row (fst st) p)).
Proof.
  induction items as [|item items IH]; intros data reads st E S D.
  - simpl in E. inversion E; subst; clear E. simpl.
    split; [|split; [|split; [|split; [|split]]]].
    + assumption.
    + assumption.
    + now rewrite app_nil_r.
    + intros item I. destruct I.
    + reflexivity.
    + intros l1 item l2 p L. destruct l1; discriminate.
  - simpl in E. apply bind_ok in E. destruct E as [[data1 reads1] [P E]].
    apply place_ok in P; auto.
    destruct P as (pos & off & row & HP & HO & HR & S1 & D1 & R1 & W1).
    simpl in S1, D1, R1, W1.
    apply IH in E; auto. destruct E as (S2 & D2 & R2 & NE & U & L).
    split; [|split; [|split; [|split; [|split]]]].
    + assumption.
    + assumption.
    + rewrite R2, R1, <- app_assoc. simpl.
      destruct (snd item) as [|o os]; simpl in *; [discriminate|].
      inversion HO; subst. reflexivity.
    + intros item' [<-|I]; [|now apply NE].
      destruct (snd item); [discriminate | congruence].
    + intros p F. rewrite U by (intros item' I; apply F; now right).
      rewrite W1. specialize (F item (or_introl eq_refl)).
      unfold at_position in F. rewrite HP in F.
      destruct (list_eqb Nat.eqb p pos) eqn:X; [|reflexivity].
      apply list_eqb_nat_eq in X. subst p.
      assert (T : list_eqb Nat.eqb pos pos = true) by now apply list_eqb_nat_eq.
      congruence.
    + intros l1 item' l2 p EQ A F. destruct l1 as [|x l1]; simpl in EQ.
      * inversion EQ; subst; clear EQ.
        rewrite U by exact F. rewrite W1.
        apply at_position_iff in A. rewrite HP in A. inversion A; subst.
        replace (list_eqb Nat.eqb p p) with true
          by (symmetry; now apply list_eqb_nat_eq).
        exact HR.
      * inversion EQ; subst; clear EQ. now apply (L l1 item' l2 p).
Qed.

Lemma np_full_ok shape dt data :
  np_full shape dt = Ok data ->
  nd_shape data = shape /\ nd_dtype data = dt /\
  forall p, nd_row data p = repeat nan (row_length shape).
Proof.
  unfold np_full. destruct (forallb _ shape); [|discriminate].
  intro E. inversion E; subst. unfold nd_row. simpl. auto.
Qed.

Lemma nd_row_mask missing_value data p :
  nd_row (mask_missing missing_value data) p
  = map (mask_element missing_value) (nd_row data p).
Proof.
  unfold nd_row, mask_missing. simpl.
  induction (nd_assigned data) as [|e l IH]; simpl.
  - now rewrite map_repeat.
  - destruct (list_eqb Nat.eqb p (fst e)); [reflexivity | exact IH].
Qed.

(** [build_array], unfolded: the array is filled, the items of the index
    are placed in sorted order, and the sentinel is masked. *)
Lemma build_array_trace_ok self arr reads :
  build_array_trace self = Ok (arr, reads) ->
  exists full placed,
    np_full (dv_shape self) (dv_dtype self) = Ok full /\
    fold_result (place self) (sorted_items (offsets (dv_index self))) (full, [])
    = Ok (placed, reads) /\
    arr = mask_missing (missing_value_of self) placed.
Proof.
  unfold build_array_trace. intro E.
  apply bind_ok in E. destruct E as [full [F E]].
  apply bind_ok in E. destruct E as [[placed reads'] [P E]].
  inversion E; subst; clear E. exists full, placed. auto.
Qed.

Lemma build_array_ok self arr :
  build_array self = Ok arr -> exists reads, build_array_trace self = Ok (arr, reads).
Proof.
  unfold build_array. intro E. apply bind_ok in E. destruct E as [[a r] [T E]].
  inversion E; subst. eauto.
Qed.

Lemma insert_item_In e item l : In item (insert_item e l) <-> item = e \/ In item l.
Proof.
  induction l as [|e' l IH]; simpl.
  - intuition.
  - destruct (offsets_leb (snd e) (snd e')); simpl; [intuition|].
    rewrite IH. intuition.
Qed.

Lemma sorted_items_In item items : In item (sorted_items items) <-> In item items.
Proof.
  induction items as [|e l IH]; simpl; [tauto|].
  rewrite insert_item_In, IH. intuition.
Qed.

(** Among the items of a list placed at [p] there is a last one. *)
Lemma last_at_position self p (items : list (list value * list Z)) :
  (forall item, In item items -> at_position self p item = false) \/
  (exists l1 item l2,
     items = l1 ++ item :: l2 /\ at_position self p item = true /\
     forall item', In item' l2 -> at_position self p item' = false).
Proof.
  induction items as [|x l IH].
  - left. intros item [].
  - destruct IH as [N|(l1 & item & l2 & E & A & F)].
    + destruct (at_position self p x) eqn:X.
      * right. exists [], x, l. auto.
      * left. intros item [<-|I]; auto.
    + right. exists (x :: l1), item, l2. subst l. auto.
Qed.

Lemma SFeqb_nan x : SFeqb nan x = false.
Proof. reflexivity. Qed.

Lemma equals_scalar_nan v : equals_scalar nan v = false.
Proof. unfold equals_scalar. destruct (scalar_as_float32 v); reflexivity. Qed.

Lemma mask_element_nan v : mask_element v nan = nan.
Proof. unfold mask_element. now rewrite equals_scalar_nan. Qed.

Lemma mask_element_not_missing v x : equals_scalar (mask_element v x) v = false.
Proof.
  unfold mask_element. destruct (equals_scalar x v) eqn:E; [|exact E].
  apply equals_scalar_nan.
Qed.

Lemma broadcast_row_same n values row :
  broadcast_row n values = Ok row -> List.length values = n -> row = values.
Proof.
  unfold broadcast_row. intros E L. apply Nat.eqb_eq in L. rewrite L in E. congruence.
Qed.

(** The row of the final array at a position some item of the index is
    placed at: the masked row of the last such item in sorted order. *)
Lemma build_array_row self arr reads p :
  build_array_trace self = Ok (arr, reads) ->
  (exists item, In item (offsets (dv_index self)) /\ at_position self p item = true) ->
  exists l1 item l2 row,
    sorted_items (offsets (dv_index self)) = l1 ++ item :: l2 /\
    at_position self p item = true /\
    (forall item', In item' l2 -> at_position self p item' = false) /\
    item_row self item = Ok row /\
    nd_row arr p = map (mask_element (missing_value_of self)) row.
Proof.
  intros E [it [I A]]. apply build_array_trace_ok in E.
  destruct E as (full & placed & F & P & ->).
  apply np_full_ok in F. destruct F as [S [D _]].
  apply fold_place in P; auto. simpl in P. destruct P as (_ & _ & _ & _ & _ & L).
  destruct (last_at_position self p (sorted_items (offsets (dv_index self))))
    as [N|(l1 & item & l2 & EQ & A' & F)].
  - apply sorted_items_In in I. apply N in I. congruence.
  - exists l1, item, l2, (nd_row placed p).
    split; [exact EQ|]. split; [exact A'|]. split; [exact F|].
    split; [now apply (L l1 item l2 p) | apply nd_row_mask].
Qed.

(** C2.  Round trip: for a record of the index that is the only one
    placed at the multi-index [p], and whose payload has the length of
    the trailing dimension, the row [[p, :]] of the array [build_array]
    returns is that record's decoded payload, taken at the element type
    of the array, with every element equal to the missing-value
    sentinel replaced by NaN. *)
Theorem build_array_round_trip (self : DataVariable) (arr : ndarray)
  (header_values : list value) (bucket : list Z) (offset : Z)
  (message : Message) (p : list nat) :
  build_array self = Ok arr ->
  In (header_values, bucket) (offsets (dv_index self)) ->
  In offset bucket ->
  header_indexes_of self header_values = Ok p ->
  (forall header_values' bucket' offset',
     In (header_values', bucket') (offsets (dv_index self)) ->
     In offset' bucket' ->
     header_indexes_of self header_values' = Ok p ->
     offset' = offset) ->
  fromfile (dv_stream self) offset = Ok message ->
  List.length (msg_values message) = row_length (dv_shape self) ->
  nd_row arr p =
  map (fun x => mask_element (missing_value_of self) (cast (dv_dtype self) x))
    (msg_values message).
Proof.
  intros E I O P U M L.
  apply build_array_ok in E. destruct E as [reads E].
  destruct (build_array_row self arr reads p E)
    as (l1 & item & l2 & row & S & A & _ & R & ->).
  { exists (header_values, bucket). split; [exact I|]. now apply at_position_iff. }
  assert (J : In item (offsets (dv_index self))).
  { apply sorted_items_In. rewrite S. apply in_elt. }
  destruct item as [hv' offs']. apply at_position_iff in A. simpl in A.
  unfold item_row in R. simpl in R.
  destruct offs' as [|o os]; [discriminate|]. simpl in R.
  assert (o = offset) by (apply (U hv' (o :: os) o); simpl; auto). subst o.
  rewrite M in R. simpl in R.
  apply broadcast_row_same in R; [|now rewrite length_map].
  subst row. now rewrite map_map.
Qed.

Lemma sample_t_variable_constructed :
  attrs_post_init sample_t_index sample_stream = Ok sample_t_variable.
Proof. vm_compute. reflexivity. Qed.

Lemma build_array_round_trip_witness :
  nd_row (built (build_array sample_t_variable)) [1%nat] =
  map (fun x => mask_element (missing_value_of sample_t_variable)
                  (cast (dv_dtype sample_t_variable) x))
    (msg_values (sample_message 100 130 "t" 1 [3; 9999]%Z)).
Proof.
  apply (build_array_round_trip sample_t_variable
           (built (build_array sample_t_variable))
           (header_values_of ALL_KEYS (sample_message 100 130 "t" 1 [3; 9999]%Z))
           [100%Z] 100%Z (sample_message 100 130 "t" 1 [3; 9999]%Z) [1%nat]).
  - vm_compute. reflexivity.
  - vm_compute. auto.
  - simpl. auto.
  - vm_compute. reflexivity.
  - intros hv' b' o' I O P. vm_compute in I.
    destruct I as [I|[I|[]]]; injection I as <- <-.
    + vm_compute in P. discriminate.
    + destruct O as [<-|[]]. reflexivity.
  - vm_compute. reflexivity.
  - vm_compute. reflexivity.
Defined.

(** The claim C2 as it is written fails in two ways.  A record on a
    grid of one point, the only one of its variable, is placed at the
    multi-index [()] of an array whose rows hold two values: the row is
    not the payload, which holds one.  And a decoded value that is not
    the sentinel, but which the element type of the array cannot tell
    from it, is NaN in the array. *)
Lemma round_trip_is_not_the_payload :
  let point := point_message 100 131 "u" 7 in
  let arr := built (build_array mixed_grid_variable) in
  let arr' := built (build_array rounded_variable) in
  (build_array mixed_grid_variable = Ok arr /\
   offsets (dv_index mixed_grid_variable)
   = [(header_values_of ALL_KEYS point, [100%Z])] /\
   header_indexes_of mixed_grid_variable (header_values_of ALL_KEYS point) = Ok [] /\
   fromfile (dv_stream mixed_grid_variable) 100 = Ok point /\
   List.length (msg_values point) = 1%nat /\
   List.length (nd_row arr []) = 2%nat) /\
  (build_array rounded_variable = Ok arr' /\
   offsets (dv_index rounded_variable)
   = [(header_values_of ALL_KEYS rounded_message, [0%Z])] /\
   header_indexes_of rounded_variable (header_values_of ALL_KEYS rounded_message)
   = Ok [] /\
   fromfile (dv_stream rounded_variable) 0 = Ok rounded_message /\
   missing_value_of rounded_variable = VInt 9999 /\
   nth_error (msg_values rounded_message) 0 = Some near_sentinel /\
   SFeqb near_sentinel (double_of_Z 9999) = false /\
   nth_error (nd_row arr' []) 0 = Some nan).
Proof.
  cbv zeta. repeat split; vm_compute; reflexivity.
Qed.

Lemma at_position_false_iff self p item :
  at_position self p item = false <-> header_indexes_of self (fst item) <> Ok p.
Proof.
  rewrite <- at_position_iff. destruct (at_position self p item); split;
    congruence.
Qed.

Lemma map_mask_nan v n : map (mask_element v) (repeat nan n) = repeat nan n.
Proof. rewrite map_repeat. now rewrite mask_element_nan. Qed.

(** C3.  In the array [build_array] returns, a row no item of the index
    is placed at holds NaN only; the array is the one obtained by
    placing all records and then rewriting to NaN every element equal
    to the [missingValue] attribute of the variable, or to 9999 when it
    has none, so that no element equal to it is left; and the element
    type is [float32]. *)
Theorem build_array_fill_and_mask (index : Index) (stream : Stream)
  (self : DataVariable) (arr : ndarray) :
  attrs_post_init index stream = Ok self ->
  build_array self = Ok arr ->
  let missing_value :=
    match od_get "missingValue" (dv_attributes self) with
    | Some v => v
    | None => VInt 9999
    end in
  (forall p,
     (forall item, In item (offsets (dv_index self)) ->
                   header_indexes_of self (fst item) <> Ok p) ->
     nd_row arr p = repeat nan (row_length (dv_shape self))) /\
  (exists full placed reads,
     np_full (dv_shape self) (dv_dtype self) = Ok full /\
     fold_result (place self) (sorted_items (offsets (dv_index self))) (full, [])
     = Ok (placed, reads) /\
     forall p, nd_row arr p
               = map (fun x => if equals_scalar x missing_value then nan else x)
                   (nd_row placed p)) /\
  (forall p x, In x (nd_row arr p) -> equals_scalar x missing_value = false) /\
  nd_dtype arr = Float32.
Proof.
  intros C B missing_value.
  apply attrs_post_init_ok in C.
  destruct C as (leader & attributes & grid_type & spatial & coordinates & sizes & n
                 & _ & _ & _ & _ & _ & _ & _ & _ & _ & DT & _).
  apply build_array_ok in B. destruct B as [reads B].
  apply build_array_trace_ok in B. destruct B as (full & placed & F & P & ->).
  pose proof (np_full_ok _ _ _ F) as (S & D & R).
  pose proof (fold_place _ _ _ _ _ P S D) as (S' & D' & _ & _ & U & _).
  simpl in S', D', U.
  assert (M : forall p, nd_row (mask_missing (missing_value_of self) placed) p
                        = map (mask_element missing_value) (nd_row placed p))
    by (intro p; exact (nd_row_mask (missing_value_of self) placed p)).
  split; [|split; [|split]].
  - intros p N. rewrite M, U, R; [apply map_mask_nan|].
    intros item I. apply at_position_false_iff. apply N. now apply sorted_items_In.
  - exists full, placed, reads. split; [exact F|]. split; [exact P|]. exact M.
  - intros p x I. rewrite M in I. apply in_map_iff in I.
    destruct I as [y [<- _]]. apply mask_element_not_missing.
  - simpl. congruence.
Qed.

Lemma sample_t_array_built :
  build_array sample_t_variable = Ok (built (build_array sample_t_variable)).
Proof. vm_compute. reflexivity. Qed.

Lemma build_array_fill_and_mask_witness :
  nd_row (built (build_array sample_t_variable)) [5%nat]
  = repeat nan (row_length (dv_shape sample_t_variable)) /\
  nd_dtype (built (build_array sample_t_variable)) = Float32.
Proof.
  destruct (build_array_fill_and_mask sample_t_index sample_stream sample_t_variable
              (built (build_array sample_t_variable))
              sample_t_variable_constructed sample_t_array_built)
    as [U [_ [_ D]]].
  split; [|exact D].
  apply U. intros item I. vm_compute in I.
  destruct I as [<-|[<-|[]]]; vm_compute; discriminate.
Defined.

(** *** The order of the visits *)

Lemma offsets_leb_total a b : offsets_leb a b = false -> offsets_leb b a = true.
Proof.
  revert b. induction a as [|x a IH]; destruct b as [|y b]; simpl; auto;
    try discriminate.
  destruct (x <? y)%Z eqn:XY; [discriminate|].
  destruct (y <? x)%Z eqn:YX; [reflexivity|]. apply IH.
Qed.

Lemma insert_item_sorted e l :
  Sorted offsets_le l -> Sorted offsets_le (insert_item e l).
Proof.
  induction 1 as [|x l S IH H]; simpl.
  - repeat constructor.
  - destruct (offsets_leb (snd e) (snd x)) eqn:L.
    + constructor; [constructor; assumption|]. constructor. exact L.
    + constructor; [exact IH|].
      apply offsets_leb_total in L.
      destruct l as [|y l]; simpl.
      * constructor. exact L.
      * destruct (offsets_leb (snd e) (snd y)); constructor; auto.
        inversion H; assumption.
Qed.

Lemma sorted_items_sorted items : Sorted offsets_le (sorted_items items).
Proof.
  induction items as [|e l IH]; simpl; [constructor|].
  now apply insert_item_sorted.
Qed.

Lemma insert_item_perm e l : Permutation (e :: l) (insert_item e l).
Proof.
  induction l as [|x l IH]; simpl; [reflexivity|].
  destruct (offsets_leb (snd e) (snd x)); [reflexivity|].
  rewrite perm_swap. now constructor.
Qed.

Lemma sorted_items_perm items : Permutation items (sorted_items items).
Proof.
  induction items as [|e l IH]; simpl; [constructor|].
  rewrite <- insert_item_perm. now constructor.
Qed.

Lemma offsets_leb_head x a y b : offsets_leb (x :: a) (y :: b) = true -> (x <= y)%Z.
Proof.
  simpl. destruct (x <? y)%Z eqn:XY; [lia|].
  destruct (y <? x)%Z eqn:YX; [discriminate|]. lia.
Qed.

Lemma first_offsets_sorted items :
  Sorted offsets_le items ->
  (forall item, In item items -> snd item <> []) ->
  Sorted Z.le (first_offsets items).
Proof.
  induction 1 as [|x l S IH H]; intro NE; simpl; [constructor|].
  assert (NX := NE x (or_introl eq_refl)).
  destruct x as [hx [|ox osx]]; [now elim NX|]. simpl.
  constructor; [apply IH; intros item I; apply NE; now right|].
  destruct l as [|y l]; simpl; [constructor|].
  assert (NY := NE y (or_intror (or_introl eq_refl))).
  destruct y as [hy [|oy osy]]; [now elim NY|]. simpl.
  constructor. inversion H as [|? ? L]; subst.
  unfold offsets_le in L. simpl in L. now apply (offsets_leb_head ox osx oy osy).
Qed.

Lemma build_array_trace_reads self arr reads :
  build_array_trace self = Ok (arr, reads) ->
  reads = first_offsets (sorted_items (offsets (dv_index self))) /\
  forall item, In item (offsets (dv_index self)) -> snd item <> [].
Proof.
  intro E. apply build_array_trace_ok in E.
  destruct E as (full & placed & F & P & _).
  apply np_full_ok in F. destruct F as (S & D & _).
  apply fold_place in P; auto. simpl in P.
  destruct P as (_ & _ & R & NE & _). split; [exact R|].
  intros item I. apply NE. now apply sorted_items_In.
Qed.

Lemma sorted_before (l1 l2 : list Z) (x y : Z) :
  Sorted Z.le (l1 ++ x :: l2) -> In y l1 -> (y <= x)%Z.
Proof.
  intro S. apply Sorted_StronglySorted in S; [|exact Z.le_trans].
  induction l1 as [|a l1 IH]; simpl in *; [intros []|].
  inversion S as [|? ? S' F]; subst. intros [<-|I]; [|now apply IH].
  rewrite Forall_forall in F. apply F. apply in_elt.
Qed.

Lemma item_row_ok self item row :
  item_row self item = Ok row ->
  exists offset rest message,
    snd item = offset :: rest /\
    fromfile (dv_stream self) offset = Ok message /\
    broadcast_row (row_length (dv_shape self))
      (map (cast (dv_dtype self)) (msg_values message)) = Ok row.
Proof.
  unfold item_row. intro E.
  apply bind_ok in E. destruct E as [offset [O E]].
  apply bind_ok in E. destruct E as [message [M E]].
  apply of_option_ok in O.
  destruct (snd item) as [|o rest]; simpl in O; [discriminate|].
  inversion O; subst o. exists offset, rest, message. auto.
Qed.

(** C8, as the code has it.  [build_array] visits the items of the
    index, one per header tuple, in the order [sorted] gives them by
    their lists of offsets; it decodes the first offset of each, and
    these offsets ascend along the visits.  Of the items placed at one
    multi-index the last visited is the one left in the array: the row
    is the payload of the record at the first offset of its list, no
    offset decoded for an item visited before it is larger, and
    nothing is raised for the others. *)
Theorem build_array_visit_order (self : DataVariable) (arr : ndarray)
  (reads : list Z) :
  build_array_trace self = Ok (arr, reads) ->
  let visited := sorted_items (offsets (dv_index self)) in
  Permutation (offsets (dv_index self)) visited /\
  Sorted offsets_le visited /\
  reads = first_offsets visited /\
  Sorted Z.le reads /\
  forall earlier item later p,
    visited = earlier ++ item :: later ->
    header_indexes_of self (fst item) = Ok p ->
    (forall item', In item' later -> header_indexes_of self (fst item') <> Ok p) ->
    exists offset rest message row,
      snd item = offset :: rest /\
      fromfile (dv_stream self) offset = Ok message /\
      broadcast_row (row_length (dv_shape self))
        (map (cast (dv_dtype self)) (msg_values message)) = Ok row /\
      nd_row arr p = map (mask_element (missing_value_of self)) row /\
      forall item' offset' rest',
        In item' earlier -> snd item' = offset' :: rest' -> (offset' <= offset)%Z.
Proof.
  intros E visited.
  destruct (build_array_trace_reads self arr reads E) as [R NE].
  assert (SR : Sorted Z.le reads).
  { rewrite R. apply first_offsets_sorted; [apply sorted_items_sorted|].
    intros item I. apply NE. now apply sorted_items_In. }
  split; [apply sorted_items_perm|]. split; [apply sorted_items_sorted|].
  split; [exact R|]. split; [exact SR|].
  intros earlier item later p V A F.
  destruct (build_array_row self arr reads p E)
    as (l1 & item' & l2 & row & S & A' & F' & IR & NR).
  { exists item. split.
    - apply sorted_items_In. fold visited. rewrite V. apply in_elt.
    - now apply at_position_iff. }
  assert (l2 = later /\ item' = item) as [-> ->].
  { fold visited in S. rewrite V in S. clear - S A A' F F'.
    apply at_position_iff in A.
    revert l1 S. induction earlier as [|x earlier IH]; intros l1 S.
    - destruct l1 as [|y l1]; simpl in S.
      + inversion S. auto.
      + inversion S; subst. exfalso.
        assert (I : In item' (l1 ++ item' :: l2)) by apply in_elt.
        apply F in I. apply at_position_iff in A'. contradiction.
    - destruct l1 as [|y l1]; simpl in S.
      + inversion S; subst. exfalso.
        assert (I : In item (earlier ++ item :: later)) by apply in_elt.
        apply F' in I. congruence.
      + inversion S; subst. now apply (IH l1). }
  apply item_row_ok in IR. destruct IR as (offset & rest & message & SN & FF & BR).
  exists offset, rest, message, row.
  split; [exact SN|]. split; [exact FF|]. split; [exact BR|]. split; [exact NR|].
  intros it offset' rest' I SN'.
  apply (sorted_before (first_offsets earlier) (first_offsets later)).
  - replace (first_offsets earlier ++ offset :: first_offsets later)
      with (first_offsets visited); [rewrite R in SR; exact SR|].
    rewrite V. unfold first_offsets. rewrite flat_map_app. simpl.
    rewrite SN. reflexivity.
  - unfold first_offsets. apply in_flat_map. exists it.
    split; [exact I|]. rewrite SN'. now left.
Qed.

Lemma build_array_visit_order_witness :
  let first := edition_message 0 1 [1; 2]%Z in
  let second := edition_message 100 2 [3; 4]%Z in
  let arr := fst (constructed_trace (build_array_trace editions_variable)) in
  [0; 100]%Z = first_offsets (sorted_items (offsets (dv_index editions_variable))) /\
  Sorted Z.le [0; 100]%Z /\
  header_indexes_of editions_variable (header_values_of ALL_KEYS first) = Ok [] /\
  header_indexes_of editions_variable (header_values_of ALL_KEYS second) = Ok [] /\
  nd_row arr []
  = map (fun x => mask_element (missing_value_of editions_variable)
                    (cast (dv_dtype editions_variable) x)) (msg_values second).
Proof.
  cbv zeta.
  destruct (build_array_visit_order editions_variable
              (fst (constructed_trace (build_array_trace editions_variable)))
              [0; 100]%Z) as (_ & _ & R & S & L).
  - vm_compute. reflexivity.
  - split; [exact R|]. split; [exact S|].
    split; [vm_compute; reflexivity|]. split; [vm_compute; reflexivity|].
    destruct (L [(header_values_of ALL_KEYS (edition_message 0 1 [1; 2]%Z), [0%Z])]
                (header_values_of ALL_KEYS (edition_message 100 2 [3; 4]%Z), [100%Z])
                [] [])
      as (offset & rest & message & row & SN & FF & BR & NR & _).
    + vm_compute. reflexivity.
    + vm_compute. reflexivity.
    + intros item' [].
    + rewrite NR. simpl in SN. injection SN as <- <-.
      vm_compute in FF. injection FF as <-.
      vm_compute in BR. injection BR as <-.
      vm_compute. reflexivity.
Defined.

(** The claim C8 as it is written fails for two records that share a
    bucket: both are placed at the same multi-index, the array keeps the
    payload of the record at the smaller offset, and the record at the
    larger offset is not the one left in the array. *)
Lemma larger_offset_duplicate_is_not_kept :
  let first := sample_message 0 130 "t" 0 [1; 2]%Z in
  let second := sample_message 100 130 "t" 0 [3; 4]%Z in
  let arr := built (build_array duplicate_variable) in
  let kept m :=
    map (fun x => mask_element (missing_value_of duplicate_variable)
                    (cast (dv_dtype duplicate_variable) x)) (msg_values m) in
  attrs_post_init duplicate_index duplicate_stream = Ok duplicate_variable /\
  build_array duplicate_variable = Ok arr /\
  offsets (dv_index duplicate_variable)
  = [(header_values_of ALL_KEYS first, [0; 100]%Z)] /\
  header_values_of ALL_KEYS second = header_values_of ALL_KEYS first /\
  header_indexes_of duplicate_variable (header_values_of ALL_KEYS first) = Ok [] /\
  fromfile (dv_stream duplicate_variable) 0 = Ok first /\
  fromfile (dv_stream duplicate_variable) 100 = Ok second /\
  nd_row arr [] = kept first /\
  nd_row arr [] <> kept second.
Proof.
  cbv zeta. repeat split; try (vm_compute; reflexivity).
  vm_compute. discriminate.
Qed.

Lemma NoDup_app_disjoint {A : Type} (l1 l2 : list A) (x : A) :
  NoDup (l1 ++ l2) -> In x l1 -> In x l2 -> False.
Proof.
  induction l1 as [|y l1 IH]; simpl; intros N I1 I2; [contradiction|].
  inversion N as [|? ? NI N']; subst. destruct I1 as [->|I1].
  - apply NI. apply in_or_app. now right.
  - now apply IH.
Qed.

Lemma NoDup_app_left {A : Type} (l1 l2 : list A) : NoDup (l1 ++ l2) -> NoDup l1.
Proof.
  induction l1 as [|y l1 IH]; simpl; intro N; [constructor|].
  inversion N as [|? ? NI N']; subst. constructor; auto.
  intro I. apply NI. apply in_or_app. now left.
Qed.

Lemma NoDup_app_right {A : Type} (l1 l2 : list A) : NoDup (l1 ++ l2) -> NoDup l2.
Proof.
  induction l1 as [|y l1 IH]; simpl; intro N; [exact N|].
  inversion N; subst. auto.
Qed.

(** When every offset occurs once in the index, a bucket has no repeated
    offset and an offset determines its bucket. *)
Lemma offsets_once (buckets : list (list value * list Z)) :
  NoDup (flat_map snd buckets) ->
  forall a, In a buckets ->
    NoDup (snd a) /\
    forall b x, In b buckets -> In x (snd a) -> In x (snd b) -> a = b.
Proof.
  induction buckets as [|c l IH]; simpl; intros N a Ia; [contradiction|].
  pose proof (NoDup_app_left _ _ N) as Nc.
  pose proof (NoDup_app_right _ _ N) as Nl.
  assert (X : forall b x, In b l -> In x (snd c) -> In x (snd b) -> False).
  { intros b x Ib Ic Ix. apply (NoDup_app_disjoint _ _ x N Ic).
    apply in_flat_map. exists b. auto. }
  destruct Ia as [<-|Ia].
  - split; [exact Nc|]. intros b x [<-|Ib] I1 I2; [reflexivity|].
    exfalso. now apply (X b x).
  - destruct (IH Nl a Ia) as [Na U]. split; [exact Na|].
    intros b x [<-|Ib] I1 I2; [|now apply (U b x)].
    exfalso. now apply (X a x).
Qed.

Lemma first_offsets_In (items : list (list value * list Z)) (x : Z) :
  In x (first_offsets items) <->
  exists hv rest, In (hv, x :: rest) items.
Proof.
  unfold first_offsets. rewrite in_flat_map. split.
  - intros [[hv [|o os]] [I J]]; simpl in J; [contradiction|].
    destruct J as [<-|[]]. eauto.
  - intros [hv [rest I]]. exists (hv, x :: rest). simpl. auto.
Qed.

(** *** The invariant of the index

    Every offset of the stream occurs once in the index built from it,
    and in every sub-index at most once. *)

Lemma bucket_append_offsets hv off buckets :
  Permutation (flat_map snd (bucket_append hv off buckets))
    (off :: flat_map snd buckets).
Proof.
  induction buckets as [|[hv' offs] rest IH]; simpl; [reflexivity|].
  destruct (list_eqb value_eqb hv hv'); simpl.
  - rewrite <- app_assoc. simpl. symmetry. apply Permutation_middle.
  - rewrite IH. symmetry. apply Permutation_middle.
Qed.

Lemma stream_index_offsets stream keys :
  Permutation (flat_map snd (offsets (stream_index stream keys)))
    (map msg_offset (stream_messages stream)).
Proof.
  unfold stream_index. simpl.
  assert (G : forall messages acc,
             Permutation
               (flat_map snd
                  (fold_left (fun acc m => bucket_append (header_values_of keys m)
                                             (msg_offset m) acc) messages acc))
               (flat_map snd acc ++ map msg_offset messages)).
  { induction messages as [|m messages IH]; intro acc; simpl.
    - now rewrite app_nil_r.
    - rewrite IH, bucket_append_offsets. simpl. apply Permutation_middle. }
  apply (G (stream_messages stream) []).
Qed.

Lemma filter_offsets_NoDup (p : list value * list Z -> bool) buckets :
  NoDup (flat_map snd buckets) -> NoDup (flat_map snd (filter p buckets)).
Proof.
  induction buckets as [|b l IH]; simpl; intro N; [constructor|].
  pose proof (NoDup_app_right _ _ N) as Nl.
  destruct (p b); simpl; [|auto].
  clear - N IH Nl. induction (snd b) as [|x xs IHx]; simpl in *; [auto|].
  inversion N as [|? ? NI N']; subst. constructor; [|auto].
  intro I. apply NI. apply in_app_or in I. apply in_or_app.
  destruct I as [I|I]; [now left|right].
  apply in_flat_map in I. destruct I as [c [Ic Ix]].
  apply filter_In in Ic. apply in_flat_map. exists c. tauto.
Qed.

Lemma subindex_offsets_once stream keys key v :
  NoDup (map msg_offset (stream_messages stream)) ->
  NoDup (flat_map snd (offsets (subindex (stream_index stream keys) key v))).
Proof.
  intro N. unfold subindex. cbn [offsets].
  destruct (list_index String.eqb key (index_keys (stream_index stream keys)));
    [|constructor].
  apply filter_offsets_NoDup.
  apply (Permutation_NoDup (Permutation_sym (stream_index_offsets stream keys)) N).
Qed.

(** *** The values the index reports are distinct *)

Lemma add_distinct_In acc v x :
  In x (add_distinct acc v) <-> In x acc \/ x = v.
Proof.
  unfold add_distinct. destruct (existsb (value_eqb v) acc) eqn:E.
  - split; [auto|]. intros [I | ->]; [exact I|].
    apply existsb_exists in E. destruct E as [y [I Ey]].
    apply value_eqb_eq in Ey. now subst.
  - rewrite in_app_iff. simpl. intuition.
Qed.

Lemma add_distinct_NoDup acc v : NoDup acc -> NoDup (add_distinct acc v).
Proof.
  unfold add_distinct. intro N. destruct (existsb (value_eqb v) acc) eqn:E; [exact N|].
  assert (NI : ~ In v acc).
  { intro I. assert (X : existsb (value_eqb v) acc = true).
    { apply existsb_exists. exists v. split; [exact I | apply value_eqb_refl]. }
    congruence. }
  clear E. induction N as [|y l Ny N IH]; simpl.
  - repeat constructor. intros [].
  - constructor.
    + rewrite in_app_iff. simpl. intros [I | [-> | []]]; [contradiction|].
      apply NI. now left.
    + apply IH. intro I. apply NI. now right.
Qed.

Lemma distinct_values_spec l :
  NoDup (distinct_values l) /\ forall x, In x (distinct_values l) <-> In x l.
Proof.
  unfold distinct_values.
  assert (G : forall l acc, NoDup acc ->
             NoDup (fold_left add_distinct l acc) /\
             forall x, In x (fold_left add_distinct l acc) <-> In x acc \/ In x l).
  { clear l. induction l as [|v l IH]; intros acc N; simpl.
    - split; [exact N|]. intuition.
    - destruct (IH (add_distinct acc v) (add_distinct_NoDup acc v N)) as [N' I'].
      split; [exact N'|]. intro x. rewrite I', add_distinct_In. intuition. }
  destruct (G l [] (NoDup_nil _)) as [N I]. split; [exact N|].
  intro x. rewrite I. simpl. intuition.
Qed.

Lemma getitem_NoDup index key : NoDup (getitem index key).
Proof.
  unfold getitem. destruct (list_index String.eqb key (index_keys index));
    [apply distinct_values_spec | constructor].
Qed.

(** C10.  For a bucket of the index that holds two or more offsets,
    [build_array] decodes the record at the first offset and none of the
    others; and where no other bucket is placed at the same multi-index,
    the row of the array is the payload of that first record. *)
Theorem build_array_first_offset_only (self : DataVariable) (arr : ndarray)
  (reads : list Z) :
  build_array_trace self = Ok (arr, reads) ->
  NoDup (flat_map snd (offsets (dv_index self))) ->
  forall header_values first second rest,
    In (header_values, first :: second :: rest) (offsets (dv_index self)) ->
    In first reads /\
    (forall offset, In offset (second :: rest) -> ~ In offset reads) /\
    (forall p,
       header_indexes_of self header_values = Ok p ->
       (forall item, In item (offsets (dv_index self)) ->
                     header_indexes_of self (fst item) = Ok p ->
                     item = (header_values, first :: second :: rest)) ->
       exists message row,
         fromfile (dv_stream self) first = Ok message /\
         broadcast_row (row_length (dv_shape self))
           (map (cast (dv_dtype self)) (msg_values message)) = Ok row /\
         nd_row arr p = map (mask_element (missing_value_of self)) row).
Proof.
  intros E N hv first second rest I.
  destruct (build_array_trace_reads self arr reads E) as [R _].
  split; [|split].
  - rewrite R. apply first_offsets_In. exists hv, (second :: rest).
    now apply sorted_items_In.
  - intros offset O J. rewrite R in J. apply first_offsets_In in J.
    destruct J as [hv' [rest' J]]. apply (proj1 (sorted_items_In _ _)) in J.
    destruct (offsets_once _ N _ I) as [ND U]. simpl in ND, U.
    assert (EQ : (hv, first :: second :: rest) = (hv', offset :: rest')).
    { apply (U _ offset J); [right; exact O | simpl; auto]. }
    inversion EQ; subst. inversion ND as [|? ? NI _]. now apply NI.
  - intros p P U.
    destruct (build_array_row self arr reads p E)
      as (l1 & item & l2 & row & S & A & _ & IR & NR).
    { exists (hv, first :: second :: rest). split; [exact I|].
      now apply at_position_iff. }
    assert (J : In item (offsets (dv_index self))).
    { apply sorted_items_In. rewrite S. apply in_elt. }
    apply at_position_iff in A. rewrite (U item J A) in IR.
    unfold item_row in IR. simpl in IR.
    destruct (fromfile (dv_stream self) first) as [message|e];
      simpl in IR; [|discriminate].
    exists message, row. auto.
Qed.

Lemma duplicate_trace_built :
  build_array_trace duplicate_variable
  = Ok (built (build_array duplicate_variable), [0%Z]).
Proof. vm_compute. reflexivity. Qed.

Lemma build_array_first_offset_only_witness :
  In 0%Z [0%Z] /\ ~ In 100%Z [0%Z].
Proof.
  destruct (build_array_first_offset_only duplicate_variable
              (built (build_array duplicate_variable)) [0%Z]
              duplicate_trace_built) with
    (header_values := header_values_of ALL_KEYS (sample_message 0 130 "t" 0 [1; 2]%Z))
    (first := 0%Z) (second := 100%Z) (rest := @nil Z) as (F & O & _).
  - vm_compute. repeat constructor; simpl; intuition discriminate.
  - vm_compute. auto.
  - split; [exact F|]. apply O. simpl. auto.
Defined.

(** ** The cached [data] property *)



(** ** The dataset builder *)

Section DictMergeFacts.
Context {K V : Type} `{Key K}.
Hypothesis key_ok : forall a b : K, key_eqb a b = true <-> a = b.
Variable value_eq : V -> V -> bool.

Lemma od_get_some_In (k : K) (v : V) (d : odict K V) :
  od_get k d = Some v -> In k (od_keys d).
Proof.
  induction d as [|[k' v'] d IH]; simpl; [discriminate|].
  destruct (key_eqb k k') eqn:E.
  - apply key_ok in E. auto.
  - auto.
Qed.

(** The outcome of [dict_merge] for an update without repeated keys. *)
Lemma dict_merge_spec (update master : odict K V) :
  NoDup (od_keys update) ->
  match dict_merge value_eq master update with
  | (master', None) =>
      (forall k v v', od_get k master = Some v' -> od_get k update = Some v ->
                      value_eq v' v = true) /\
      (forall k, od_get k master'
                 = match od_get k master with
                   | Some v' => Some v'
                   | None => od_get k update
                   end)
  | (_, Some key) =>
      exists v v', od_get key update = Some v /\ od_get key master = Some v' /\
                   value_eq v' v = false
  end.
Proof.
  revert master. induction update as [|[k0 v0] rest IH]; intros master N.
  - simpl. split; [discriminate|]. intro k. destruct (od_get k master); reflexivity.
  - simpl in N. inversion N as [|? ? NI NR]; subst. simpl.
    destruct (od_get k0 master) as [v0'|] eqn:G0.
    + destruct (value_eq v0' v0) eqn:E0.
      * specialize (IH master NR).
        destruct (dict_merge value_eq master rest) as [master' [key|]].
        -- destruct IH as (v & v' & GU & GM & E).
           exists v, v'. split; [|auto].
           rewrite (key_eqb_neq key_ok); auto. intros ->.
           apply od_get_some_In in GU. contradiction.
        -- destruct IH as [C L]. split.
           ++ intros k v v' GM GU. destruct (key_eqb k k0) eqn:EK.
              ** apply key_ok in EK. subst k. congruence.
              ** now apply (C k).
           ++ intro k. rewrite L. destruct (od_get k master) eqn:GM; [reflexivity|].
              destruct (key_eqb k k0) eqn:EK; [|reflexivity].
              apply key_ok in EK. subst k. congruence.
      * exists v0, v0'. rewrite (key_eqb_refl key_ok); auto.
    + specialize (IH (od_set k0 v0 master) NR).
      destruct (dict_merge value_eq (od_set k0 v0 master) rest) as [master' [key|]].
      * destruct IH as (v & v' & GU & GM & E).
        assert (NK : key <> k0)
          by (intros ->; apply od_get_some_In in GU; contradiction).
        exists v, v'. rewrite (key_eqb_neq key_ok) by exact NK.
        rewrite (od_get_set_other key_ok) in GM by exact NK. auto.
      * destruct IH as [C L]. split.
        -- intros k v v' GM GU. destruct (key_eqb k k0) eqn:EK.
           ++ apply key_ok in EK. subst k. congruence.
           ++ apply (C k); auto. rewrite (od_get_set_other key_ok); auto.
              intros ->. rewrite (key_eqb_refl key_ok) in EK. discriminate.
        -- intro k. rewrite L. destruct (key_eqb k k0) eqn:EK.
           ++ apply key_ok in EK. subst k.
              rewrite (od_get_set_same key_ok), G0. reflexivity.
           ++ rewrite (od_get_set_other key_ok); [reflexivity|].
              intros ->. rewrite (key_eqb_refl key_ok) in EK. discriminate.
Qed.
End DictMergeFacts.

Section OrderedDictKeys.
Context {K V : Type} `{Key K}.
Hypothesis key_ok : forall a b : K, key_eqb a b = true <-> a = b.

Lemma od_set_keys_In (x k : K) (v : V) (d : odict K V) :
  In x (od_keys (od_set k v d)) -> x = k \/ In x (od_keys d).
Proof.
  induction d as [|[k' v'] d IH]; simpl.
  - intros [<-|[]]. now left.
  - destruct (key_eqb k k'); simpl; [tauto|].
    intros [<-|I]; [tauto|]. apply IH in I. tauto.
Qed.

Lemma od_set_keys_NoDup (k : K) (v : V) (d : odict K V) :
  NoDup (od_keys d) -> NoDup (od_keys (od_set k v d)).
Proof.
  induction d as [|[k' v'] d IH]; simpl; intro N.
  - repeat constructor. intros [].
  - inversion N as [|? ? NI N']; subst.
    destruct (key_eqb k k') eqn:E; simpl; [exact N|].
    constructor; [|now apply IH].
    intro I. apply od_set_keys_In in I. destruct I as [->|I]; [|contradiction].
    rewrite (key_eqb_refl key_ok) in E. discriminate.
Qed.

Lemma od_update_keys_NoDup (u d : odict K V) :
  NoDup (od_keys d) -> NoDup (od_keys (od_update d u)).
Proof.
  unfold od_update. revert d. induction u as [|[k v] u IH]; simpl; intros d N;
    [exact N|]. apply IH. now apply od_set_keys_NoDup.
Qed.

Lemma od_of_list_keys_NoDup (pairs : list (K * V)) :
  NoDup (od_keys (od_of_list pairs)).
Proof. apply od_update_keys_NoDup. constructor. Qed.
End OrderedDictKeys.

Lemma raise_conflict_ok {A K : Type} (show : K -> string) (r : A * option K) (a : A) :
  raise_conflict show r = Ok a -> r = (a, None).
Proof. destruct r as [a' [k|]]; simpl; congruence. Qed.

(** Merging the dimensions of a variable into the dataset: what was
    there stays, and the sizes of the variable are recorded. *)
Lemma merge_dims (dimensions dims dimensions' : odict string Z) :
  NoDup (od_keys dims) ->
  raise_conflict (fun k => k) (dict_merge Z.eqb dimensions dims) = Ok dimensions' ->
  (forall d n, od_get d dimensions = Some n -> od_get d dimensions' = Some n) /\
  (forall d n, od_get d dims = Some n -> od_get d dimensions' = Some n).
Proof.
  intros N E. apply raise_conflict_ok in E.
  pose proof (dict_merge_spec string_key_eq Z.eqb dims dimensions N) as S.
  rewrite E in S. destruct S as [C L]. split.
  - intros d n G. now rewrite L, G.
  - intros d n G. rewrite L. destruct (od_get d dimensions) as [n'|] eqn:G'; [|exact G].
    specialize (C d n n' G' G). apply Z.eqb_eq in C. now subst.
Qed.

Lemma components_loop_dims stream index pairs : forall dimensions variables result,
  components_loop stream index pairs dimensions variables = Ok result ->
  (forall d n, od_get d dimensions = Some n -> od_get d (fst result) = Some n) /\
  (forall param_id short_name, In (param_id, short_name) pairs ->
     exists var,
       attrs_post_init (subindex index "paramId" param_id) stream = Ok var /\
       forall d n, od_get d (variable_dims var) = Some n ->
                   od_get d (fst result) = Some n).
Proof.
  induction pairs as [|[p s] rest IH]; intros dimensions variables result E.
  - simpl in E. inversion E; subst. simpl. split; [auto|]. intros ? ? [].
  - simpl in E. apply bind_ok in E. destruct E as [var [C E]]. cbv zeta in E.
    apply bind_ok in E. destruct E as [dimensions' [MD E]].
    apply bind_ok in E. destruct E as [variables' [MV E]].
    apply merge_dims in MD; [|apply (od_of_list_keys_NoDup string_key_eq)].
    destruct MD as [Keep New].
    apply IH in E. destruct E as [Keep' Rest]. split.
    + intros d n G. apply Keep', Keep, G.
    + intros param_id short_name [EQ|I].
      * inversion EQ; subst. exists var. split; [exact C|].
        intros d n G. apply Keep', New, G.
      * now apply (Rest param_id short_name).
Qed.

Lemma build_dataset_components_dims VERSION stream keys dimensions variables attributes :
  build_dataset_components VERSION stream keys = Ok (dimensions, variables, attributes) ->
  forall param_id short_name,
    In (param_id, short_name) (variable_pairs stream) ->
    exists var,
      variable_of stream param_id = Ok var /\
      forall d n, od_get d (variable_dims var) = Some n -> od_get d dimensions = Some n.
Proof.
  unfold build_dataset_components. intro E. cbv zeta in E.
  apply bind_ok in E. destruct E as [[dims vars] [L E]].
  apply bind_ok in E. destruct E as [attrs [A E]].
  inversion E; subst; clear E.
  apply components_loop_dims in L. destruct L as [_ L]. exact L.
Qed.

(** C5.  [dict_merge] on an update without repeated keys: when it
    returns, every key that was present keeps its value, its new value
    being equal, and every other key of the update is inserted; it
    raises on a key that is present with a different value.  Hence a
    dataset that is built records, for every dimension of every
    variable, the size that variable declares, and two variables that
    declare one dimension with different sizes make the build fail. *)
Theorem dict_merge_first_writer_wins :
  (forall (master update : odict string Z),
     NoDup (od_keys update) ->
     match dict_merge Z.eqb master update with
     | (master', None) =>
         (forall k v v', od_get k master = Some v' -> od_get k update = Some v ->
                         v' = v) /\
         (forall k, od_get k master'
                    = match od_get k master with
                      | Some v' => Some v'
                      | None => od_get k update
                      end)
     | (_, Some key) =>
         exists v v', od_get key update = Some v /\ od_get key master = Some v' /\
                      v' <> v
     end) /\
  (forall (master update : odict value pyobj),
     NoDup (od_keys update) ->
     match dict_merge pyobj_eq master update with
     | (master', None) =>
         (forall k v v', od_get k master = Some v' -> od_get k update = Some v ->
                         pyobj_eq v' v = true) /\
         (forall k, od_get k master'
                    = match od_get k master with
                      | Some v' => Some v'
                      | None => od_get k update
                      end)
     | (_, Some key) =>
         exists v v', od_get key update = Some v /\ od_get key master = Some v' /\
                      pyobj_eq v' v = false
     end) /\
  (forall VERSION stream keys dimensions variables attributes,
     build_dataset_components VERSION stream keys
     = Ok (dimensions, variables, attributes) ->
     forall param_id short_name,
       In (param_id, short_name) (variable_pairs stream) ->
       exists var,
         variable_of stream param_id = Ok var /\
         forall d n, od_get d (variable_dims var) = Some n ->
                     od_get d dimensions = Some n) /\
  (forall VERSION stream keys param_id1 short_name1 param_id2 short_name2
          var1 var2 d n1 n2,
     In (param_id1, short_name1) (variable_pairs stream) ->
     In (param_id2, short_name2) (variable_pairs stream) ->
     variable_of stream param_id1 = Ok var1 ->
     variable_of stream param_id2 = Ok var2 ->
     od_get d (variable_dims var1) = Some n1 ->
     od_get d (variable_dims var2) = Some n2 ->
     n1 <> n2 ->
     exists e, build_dataset_components VERSION stream keys = Raise e).
Proof.
  split; [|split; [|split]].
  - intros master update N.
    pose proof (dict_merge_spec string_key_eq Z.eqb update master N) as S.
    destruct (dict_merge Z.eqb master update) as [master' [key|]].
    + destruct S as (v & v' & GU & GM & E). exists v, v'.
      split; [exact GU|]. split; [exact GM|]. now apply Z.eqb_neq.
    + destruct S as [C L]. split; [|exact L].
      intros k v v' GM GU. apply Z.eqb_eq. now apply (C k).
  - intros master update N.
    exact (dict_merge_spec value_key_eq pyobj_eq update master N).
  - apply build_dataset_components_dims.
  - intros VERSION stream keys p1 s1 p2 s2 var1 var2 d n1 n2 I1 I2 V1 V2 G1 G2 NE.
    destruct (build_dataset_components VERSION stream keys)
      as [[[dimensions variables] attributes]|e] eqn:B; [|eauto].
    exfalso.
    destruct (build_dataset_components_dims _ _ _ _ _ _ B p1 s1 I1) as [v1 [E1 D1]].
    destruct (build_dataset_components_dims _ _ _ _ _ _ B p2 s2 I2) as [v2 [E2 D2]].
    assert (v1 = var1) by congruence. assert (v2 = var2) by congruence. subst.
    apply D1 in G1. apply D2 in G2. congruence.
Qed.

Lemma dict_merge_first_writer_wins_witness :
  od_get "i" (fst (dict_merge Z.eqb [("number", 2%Z)] [("number", 2%Z); ("i", 7%Z)]))
  = Some 7%Z /\
  od_get "number"
    (fst (fst (built_components
                 (build_dataset_components "0.8" sample_stream GLOBAL_ATTRIBUTES_KEYS))))
  = Some 2%Z /\
  exists e,
    build_dataset_components "0.8" conflict_stream GLOBAL_ATTRIBUTES_KEYS = Raise e.
Proof.
  destruct dict_merge_first_writer_wins as (M & _ & B & C).
  split; [|split].
  - assert (N : NoDup (od_keys [("number", 2%Z); ("i", 7%Z)]))
      by (simpl; repeat constructor; simpl; intuition discriminate).
    pose proof (M [("number", 2%Z)] [("number", 2%Z); ("i", 7%Z)] N) as S.
    simpl in S. destruct S as [_ L]. exact (L "i").
  - destruct (B "0.8" sample_stream GLOBAL_ATTRIBUTES_KEYS
                (fst (fst (built_components
                   (build_dataset_components "0.8" sample_stream GLOBAL_ATTRIBUTES_KEYS))))
                (snd (fst (built_components
                   (build_dataset_components "0.8" sample_stream GLOBAL_ATTRIBUTES_KEYS))))
                (snd (built_components
                   (build_dataset_components "0.8" sample_stream GLOBAL_ATTRIBUTES_KEYS))))
      with (param_id := VInt 130) (short_name := VStr "t") as [var [V D]].
    + vm_compute. reflexivity.
    + vm_compute. auto.
    + apply D.
      assert (E : var = constructed (variable_of sample_stream (VInt 130))).
      { assert (X : variable_of sample_stream (VInt 130)
                    = Ok (constructed (variable_of sample_stream (VInt 130))))
          by (vm_compute; reflexivity).
        congruence. }
      rewrite E. vm_compute. reflexivity.
  - apply (C "0.8" conflict_stream GLOBAL_ATTRIBUTES_KEYS
             (VInt 130) (VStr "t") (VInt 131) (VStr "u")
             (constructed (variable_of conflict_stream (VInt 130)))
             (constructed (variable_of conflict_stream (VInt 131)))
             "number" 2%Z 3%Z).
    + vm_compute. auto.
    + vm_compute. auto.
    + vm_compute. reflexivity.
    + vm_compute. reflexivity.
    + vm_compute. reflexivity.
    + vm_compute. reflexivity.
    + discriminate.
Defined.

(** C7 on a stream in which two parameter ids share a short name: the
    index reports the parameter ids 1, 2, 3 and the short names a, b;
    the dataset is built with two data variables only; the one filed
    under the name b is the variable of parameter id 2, whose short
    name is a; and no variable is built for parameter id 3. *)
Theorem shared_short_name_misfiles_variables :
  let index := stream_index shared_name_stream ALL_KEYS in
  let variables :=
    snd (fst (built_components
                (build_dataset_components "0.8" shared_name_stream
                   GLOBAL_ATTRIBUTES_KEYS))) in
  getitem index "paramId" = [VInt 1; VInt 2; VInt 3] /\
  getitem index "shortName" = [VStr "a"; VStr "b"] /\
  (exists dimensions attributes,
     build_dataset_components "0.8" shared_name_stream GLOBAL_ATTRIBUTES_KEYS
     = Ok (dimensions, variables, attributes)) /\
  data_variable_names variables = [VStr "a"; VStr "b"] /\
  data_variable_attribute variables (VStr "b") "paramId" = Some (VInt 2) /\
  data_variable_attribute variables (VStr "b") "shortName" = Some (VStr "a") /\
  getitem (subindex index "paramId" (VInt 3)) "shortName" = [VStr "b"].
Proof.
  cbv zeta. split; [vm_compute; reflexivity|]. split; [vm_compute; reflexivity|].
  split.
  - exists (fst (fst (built_components
                        (build_dataset_components "0.8" shared_name_stream
                           GLOBAL_ATTRIBUTES_KEYS)))),
           (snd (built_components
                   (build_dataset_components "0.8" shared_name_stream
                      GLOBAL_ATTRIBUTES_KEYS))).
    vm_compute. reflexivity.
  - repeat split; vm_compute; reflexivity.
Qed.

(** ** Dates and times *)

Lemma dbind_ok {A B : Type} (m : dresult A) (f : A -> dresult B) (b : B) :
  dbind m f = DOk b -> exists a, m = DOk a /\ f a = DOk b.
Proof. destruct m as [a|e]; simpl; intro E; [eauto | discriminate]. Qed.

Lemma d_of_option_ok {A : Type} (e : date_exn) (o : option A) (a : A) :
  d_of_option e o = DOk a -> o = Some a.
Proof. destruct o; simpl; congruence. Qed.

Ltac month_cases m :=
  let H := fresh "H" in
  assert (H : (m = 1 \/ m = 2 \/ m = 3 \/ m = 4 \/ m = 5 \/ m = 6 \/ m = 7 \/
               m = 8 \/ m = 9 \/ m = 10 \/ m = 11 \/ m = 12)%Z) by lia;
  repeat (destruct H as [H|H]); subst m.

Lemma is_leap_cases (year : Z) :
  (is_leap year = true /\ year mod 4 = 0 /\ (year mod 100 <> 0 \/ year mod 400 = 0))%Z \/
  (is_leap year = false /\ (year mod 4 <> 0 \/ (year mod 100 = 0 /\ year mod 400 <> 0)))%Z.
Proof.
  unfold is_leap.
  destruct (year mod 4 =? 0)%Z eqn:E4; destruct (year mod 100 =? 0)%Z eqn:E100;
    destruct (year mod 400 =? 0)%Z eqn:E400; simpl;
    rewrite ?Z.eqb_eq, ?Z.eqb_neq in *; intuition lia.
Qed.

(** The month table of the calendar, for a valid month. *)
Lemma month_facts (year month : Z) :
  (1 <= month <= 12)%Z ->
  let leap := (if is_leap year then 1 else 0)%Z in
  ((month = 1 /\ days_before_month year month = 0 /\ days_in_month year month = 31) \/
   (month = 2 /\ days_before_month year month = 31 /\ days_in_month year month = 28 + leap) \/
   (month = 3 /\ days_before_month year month = 59 + leap /\ days_in_month year month = 31) \/
   (month = 4 /\ days_before_month year month = 90 + leap /\ days_in_month year month = 30) \/
   (month = 5 /\ days_before_month year month = 120 + leap /\ days_in_month year month = 31) \/
   (month = 6 /\ days_before_month year month = 151 + leap /\ days_in_month year month = 30) \/
   (month = 7 /\ days_before_month year month = 181 + leap /\ days_in_month year month = 31) \/
   (month = 8 /\ days_before_month year month = 212 + leap /\ days_in_month year month = 31) \/
   (month = 9 /\ days_before_month year month = 243 + leap /\ days_in_month year month = 30) \/
   (month = 10 /\ days_before_month year month = 273 + leap /\ days_in_month year month = 31) \/
   (month = 11 /\ days_before_month year month = 304 + leap /\ days_in_month year month = 30) \/
   (month = 12 /\ days_before_month year month = 334 + leap /\ days_in_month year month = 31))%Z.
Proof.
  intros M leap. unfold leap.
  month_cases month; unfold days_before_month, days_in_month;
    destruct (is_leap year); cbv; tauto.
Qed.

Lemma days_before_year_succ (year : Z) :
  (days_before_year (year + 1)
   = days_before_year year + (if is_leap year then 366 else 365))%Z.
Proof.
  unfold days_before_year. cbv zeta.
  replace (year + 1 - 1)%Z with year by lia.
  destruct (is_leap_cases year) as [[-> H]|[-> H]];
    Z.div_mod_to_equations; lia.
Qed.

Lemma days_before_year_le (y y' : Z) :
  (y <= y' -> days_before_year y <= days_before_year y')%Z.
Proof.
  intro L. destruct (Z.eq_dec y y') as [->|N]; [lia|].
  unfold days_before_year. cbv zeta.
  assert (A : ((y - 1) / 4 <= (y' - 1) / 4)%Z) by (apply Z.div_le_mono; lia).
  assert (B : ((y - 1) / 400 <= (y' - 1) / 400)%Z) by (apply Z.div_le_mono; lia).
  assert (C : ((y' - 1) / 100 <= (y - 1) / 100 + (y' - y))%Z)
    by (Z.div_mod_to_equations; lia).
  lia.
Qed.

Lemma days_in_year_bound (year month day : Z) :
  (1 <= month <= 12 -> 1 <= day <= days_in_month year month ->
   1 <= days_before_month year month + day <= (if is_leap year then 366 else 365))%Z.
Proof.
  intros M D. pose proof (month_facts year month M) as F. cbv zeta in F.
  destruct (is_leap year); lia.
Qed.

Lemma days_before_month_lt (year m m' d d' : Z) :
  (1 <= m -> m < m' -> m' <= 12 ->
   1 <= d <= days_in_month year m -> 1 <= d' ->
   days_before_month year m + d < days_before_month year m' + d')%Z.
Proof.
  intros M1 L M2 D D'.
  pose proof (month_facts year m ltac:(lia)) as F. cbv zeta in F.
  pose proof (month_facts year m' ltac:(lia)) as F'. cbv zeta in F'.
  destruct (is_leap year); lia.
Qed.

(** The ordinal of a date grows with the date. *)
Lemma ymd2ord_lt (y m d y' m' d' : Z) :
  (1 <= m <= 12 -> 1 <= d <= days_in_month y m ->
   1 <= m' <= 12 -> 1 <= d' <= days_in_month y' m' ->
   (y < y' \/ (y = y' /\ (m < m' \/ (m = m' /\ d < d')))) ->
   ymd2ord y m d < ymd2ord y' m' d')%Z.
Proof.
  intros M D M' D' [L|[-> [L|[-> L]]]]; unfold ymd2ord.
  - pose proof (days_in_year_bound y m d M D) as B.
    pose proof (days_in_year_bound y' m' d' M' D') as B'.
    pose proof (days_before_year_succ y) as S.
    pose proof (days_before_year_le (y + 1) y' ltac:(lia)) as LE.
    destruct (is_leap y); lia.
  - pose proof (days_before_month_lt y' m m' d d'). lia.
  - lia.
Qed.

Lemma datetime_new_ok year month day hour minute dt :
  datetime_new year month day hour minute = DOk dt ->
  (1 <= year <= 9999 /\ 1 <= month <= 12 /\ 1 <= day <= days_in_month year month /\
   0 <= hour <= 23 /\ 0 <= minute <= 59)%Z /\
  dt = {| dt_year := year; dt_month := month; dt_day := day;
          dt_hour := hour; dt_minute := minute |}.
Proof.
  unfold datetime_new.
  destruct (negb _); [discriminate|].
  destruct (_ && _)%bool eqn:C; [|discriminate].
  intro E. inversion E; subst; clear E. split; [|reflexivity].
  repeat (apply andb_true_iff in C; destruct C as [C ?]).
  rewrite ?Z.leb_le in *. lia.
Qed.

(** The value [from_grib_date_time] returns, and the fields it read. *)
Lemma from_grib_date_time_ok date time s :
  from_grib_date_time date time = DOk s ->
  exists year month day hour minute,
    (date = year * 10000 + month * 100 + day /\ time = hour * 100 + minute /\
     1 <= year <= 9999 /\ 1 <= month <= 12 /\ 1 <= day <= days_in_month year month /\
     0 <= hour <= 23 /\ 0 <= minute <= 59 /\
     s = (ymd2ord year month day - ymd2ord 1970 1 1) * 86400
         + hour * 3600 + minute * 60)%Z.
Proof.
  unfold from_grib_date_time. cbv zeta. intro E.
  apply dbind_ok in E. destruct E as [dt [N E]].
  apply datetime_new_ok in N. destruct N as [V ->].
  inversion E; subst; clear E.
  exists (date / 10000)%Z, (date / 100 mod 100)%Z, (date mod 100)%Z,
         (time / 100)%Z, (time mod 100)%Z.
  unfold total_seconds_between, EPOCH. cbn [dt_year dt_month dt_day dt_hour dt_minute].
  repeat split; try tauto; try lia.
  - clear V. Z.div_mod_to_equations. lia.
  - clear V. Z.div_mod_to_equations. lia.
Qed.

Lemma from_grib_date_time_cases date time :
  (exists s, from_grib_date_time date time = DOk s) \/
  from_grib_date_time date time = DRaise DateValueError \/
  from_grib_date_time date time = DRaise DateOverflowError.
Proof.
  unfold from_grib_date_time, datetime_new. cbv zeta.
  destruct (negb _); simpl; auto.
  destruct (_ && _)%bool; simpl; eauto.
Qed.

(** The fields computed with [%] always fit a C [int]: the year and the
    hour decide whether the arguments can be parsed. *)
Lemma from_grib_date_time_overflow date time :
  from_grib_date_time date time = DRaise DateOverflowError <->
  fits_c_int (date / 10000) = false \/ fits_c_int (time / 100) = false.
Proof.
  unfold from_grib_date_time, datetime_new. cbv zeta.
  assert (M : fits_c_int (date / 100 mod 100) = true)
    by (unfold fits_c_int; pose proof (Z.mod_pos_bound (date / 100) 100); lia).
  assert (D : fits_c_int (date mod 100) = true)
    by (unfold fits_c_int; pose proof (Z.mod_pos_bound date 100); lia).
  assert (I : fits_c_int (time mod 100) = true)
    by (unfold fits_c_int; pose proof (Z.mod_pos_bound time 100); lia).
  rewrite M, D, I, !andb_true_r.
  destruct (fits_c_int (date / 10000)), (fits_c_int (time / 100)); simpl;
    try (split; [auto | reflexivity]).
  destruct (_ && _)%bool; simpl; split; try discriminate; intros [?|?]; discriminate.
Qed.

Lemma from_grib_date_time_lt (date1 time1 date2 time2 s1 s2 : Z) :
  from_grib_date_time date1 time1 = DOk s1 ->
  from_grib_date_time date2 time2 = DOk s2 ->
  (date1 < date2 \/ (date1 = date2 /\ time1 < time2))%Z -> (s1 < s2)%Z.
Proof.
  intros E1 E2 L.
  apply from_grib_date_time_ok in E1.
  destruct E1 as (y1 & m1 & d1 & h1 & i1 & D1 & T1 & Y1 & M1 & A1 & H1 & I1 & S1).
  apply from_grib_date_time_ok in E2.
  destruct E2 as (y2 & m2 & d2 & h2 & i2 & D2 & T2 & Y2 & M2 & A2 & H2 & I2 & S2).
  assert (B1 : (d1 <= 31)%Z)
    by (pose proof (month_facts y1 m1 M1) as F; cbv zeta in F;
        destruct (is_leap y1); lia).
  assert (B2 : (d2 <= 31)%Z)
    by (pose proof (month_facts y2 m2 M2) as F; cbv zeta in F;
        destruct (is_leap y2); lia).
  subst date1 date2 time1 time2 s1 s2. destruct L as [L|[EQ L]].
  - assert (O : (ymd2ord y1 m1 d1 < ymd2ord y2 m2 d2)%Z)
      by (apply ymd2ord_lt; auto; lia).
    lia.
  - assert (y1 = y2 /\ m1 = m2 /\ d1 = d2) as (-> & -> & ->) by lia. lia.
Qed.

Lemma from_grib_date_time_inj (date1 time1 date2 time2 s : Z) :
  from_grib_date_time date1 time1 = DOk s ->
  from_grib_date_time date2 time2 = DOk s ->
  date1 = date2 /\ time1 = time2.
Proof.
  intros E1 E2.
  pose proof (from_grib_date_time_lt _ _ _ _ _ _ E1 E2) as L12.
  pose proof (from_grib_date_time_lt _ _ _ _ _ _ E2 E1) as L21.
  destruct (Z.lt_trichotomy date1 date2) as [L|[ED|L]]; [lia| |lia].
  split; [exact ED|].
  destruct (Z.lt_trichotomy time1 time2) as [L|[ET|L]]; [lia|exact ET|lia].
Qed.

(** X1.  [from_grib_date_time] is strictly increasing in the date, then
    the time: a later date, or the same date with a later time, gives a
    larger number of seconds.  Hence two accepted pairs with the same
    number of seconds are the same pair. *)
Theorem from_grib_date_time_increasing (date1 time1 date2 time2 s1 s2 : Z) :
  from_grib_date_time date1 time1 = DOk s1 ->
  from_grib_date_time date2 time2 = DOk s2 ->
  ((date1 < date2 \/ (date1 = date2 /\ time1 < time2))%Z -> (s1 < s2)%Z) /\
  (s1 = s2 -> date1 = date2 /\ time1 = time2).
Proof.
  intros E1 E2. split.
  - now apply (from_grib_date_time_lt date1 time1 date2 time2).
  - intro EQ. subst s2.
    now apply (from_grib_date_time_inj date1 time1 date2 time2 s1).
Qed.

Lemma from_grib_date_time_increasing_witness :
  (86400 < 90000)%Z.
Proof.
  apply (proj1 (from_grib_date_time_increasing 19700102 0 19700102 100 86400 90000
                  ltac:(vm_compute; reflexivity) ltac:(vm_compute; reflexivity))).
  right. split; [reflexivity | lia].
Defined.

(** X2.  What [from_grib_date_time] accepts and what its result keeps:
    the time lies in 0..2359 with minutes below 60, the date in
    00010101..99991231, the result is a whole number of minutes, and the
    time of day can be read back from it. *)
Theorem from_grib_date_time_time_of_day (date time s : Z) :
  from_grib_date_time date time = DOk s ->
  (0 <= time <= 2359 /\ time mod 100 <= 59 /\ 10101 <= date <= 99991231 /\
   s mod 60 = 0 /\
   time = 100 * (s mod 86400 / 3600) + s mod 3600 / 60)%Z.
Proof.
  intro E. apply from_grib_date_time_ok in E.
  destruct E as (y & m & d & h & i & D & T & Y & M & A & H & I & S).
  assert (B : (d <= 31)%Z)
    by (pose proof (month_facts y m M) as F; cbv zeta in F;
        destruct (is_leap y); lia).
  remember (ymd2ord y m d - ymd2ord 1970 1 1)%Z as days eqn:ED. clear ED.
  subst date time s.
  split; [lia|]. split; [Z.div_mod_to_equations; lia|]. split; [lia|].
  split; [Z.div_mod_to_equations; lia|].
  Z.div_mod_to_equations. lia.
Qed.

Lemma from_grib_date_time_time_of_day_witness :
  (1230 = 100 * (1514809800 mod 86400 / 3600) + 1514809800 mod 3600 / 60)%Z.
Proof.
  apply (from_grib_date_time_time_of_day 20180101 1230 1514809800).
  vm_compute. reflexivity.
Defined.

(** X3.  [from_grib_date_time] raises the [OverflowError] of
    [datetime.datetime] exactly when the year [date // 10000] or the
    hour [time // 100] does not fit a C [int]; when both fit, it raises
    its [ValueError] for a negative time, a time after 2359, minutes of
    60 or more, and for the 29th of February of a year that is not a
    leap year. *)
Theorem from_grib_date_time_rejects (date time year : Z) :
  (from_grib_date_time date time = DRaise DateOverflowError <->
   fits_c_int (date / 10000) = false \/ fits_c_int (time / 100) = false) /\
  (fits_c_int (date / 10000) = true -> fits_c_int (time / 100) = true ->
   (time < 0 \/ 2359 < time \/ 59 < time mod 100)%Z ->
   from_grib_date_time date time = DRaise DateValueError) /\
  (is_leap year = false ->
   fits_c_int year = true -> fits_c_int (time / 100) = true ->
   from_grib_date_time (year * 10000 + 229) time = DRaise DateValueError).
Proof.
  split; [apply from_grib_date_time_overflow|]. split.
  - intros FY FH B.
    destruct (from_grib_date_time_cases date time) as [[s E]|[E|E]]; [|exact E|].
    + apply from_grib_date_time_ok in E.
      destruct E as (y & m & d & h & i & _ & T & _ & _ & _ & H & I & _).
      exfalso. subst time. clear - B H I. Z.div_mod_to_equations. lia.
    + apply from_grib_date_time_overflow in E. destruct E; congruence.
  - intros L FY FH.
    assert (Y : ((year * 10000 + 229) / 10000 = year)%Z)
      by (Z.div_mod_to_equations; lia).
    destruct (from_grib_date_time_cases (year * 10000 + 229) time)
      as [[s E]|[E|E]]; [|exact E|].
    + apply from_grib_date_time_ok in E.
      destruct E as (y & m & d & h & i & D & T & Y' & M & A & H & I & S).
      assert (B : (d <= 31)%Z)
        by (pose proof (month_facts y m M) as F; cbv zeta in F;
            destruct (is_leap y); lia).
      assert (y = year /\ m = 2 /\ d = 29)%Z as (-> & -> & ->) by lia.
      unfold days_in_month in A. rewrite L in A. simpl in A. lia.
    + apply from_grib_date_time_overflow in E. rewrite Y in E.
      destruct E; congruence.
Qed.

Lemma from_grib_date_time_rejects_witness :
  from_grib_date_time 20180101 300000000000 = DRaise DateOverflowError /\
  from_grib_date_time 20180101 1260 = DRaise DateValueError /\
  from_grib_date_time (2018 * 10000 + 229) 0 = DRaise DateValueError.
Proof.
  split; [|split].
  - apply (proj1 (from_grib_date_time_rejects 20180101 300000000000 0)).
    right. vm_compute. reflexivity.
  - apply (proj1 (proj2 (from_grib_date_time_rejects 20180101 1260 0)));
      [vm_compute; reflexivity | vm_compute; reflexivity |].
    right. right. vm_compute. reflexivity.
  - apply (proj2 (proj2 (from_grib_date_time_rejects 0 0 2018)));
      vm_compute; reflexivity.
Defined.

Lemma od_keys_set_Z {V : Type} (k : Z) (v : V) (d : odict Z V) :
  od_keys (od_set k v d)
  = if existsb (Z.eqb k) (od_keys d) then od_keys d else od_keys d ++ [k].
Proof.
  unfold od_keys. induction d as [|[k' v'] d IH]; simpl; [reflexivity|].
  change (key_eqb k k') with (Z.eqb k k').
  destruct (Z.eqb k k'); simpl; [reflexivity|].
  rewrite IH. destruct (existsb (Z.eqb k) (map fst d)); reflexivity.
Qed.

Lemma Z_key_eq (a b : Z) : key_eqb a b = true <-> a = b.
Proof. apply Z.eqb_eq. Qed.

Lemma existsb_Zeqb_In (x : Z) (l : list Z) : existsb (Z.eqb x) l = true <-> In x l.
Proof.
  rewrite existsb_exists. split.
  - intros [y [I E]]. apply Z.eqb_eq in E. now subst.
  - intro I. exists x. split; [exact I | apply Z.eqb_refl].
Qed.

Lemma date_time_step_ok idate itime data reverse_index header_values st :
  date_time_step idate itime (data, reverse_index) header_values = DOk st ->
  exists date time seconds,
    nth_error header_values idate = Some (VInt date) /\
    nth_error header_values itime = Some (VInt time) /\
    from_grib_date_time date time = DOk seconds /\
    st = (if existsb (Z.eqb seconds) data then data else data ++ [seconds],
          od_set seconds (VInt date, VInt time) reverse_index).
Proof.
  unfold date_time_step. intro E.
  apply dbind_ok in E. destruct E as [date [D E]]. apply d_of_option_ok in D.
  apply dbind_ok in E. destruct E as [time [T E]]. apply d_of_option_ok in T.
  apply dbind_ok in E. destruct E as [seconds [S E]].
  inversion E; subst; clear E.
  destruct time as [t|]; [|discriminate]. destruct date as [d|]; [|discriminate].
  simpl in S. exists d, t, seconds. auto.
Qed.


Lemma NoDup_snoc {A : Type} (l : list A) (x : A) :
  NoDup l -> ~ In x l -> NoDup (l ++ [x]).
Proof.
  induction 1 as [|y l Ny N IH]; simpl; intro NI.
  - repeat constructor. intros [].
  - constructor.
    + rewrite in_app_iff. simpl. intros [I|[->|[]]]; [contradiction|].
      apply NI. now left.
    + apply IH. intro I. apply NI. now right.
Qed.

Lemma date_time_step_invariant idate itime st header_values st' :
  date_time_invariant st ->
  date_time_step idate itime st header_values = DOk st' ->
  date_time_invariant st' /\
  (forall seconds pair, od_get seconds (snd st) = Some pair ->
                        od_get seconds (snd st') = Some pair) /\
  exists date time seconds,
    nth_error header_values idate = Some (VInt date) /\
    nth_error header_values itime = Some (VInt time) /\
    from_grib_date_time date time = DOk seconds /\
    od_get seconds (snd st') = Some (VInt date, VInt time).
Proof.
  destruct st as [data reverse_index]. intros (N & K & R) E. simpl in N, K, R.
  apply date_time_step_ok in E.
  destruct E as (date & time & seconds & D & T & S & ->). simpl.
  split; [|split].
  - split; [|split]; simpl.
    + destruct (existsb (Z.eqb seconds) data) eqn:X; [exact N|].
      apply NoDup_snoc; auto.
      intro I. apply existsb_Zeqb_In in I. congruence.
    + rewrite od_keys_set_Z, K. reflexivity.
    + intros s pair G. destruct (Z.eq_dec s seconds) as [->|NE].
      * rewrite (od_get_set_same Z_key_eq) in G. inversion G; subst. eauto.
      * rewrite (od_get_set_other Z_key_eq) in G by exact NE. now apply R.
  - intros s pair G. destruct (Z.eq_dec s seconds) as [->|NE].
    + rewrite (od_get_set_same Z_key_eq).
      destruct (R _ _ G) as (d & t & -> & S').
      destruct (from_grib_date_time_inj _ _ _ _ _ S' S) as [-> ->].
      reflexivity.
    + now rewrite (od_get_set_other Z_key_eq) by exact NE.
  - exists date, time, seconds. repeat split; auto.
    apply (od_get_set_same Z_key_eq).
Qed.

Lemma date_time_loop_invariant idate itime tuples : forall st st',
  date_time_invariant st ->
  date_time_loop idate itime tuples st = DOk st' ->
  date_time_invariant st' /\
  (forall seconds pair, od_get seconds (snd st) = Some pair ->
                        od_get seconds (snd st') = Some pair) /\
  (forall header_values, In header_values tuples ->
     exists date time seconds,
       nth_error header_values idate = Some (VInt date) /\
       nth_error header_values itime = Some (VInt time) /\
       from_grib_date_time date time = DOk seconds /\
       od_get seconds (snd st') = Some (VInt date, VInt time)) /\
  (forall seconds, In seconds (fst st') ->
     In seconds (fst st) \/
     exists header_values date time,
       In header_values tuples /\
       nth_error header_values idate = Some (VInt date) /\
       nth_error header_values itime = Some (VInt time) /\
       from_grib_date_time date time = DOk seconds).
Proof.
  induction tuples as [|hv rest IH]; intros st st' I E; simpl in E.
  - inversion E; subst. split; [exact I|]. split; [auto|]. split; [intros ? []|auto].
  - apply dbind_ok in E. destruct E as [st1 [S E]].
    pose proof S as S0.
    apply (date_time_step_invariant _ _ _ _ _ I) in S.
    destruct S as (I1 & K1 & date & time & seconds & D & T & F & G).
    destruct (IH st1 st' I1 E) as (I' & K' & A' & B').
    split; [exact I'|]. split; [|split].
    + intros s pair H. apply K', K1, H.
    + intros hv' [<-|J]; [|now apply A'].
      exists date, time, seconds. repeat split; auto.
    + intros s J. apply B' in J. destruct J as [J|(hv' & d & t & J & X)].
      * destruct st as [data rev]. apply date_time_step_ok in S0.
        destruct S0 as (d0 & t0 & s0 & D0 & T0 & F0 & ->). simpl in J.
        destruct (existsb (Z.eqb s0) data); [now left|].
        apply in_app_or in J. destruct J as [J|[<-|[]]]; [now left|].
        right. exists hv, d0, t0. simpl. auto.
      * right. exists hv', d, t. simpl. tauto.
Qed.

Lemma data_date_time_ok index data attributes reverse_index :
  data_date_time index = DOk (data, attributes, reverse_index) ->
  exists idate itime,
    list_index String.eqb "dataDate" (index_keys index) = Some idate /\
    list_index String.eqb "dataTime" (index_keys index) = Some itime /\
    date_time_loop idate itime (map fst (offsets index)) ([], [])
    = DOk (data, reverse_index).
Proof.
  unfold data_date_time. intro E.
  apply dbind_ok in E. destruct E as [idate [D E]]. apply d_of_option_ok in D.
  apply dbind_ok in E. destruct E as [itime [T E]]. apply d_of_option_ok in T.
  apply dbind_ok in E. destruct E as [[data' rev'] [L E]].
  inversion E; subst; clear E. exists idate, itime. auto.
Qed.

Lemma date_time_invariant_empty : date_time_invariant ([], []).
Proof.
  split; [constructor|]. split; [reflexivity|]. intros s pair G. discriminate.
Qed.

(** X4.  When [data_date_time] returns, its list of seconds has no
    repeated element, it lists exactly the conversions of the dates and
    times of the buckets of the index, and it is the list of keys of the
    reverse index, in the same order. *)
Theorem data_date_time_distinct (index : Index) (data : list Z)
  (attributes : odict string value) (reverse_index : odict Z (value * value)) :
  data_date_time index = DOk (data, attributes, reverse_index) ->
  exists idate itime,
    list_index String.eqb "dataDate" (index_keys index) = Some idate /\
    list_index String.eqb "dataTime" (index_keys index) = Some itime /\
    NoDup data /\
    od_keys reverse_index = data /\
    forall seconds,
      In seconds data <->
      exists header_values bucket date time,
        In (header_values, bucket) (offsets index) /\
        nth_error header_values idate = Some (VInt date) /\
        nth_error header_values itime = Some (VInt time) /\
        from_grib_date_time date time = DOk seconds.
Proof.
  intro E. apply data_date_time_ok in E. destruct E as (idate & itime & D & T & L).
  exists idate, itime. split; [exact D|]. split; [exact T|].
  destruct (date_time_loop_invariant _ _ _ _ _ date_time_invariant_empty L)
    as ((N & K & R) & _ & A & B). simpl in N, K, R, A, B.
  split; [exact N|]. split; [exact K|]. intro s. split.
  - intro I. destruct (B s I) as [[]|(hv & d & t & J & X)].
    apply in_map_iff in J. destruct J as [[hv' bucket] [<- J]].
    exists hv', bucket, d, t. simpl in X. tauto.
  - intros (hv & bucket & d & t & J & Dd & Tt & F).
    destruct (A hv) as (d' & t' & s' & Dd' & Tt' & F' & G).
    { apply in_map_iff. exists (hv, bucket). auto. }
    assert (d' = d) by congruence. assert (t' = t) by congruence. subst d' t'.
    assert (s' = s) by congruence. subst s'.
    rewrite <- K. apply (od_get_some_In Z_key_eq s _ _ G).
Qed.

Lemma data_date_time_distinct_witness :
  NoDup [1514764800; 1514808000]%Z.
Proof.
  destruct (data_date_time_distinct dated_index [1514764800; 1514808000]%Z
              [("units", VStr "seconds since 1970-01-01T00:00:00+00:00");
               ("calendar", VStr "proleptic_gregorian");
               ("axis", VStr "T");
               ("standard_name", VStr "forecast_reference_time")]
              [(1514764800%Z, (VInt 20180101, VInt 0));
               (1514808000%Z, (VInt 20180101, VInt 1200))])
    as (idate & itime & _ & _ & N & _).
  - vm_compute. reflexivity.
  - exact N.
Defined.

(** X5.  Round trip through the reverse index of [data_date_time]: for
    every bucket of the index, looking up the seconds its date and time
    convert to gives back that very date and time. *)
Theorem data_date_time_reverse_index (index : Index) (data : list Z)
  (attributes : odict string value) (reverse_index : odict Z (value * value)) :
  data_date_time index = DOk (data, attributes, reverse_index) ->
  forall header_values bucket,
    In (header_values, bucket) (offsets index) ->
    exists idate itime date time seconds,
      list_index String.eqb "dataDate" (index_keys index) = Some idate /\
      list_index String.eqb "dataTime" (index_keys index) = Some itime /\
      nth_error header_values idate = Some (VInt date) /\
      nth_error header_values itime = Some (VInt time) /\
      from_grib_date_time date time = DOk seconds /\
      In seconds data /\
      od_get seconds reverse_index = Some (VInt date, VInt time).
Proof.
  intros E hv bucket J.
  apply data_date_time_ok in E. destruct E as (idate & itime & D & T & L).
  destruct (date_time_loop_invariant _ _ _ _ _ date_time_invariant_empty L)
    as ((N & K & R) & _ & A & _). simpl in N, K, R, A.
  destruct (A hv) as (d & t & s & Dd & Tt & F & G).
  { apply in_map_iff. exists (hv, bucket). auto. }
  exists idate, itime, d, t, s. repeat split; auto.
  rewrite <- K. apply (od_get_some_In Z_key_eq s _ _ G).
Qed.

Lemma data_date_time_reverse_index_witness :
  exists seconds,
    from_grib_date_time 20180101 1200 = DOk seconds /\
    od_get seconds [(1514764800%Z, (VInt 20180101, VInt 0));
                    (1514808000%Z, (VInt 20180101, VInt 1200))]
    = Some (VInt 20180101, VInt 1200).
Proof.
  destruct (data_date_time_reverse_index dated_index [1514764800; 1514808000]%Z
              [("units", VStr "seconds since 1970-01-01T00:00:00+00:00");
               ("calendar", VStr "proleptic_gregorian");
               ("axis", VStr "T");
               ("standard_name", VStr "forecast_reference_time")]
              [(1514764800%Z, (VInt 20180101, VInt 0));
               (1514808000%Z, (VInt 20180101, VInt 1200))]
              ltac:(vm_compute; reflexivity)
              [VInt 20180101; VInt 1200; VInt 0] [200%Z]
              ltac:(simpl; auto))
    as (idate & itime & d & t & s & D & T & Dd & Tt & F & _ & G).
  vm_compute in D. inversion D; subst idate.
  vm_compute in T. inversion T; subst itime.
  simpl in Dd, Tt. inversion Dd; subst d. inversion Tt; subst t.
  exists s. split; [exact F | exact G].
Defined.

(** X6.  [data_date_time] raises when the schema of the index lacks
    ['dataDate'] or ['dataTime'], whatever the index holds, and it
    raises as soon as one bucket carries a string, such as the sentinel
    ['undef'], for its date or its time. *)
Theorem data_date_time_raises (index : Index) :
  (list_index String.eqb "dataDate" (index_keys index) = None \/
   list_index String.eqb "dataTime" (index_keys index) = None ->
   data_date_time index = DRaise DateKeyMissing) /\
  (forall idate itime header_values bucket s,
     list_index String.eqb "dataDate" (index_keys index) = Some idate ->
     list_index String.eqb "dataTime" (index_keys index) = Some itime ->
     In (header_values, bucket) (offsets index) ->
     nth_error header_values idate = Some (VStr s) \/
     nth_error header_values itime = Some (VStr s) ->
     exists e, data_date_time index = DRaise e).
Proof.
  split.
  - unfold data_date_time. intros [N|N].
    + rewrite N. reflexivity.
    + destruct (list_index String.eqb "dataDate" (index_keys index)); simpl;
        [rewrite N|]; reflexivity.
  - intros idate itime hv bucket s D T J S.
    destruct (data_date_time index) as [[[data attributes] reverse_index]|e] eqn:E;
      [|eauto].
    exfalso.
    apply data_date_time_ok in E. destruct E as (idate' & itime' & D' & T' & L).
    destruct (date_time_loop_invariant _ _ _ _ _ date_time_invariant_empty L)
      as (_ & _ & A & _).
    destruct (A hv) as (d & t & sec & Dd & Tt & _).
    { apply in_map_iff. exists (hv, bucket). auto. }
    assert (idate' = idate) by congruence. assert (itime' = itime) by congruence.
    subst. destruct S as [S|S]; congruence.
Qed.

Lemma data_date_time_raises_witness :
  exists e, data_date_time undated_index = DRaise e.
Proof.
  apply (proj2 (data_date_time_raises undated_index)
           0%nat 1%nat [undef; VInt 0; VInt 0] [0%Z] "undef").
  - reflexivity.
  - reflexivity.
  - simpl. auto.
  - left. reflexivity.
Defined.

(** ** More on the variable assembler *)

Lemma attrs_post_init_fields index stream dv :
  attrs_post_init index stream = Ok dv ->
  dv_ndim dv = List.length (dv_dimensions dv) /\
  dv_size dv = fold_left Z.mul (dv_shape dv) 1%Z /\
  dv_scale dv = true /\ dv_mask dv = false.
Proof.
  unfold attrs_post_init. intro E.
  apply bind_ok in E. destruct E as [leader [L E]]. cbv beta zeta in E.
  apply bind_ok in E. destruct E as [attributes [A E]]. cbv beta zeta in E.
  apply bind_ok in E. destruct E as [grid_type [G E]]. cbv beta zeta in E.
  apply bind_ok in E. destruct E as [spatial [S E]]. cbv beta zeta in E.
  apply bind_ok in E. destruct E as [coordinates [C E]]. cbv beta zeta in E.
  apply bind_ok in E. destruct E as [sizes [Z E]]. cbv beta zeta in E.
  apply bind_ok in E. destruct E as [n [N E]]. cbv beta zeta in E.
  inversion E; subst; clear E. simpl. auto.
Qed.

Lemma constructed_shape index stream dv :
  attrs_post_init index stream = Ok dv ->
  exists n,
    dv_shape dv
    = map (fun k => Z.of_nat (List.length (getitem index k)))
        (removelast (dv_dimensions dv)) ++ [n].
Proof.
  intro E. pose proof (constructed_dimensions index stream dv E) as DD.
  apply attrs_post_init_ok in E.
  destruct E as (leader & attributes & grid_type & spatial & coordinates & sizes & n
                 & L & _ & _ & _ & C & Z & N & _ & _ & _ & _ & _ & S & _).
  apply header_coordinates_retained in C.
  exists n. rewrite S. f_equal. rewrite DD, removelast_last in *.
  apply (coordinate_sizes index coordinates); auto.
  intros d I. apply filter_In in I. destruct I as [I R].
  apply andb_true_iff in R. apply filter_In. tauto.
Qed.

Lemma header_keys_closed (k : string) :
  In k (map fst HEADER_COORDINATES_MAP) ->
  k <> "lat" /\ k <> "lon" /\ k <> "i".
Proof. simpl. intuition (subst; discriminate). Qed.

Lemma map_fst_key_data (coordinates : odict string VariableT) :
  map fst (map key_data coordinates) = od_keys coordinates.
Proof. unfold od_keys. rewrite map_map. reflexivity. Qed.

Lemma od_set_fresh_keys {V : Type} (k : string) (v : V) (d : odict string V) :
  ~ In k (od_keys d) -> od_keys (od_set k v d) = od_keys d ++ [k].
Proof.
  intro N. rewrite od_keys_set. unfold add_key.
  destruct (existsb (String.eqb k) (od_keys d)) eqn:X; [|reflexivity].
  apply existsb_eqb_In in X. contradiction.
Qed.

(** X7.  The coordinates of a constructed variable are the retained
    header coordinates, in the order of the table, followed by ['lat']
    and ['lon'], both along ['i'] and read from the first record of the
    stream; the ['coordinates'] attribute lists exactly these names. *)
Theorem constructed_coordinates (index : Index) (stream : Stream) (dv : DataVariable) :
  attrs_post_init index stream = Ok dv ->
  let kept :=
    filter (retained index) ["number"; "dataDate"; "dataTime"; "endStep"; "topLevel"] in
  od_keys (dv_coordinates dv) = kept ++ ["lat"; "lon"] /\
  od_get "coordinates" (dv_attributes dv)
  = Some (VStr (String.concat " " kept ++ " lat lon")) /\
  exists leader,
    hd_error (stream_messages stream) = Some leader /\
    od_get "lat" (dv_coordinates dv)
    = Some {| var_dimensions := ["i"];
              var_data := Floats (msg_latitudes leader);
              var_attributes := [("units", VStr "degrees_north")] |} /\
    od_get "lon" (dv_coordinates dv)
    = Some {| var_dimensions := ["i"];
              var_data := Floats (msg_longitudes leader);
              var_attributes := [("units", VStr "degrees_east")] |}.
Proof.
  intros E kept. apply attrs_post_init_ok in E.
  destruct E as (leader & attributes & grid_type & spatial & coordinates & sizes & n
                 & L & _ & _ & _ & C & _ & _ & _ & _ & _ & A & _ & _ & CS).
  apply header_coordinates_retained in C.
  assert (K : od_keys coordinates = kept).
  { rewrite <- map_fst_key_data, C, map_map. simpl. apply map_id. }
  assert (NL : ~ In "lat" kept /\ ~ In "lon" kept).
  { split; intro I; apply filter_In in I; destruct I as [I _];
      apply header_keys_closed in I; tauto. }
  destruct NL as [NLat NLon].
  split; [|split].
  - rewrite CS. rewrite od_set_fresh_keys.
    + rewrite od_set_fresh_keys by (rewrite K; exact NLat).
      rewrite K, <- app_assoc. reflexivity.
    + rewrite od_set_fresh_keys by (rewrite K; exact NLat).
      rewrite K, in_app_iff. simpl. intuition discriminate.
  - rewrite A, K. apply (od_get_set_same string_key_eq).
  - exists leader. split; [exact L|]. rewrite CS. split.
    + rewrite (od_get_set_other string_key_eq) by discriminate.
      apply (od_get_set_same string_key_eq).
    + apply (od_get_set_same string_key_eq).
Qed.

Lemma constructed_coordinates_witness :
  od_keys (dv_coordinates sample_t_variable) = ["number"; "lat"; "lon"] /\
  od_get "coordinates" (dv_attributes sample_t_variable)
  = Some (VStr "number lat lon").
Proof.
  destruct (constructed_coordinates sample_t_index sample_stream sample_t_variable
              sample_t_variable_constructed) as (K & A & _).
  split.
  - rewrite K. vm_compute. reflexivity.
  - rewrite A. vm_compute. reflexivity.
Defined.

Lemma od_update_fresh {V : Type} (l d : odict string V) :
  NoDup (od_keys l) -> (forall k, In k (od_keys l) -> ~ In k (od_keys d)) ->
  od_update d l = d ++ l.
Proof.
  unfold od_update. revert d. induction l as [|[k v] l IH]; intros d N F; simpl.
  - now rewrite app_nil_r.
  - simpl in N. inversion N as [|? ? NI N']; subst.
    rewrite (od_set_absent k v d).
    + rewrite IH; auto.
      * now rewrite <- app_assoc.
      * intros k' I. unfold od_keys. rewrite map_app, in_app_iff. simpl.
        intros [J|[J|[]]]; [apply (F k'); simpl; auto | subst; contradiction].
    + apply (od_get_none_iff string_key_eq). apply F. simpl; auto.
Qed.

Lemma combine_keys {A B : Type} (l : list A) (l' : list B) :
  List.length l = List.length l' -> map fst (combine l l') = l.
Proof.
  revert l'. induction l as [|x l IH]; destruct l' as [|y l']; simpl;
    intro E; try discriminate; auto.
  f_equal. apply IH. congruence.
Qed.

(** X8.  In a constructed variable the dimension names are distinct,
    the shape has one entry per dimension, [ndim] is their number, every
    entry but the last is at least 2, and pairing the dimensions with
    the shape, as the dataset builder does, loses nothing. *)
Theorem constructed_shape_consistent (index : Index) (stream : Stream)
  (dv : DataVariable) :
  attrs_post_init index stream = Ok dv ->
  NoDup (dv_dimensions dv) /\
  List.length (dv_shape dv) = List.length (dv_dimensions dv) /\
  dv_ndim dv = List.length (dv_dimensions dv) /\
  (forall n, In n (removelast (dv_shape dv)) -> (2 <= n)%Z) /\
  variable_dims dv = combine (dv_dimensions dv) (dv_shape dv).
Proof.
  intro E.
  pose proof (constructed_dimensions index stream dv E) as DD.
  destruct (constructed_shape index stream dv E) as [n S].
  destruct (attrs_post_init_fields index stream dv E) as (ND & _).
  rewrite DD, removelast_last in S.
  assert (N : NoDup (dv_dimensions dv)).
  { rewrite DD. apply NoDup_snoc.
    - apply NoDup_filter. repeat constructor; simpl; intuition discriminate.
    - intro I. apply filter_In in I. destruct I as [I _].
      simpl in I. intuition discriminate. }
  assert (LEN : List.length (dv_shape dv) = List.length (dv_dimensions dv))
    by (rewrite S, DD, !length_app, length_map; reflexivity).
  split; [exact N|]. split; [exact LEN|]. split; [exact ND|]. split.
  - intros m I. rewrite S, removelast_last in I. apply in_map_iff in I.
    destruct I as [k [<- I]]. apply filter_In in I. destruct I as [_ R].
    apply andb_true_iff in R. destruct R as [_ V]. unfold varying in V.
    apply Nat.ltb_lt in V. lia.
  - unfold variable_dims, od_of_list. rewrite od_update_fresh; [reflexivity| |].
    + unfold od_keys. rewrite combine_keys by (symmetry; exact LEN). exact N.
    + intros k _ [].
Qed.

Lemma constructed_shape_consistent_witness :
  variable_dims sample_t_variable = [("number", 2%Z); ("i", 2%Z)].
Proof.
  destruct (constructed_shape_consistent sample_t_index sample_stream sample_t_variable
              sample_t_variable_constructed) as (_ & _ & _ & _ & V).
  rewrite V. vm_compute. reflexivity.
Defined.

Lemma coordinate_data_varying values :
  (2 <= List.length values)%nat -> coordinate_data values = Values (np_array values).
Proof.
  unfold coordinate_data. destruct values as [|v [|w l]]; simpl; intro L;
    try lia. reflexivity.
Qed.

(** X9.  In a constructed variable every dimension but ['i'] has a
    coordinate variable of its name, along that single dimension, whose
    data are the values the index reports and whose size is the entry
    of the shape at the position of the dimension; a header coordinate
    with a single value has no dimension of its own. *)
Theorem constructed_dimension_coordinates (index : Index) (stream : Stream)
  (dv : DataVariable) :
  attrs_post_init index stream = Ok dv ->
  (forall i d,
     nth_error (removelast (dv_dimensions dv)) i = Some d ->
     exists c,
       od_get d (dv_coordinates dv) = Some c /\
       var_dimensions c = [d] /\
       var_data c = Values (np_array (getitem index d)) /\
       nth_error (dv_shape dv) i = Some (Z.of_nat (data_size (var_data c)))) /\
  (forall k c,
     In k ["number"; "dataDate"; "dataTime"; "endStep"; "topLevel"] ->
     od_get k (dv_coordinates dv) = Some c ->
     data_size (var_data c) = List.length (getitem index k) /\
     (var_dimensions c = [] <-> List.length (getitem index k) = 1%nat)).
Proof.
  intro E.
  pose proof (constructed_dimensions index stream dv E) as DD.
  destruct (constructed_shape index stream dv E) as [n S].
  pose proof (coordinate_present_iff index stream dv) as P.
  specialize (fun k => P k E).
  apply attrs_post_init_ok in E.
  destruct E as (leader & attributes & grid_type & spatial & coordinates & sizes & n'
                 & _ & _ & _ & _ & C & _ & _ & _ & _ & _ & _ & _ & _ & CS).
  assert (ENT : forall k c,
             In k (map fst HEADER_COORDINATES_MAP) ->
             od_get k (dv_coordinates dv) = Some c ->
             var_dimensions c = coordinate_dimensions k (getitem index k) /\
             var_data c = coordinate_data (getitem index k)).
  { intros k c I G. rewrite CS in G.
    destruct (header_keys_closed k I) as (N1 & N2 & _).
    rewrite !(od_get_set_other string_key_eq) in G by assumption.
    destruct (header_coordinates_entries _ _ _ _ C k c G)
      as [L|(_ & D & V & _)]; [discriminate | auto]. }
  split.
  - intros i d N. rewrite DD, removelast_last in N.
    assert (I : In d (filter (fun k => retained index k && varying index k)
                        ["number"; "dataDate"; "dataTime"; "endStep"; "topLevel"]))
      by (eapply nth_error_In; exact N).
    apply filter_In in I. destruct I as [I R]. apply andb_true_iff in R.
    destruct R as [R V].
    destruct (od_get d (dv_coordinates dv)) as [c|] eqn:G;
      [|exfalso; apply (proj2 (P d I)) in R; congruence].
    destruct (ENT d c I G) as [D VD].
    unfold varying in V. apply Nat.ltb_lt in V.
    exists c. split; [reflexivity|]. split; [|split].
    + rewrite D. unfold coordinate_dimensions.
      destruct (Nat.eqb_spec (List.length (getitem index d)) 1); [lia|reflexivity].
    + rewrite VD. apply coordinate_data_varying. lia.
    + rewrite S, DD, removelast_last.
      rewrite nth_error_app1
        by (rewrite length_map; apply nth_error_Some; congruence).
      rewrite nth_error_map, N. simpl. rewrite VD, coordinate_data_size. reflexivity.
  - intros k c I G. destruct (ENT k c I G) as [D VD]. split.
    + rewrite VD. apply coordinate_data_size.
    + rewrite D. unfold coordinate_dimensions.
      destruct (Nat.eqb_spec (List.length (getitem index k)) 1); split;
        auto; try discriminate; try contradiction.
Qed.

Lemma constructed_dimension_coordinates_witness :
  exists c,
    od_get "number" (dv_coordinates sample_t_variable) = Some c /\
    var_dimensions c = ["number"] /\
    nth_error (dv_shape sample_t_variable) 0 = Some (Z.of_nat (data_size (var_data c))).
Proof.
  destruct (proj1 (constructed_dimension_coordinates sample_t_index sample_stream
                     sample_t_variable sample_t_variable_constructed)
              0%nat "number" ltac:(vm_compute; reflexivity))
    as (c & G & D & _ & S).
  exists c. auto.
Defined.

Lemma header_coordinates_enforced index table : forall acc coordinates,
  header_coordinates index table acc = Ok coordinates ->
  forall coord_key attrs_keys key,
    In (coord_key, attrs_keys) table -> In key attrs_keys ->
    retained index coord_key = true ->
    (List.length (getitem index key) <= 1)%nat.
Proof.
  induction table as [|[ck aks] rest IH]; intros acc coordinates E coord_key attrs_keys
    key I J R; [destruct I|].
  destruct (simple_header_coordinate_cases index ck aks)
    as [[R' S]|[R' [[a S]|[k' [vs S]]]]].
  - rewrite header_coordinates_skip in E by exact R'.
    destruct I as [EQ|I]; [inversion EQ; subst; congruence|].
    now apply (IH _ _ E coord_key attrs_keys key).
  - simpl in E. rewrite S in E. destruct I as [EQ|I].
    + inversion EQ; subst; clear EQ.
      unfold simple_header_coordinate in S.
      destruct (is_undef_only (getitem index coord_key)); [discriminate|].
      destruct (enforce_unique_attributes index attrs_keys) as [a'|] eqn:EA;
        simpl in S; [|discriminate].
      apply enforce_loop_ok in EA. destruct EA as [B _]. now apply B.
    + now apply (IH _ _ E coord_key attrs_keys key).
  - simpl in E. rewrite S in E. discriminate.
Qed.

(** X10.  The constructor of [DataVariable] raises on a stream without
    records; and an attribute key for which the index reports two or
    more values aborts it, be it a variable attribute, a spatial
    attribute, a geometry key of the grid type of the first record, or a
    key associated with a header coordinate that is retained. *)
Theorem attrs_post_init_raises (index : Index) (stream : Stream) :
  (stream_messages stream = [] ->
   attrs_post_init index stream = Raise StopIteration) /\
  (forall key,
     In key (VARIABLE_ATTRIBUTES_KEYS ++ SPATIAL_COORDINATES_ATTRIBUTES_KEYS) ->
     (2 <= List.length (getitem index key))%nat ->
     exists e, attrs_post_init index stream = Raise e) /\
  (forall leader grid_type key,
     hd_error (stream_messages stream) = Some leader ->
     message_getitem leader "gridType" = Ok grid_type ->
     In key (grid_type_keys grid_type) ->
     (2 <= List.length (getitem index key))%nat ->
     exists e, attrs_post_init index stream = Raise e) /\
  (forall coord_key attrs_keys key,
     In (coord_key, attrs_keys) HEADER_COORDINATES_MAP ->
     In key attrs_keys ->
     retained index coord_key = true ->
     (2 <= List.length (getitem index key))%nat ->
     exists e, attrs_post_init index stream = Raise e).
Proof.
  split; [|split; [|split]].
  - intro M. unfold attrs_post_init. rewrite M. reflexivity.
  - intros key I L.
    destruct (attrs_post_init index stream) as [dv|e] eqn:E; [|eauto]. exfalso.
    apply attrs_post_init_ok in E.
    destruct E as (leader & attributes & grid_type & spatial & coordinates & sizes & n
                   & _ & A & _ & S & _).
    apply enforce_loop_ok in A. destruct A as [BA _].
    apply enforce_loop_ok in S. destruct S as [BS _].
    apply in_app_or in I. destruct I as [I|I].
    + apply BA in I. lia.
    + assert (J : In key (SPATIAL_COORDINATES_ATTRIBUTES_KEYS
                            ++ grid_type_keys grid_type))
        by (apply in_or_app; now left).
      apply BS in J. lia.
  - intros leader grid_type key H G I L.
    destruct (attrs_post_init index stream) as [dv|e] eqn:E; [|eauto]. exfalso.
    apply attrs_post_init_ok in E.
    destruct E as (leader' & attributes & grid_type' & spatial & coordinates & sizes & n
                   & H' & _ & G' & S & _).
    assert (leader' = leader) by congruence. subst leader'.
    assert (grid_type' = grid_type) by congruence. subst grid_type'.
    apply enforce_loop_ok in S. destruct S as [BS _].
    assert (J : In key (SPATIAL_COORDINATES_ATTRIBUTES_KEYS
                          ++ grid_type_keys grid_type))
      by (apply in_or_app; now right).
    apply BS in J. lia.
  - intros coord_key attrs_keys key I J R L.
    destruct (attrs_post_init index stream) as [dv|e] eqn:E; [|eauto]. exfalso.
    apply attrs_post_init_ok in E.
    destruct E as (leader & attributes & grid_type & spatial & coordinates & sizes & n
                   & _ & _ & _ & _ & C & _).
    pose proof (header_coordinates_enforced _ _ _ _ C coord_key attrs_keys key I J R).
    lia.
Qed.

Lemma attrs_post_init_raises_witness :
  exists e, attrs_post_init sample_index sample_stream = Raise e.
Proof.
  apply (proj1 (proj2 (attrs_post_init_raises sample_index sample_stream)) "paramId").
  - simpl. auto.
  - vm_compute. lia.
Defined.

(** ** More on materialisation *)

Lemma broadcast_row_length n values row :
  broadcast_row n values = Ok row -> List.length row = n.
Proof.
  unfold broadcast_row. destruct (Nat.eqb_spec (List.length values) n) as [L|L].
  - intro E. inversion E; subst. reflexivity.
  - destruct values as [|v [|w l]]; try discriminate.
    intro E. inversion E; subst. apply repeat_length.
Qed.

Lemma item_row_length self item row :
  item_row self item = Ok row -> List.length row = row_length (dv_shape self).
Proof.
  unfold item_row. intro E.
  apply bind_ok in E. destruct E as [off [_ E]].
  apply bind_ok in E. destruct E as [msg [_ E]].
  now apply broadcast_row_length in E.
Qed.

(** The loop of [build_array] goes through exactly when every item can
    be placed. *)
Lemma fold_place_each self items : forall data reads st,
  fold_result (place self) items (data, reads) = Ok st ->
  nd_shape data = dv_shape self ->
  nd_dtype data = dv_dtype self ->
  forall item, In item items ->
    exists pos row,
      header_indexes_of self (fst item) = Ok pos /\
      in_bounds pos (dv_shape self) = true /\
      item_row self item = Ok row.
Proof.
  induction items as [|x items IH]; intros data reads st E S D item I; [destruct I|].
  simpl in E. apply bind_ok in E. destruct E as [[data1 reads1] [P E]].
  pose proof P as P0.
  apply place_ok in P; auto.
  destruct P as (pos & off & row & HP & HO & HR & S1 & D1 & _).
  simpl in S1, D1.
  destruct I as [<-|I]; [|now apply (IH _ _ _ E S1 D1)].
  exists pos, row. split; [exact HP|]. split; [|exact HR].
  unfold place in P0. destruct x as [hv offs]. simpl in HP. rewrite HP in P0.
  simpl in P0. simpl in HO. rewrite HO in P0. simpl in P0.
  destruct (fromfile (dv_stream self) off); simpl in P0; [|discriminate].
  unfold setitem in P0. rewrite S in P0.
  destruct (in_bounds pos (dv_shape self)); [reflexivity | discriminate].
Qed.

Lemma fold_place_total self items : forall data reads,
  nd_shape data = dv_shape self ->
  nd_dtype data = dv_dtype self ->
  (forall item, In item items ->
     exists pos row,
       header_indexes_of self (fst item) = Ok pos /\
       in_bounds pos (dv_shape self) = true /\
       item_row self item = Ok row) ->
  exists st, fold_result (place self) items (data, reads) = Ok st.
Proof.
  induction items as [|x items IH]; intros data reads S D A; [simpl; eauto|].
  destruct (A x (or_introl eq_refl)) as (pos & row & HP & HB & HR).
  assert (P : exists data1,
             place self (data, reads) x
             = Ok (data1, reads ++ match snd x with o :: _ => [o] | [] => [] end) /\
             nd_shape data1 = dv_shape self /\ nd_dtype data1 = dv_dtype self).
  { unfold place. destruct x as [hv offs]. simpl in *. rewrite HP. simpl.
    unfold item_row in HR. simpl in HR.
    destruct offs as [|o os]; simpl in *; [discriminate|].
    destruct (fromfile (dv_stream self) o) as [msg|]; simpl in *; [|discriminate].
    unfold setitem. rewrite S, HB, D, HR. simpl. eexists. split; [reflexivity|].
    simpl. auto. }
  destruct P as (data1 & P & S1 & D1). cbn [fold_result]. rewrite P. simpl.
  apply IH; auto. intros item I. apply A. now right.
Qed.

(** X11.  [build_array] returns exactly when no dimension is negative
    and every bucket of the index can be placed: its header tuple has a
    position along every dimension, within the shape, and the record at
    its first offset can be read and holds as many values as a row, or
    one. *)
Theorem build_array_returns_iff (self : DataVariable) :
  (exists arr, build_array self = Ok arr) <->
  forallb (fun d => (0 <=? d)%Z) (dv_shape self) = true /\
  forall item, In item (offsets (dv_index self)) ->
    exists pos row,
      header_indexes_of self (fst item) = Ok pos /\
      in_bounds pos (dv_shape self) = true /\
      item_row self item = Ok row.
Proof.
  split.
  - intros [arr E]. apply build_array_ok in E. destruct E as [reads E].
    apply build_array_trace_ok in E. destruct E as (full & placed & F & P & _).
    split.
    + unfold np_full in F. destruct (forallb _ (dv_shape self)); [reflexivity|].
      discriminate.
    + apply np_full_ok in F. destruct F as (S & D & _).
      intros item I. apply (fold_place_each _ _ _ _ _ P S D).
      now apply sorted_items_In.
  - intros [N A]. unfold build_array, build_array_trace, np_full. rewrite N. simpl.
    destruct (fold_place_total self (sorted_items (offsets (dv_index self)))
                {| nd_shape := dv_shape self; nd_dtype := dv_dtype self;
                   nd_fill := nan; nd_assigned := [] |} [] eq_refl eq_refl)
      as [st E].
    + intros item I. apply A. now apply (proj1 (sorted_items_In _ _)).
    + rewrite E. simpl. eauto.
Qed.

Lemma build_array_returns_iff_witness :
  exists arr, build_array sample_t_variable = Ok arr.
Proof.
  apply (proj2 (build_array_returns_iff sample_t_variable)). split.
  - vm_compute. reflexivity.
  - intros item I. vm_compute in I.
    destruct I as [<-|[<-|[]]]; eexists; eexists;
      (split; [vm_compute; reflexivity|]);
      (split; [vm_compute; reflexivity|]); vm_compute; reflexivity.
Defined.

(** X12.  The array [build_array] returns has the shape and the element
    type of the variable, and every row of it, written or not, has the
    length of the trailing dimension. *)
Theorem build_array_rows (self : DataVariable) (arr : ndarray) :
  build_array self = Ok arr ->
  nd_shape arr = dv_shape self /\
  nd_dtype arr = dv_dtype self /\
  forall p, List.length (nd_row arr p) = row_length (dv_shape self).
Proof.
  intro E. apply build_array_ok in E. destruct E as [reads E].
  apply build_array_trace_ok in E. destruct E as (full & placed & F & P & ->).
  pose proof (np_full_ok _ _ _ F) as (S & D & R).
  pose proof (fold_place _ _ _ _ _ P S D) as (S' & D' & _ & _ & U & L).
  simpl in S', D', U, L.
  split; [exact S'|]. split; [exact D'|]. intro p.
  rewrite nd_row_mask, length_map.
  destruct (last_at_position self p (sorted_items (offsets (dv_index self))))
    as [N|(l1 & item & l2 & EQ & A & F')].
  - rewrite (U p N), R. apply repeat_length.
  - apply (item_row_length self item). now apply (L l1 item l2 p).
Qed.

Lemma build_array_rows_witness :
  List.length (nd_row (built (build_array sample_t_variable)) [7%nat])
  = row_length (dv_shape sample_t_variable).
Proof.
  apply (build_array_rows sample_t_variable (built (build_array sample_t_variable))).
  vm_compute. reflexivity.
Defined.

(** X13.  A payload of a single value is broadcast: when the only
    bucket placed at a multi-index has a record with one value at its
    first offset, the row holds that value, at the element type of the
    array and masked, repeated along the whole trailing dimension. *)
Theorem single_value_is_broadcast (self : DataVariable) (arr : ndarray)
  (header_values : list value) (offset : Z) (rest : list Z) (message : Message)
  (x : spec_float) (p : list nat) :
  build_array self = Ok arr ->
  In (header_values, offset :: rest) (offsets (dv_index self)) ->
  header_indexes_of self header_values = Ok p ->
  (forall item, In item (offsets (dv_index self)) ->
                header_indexes_of self (fst item) = Ok p ->
                item = (header_values, offset :: rest)) ->
  fromfile (dv_stream self) offset = Ok message ->
  msg_values message = [x] ->
  nd_row arr p
  = repeat (mask_element (missing_value_of self) (cast (dv_dtype self) x))
      (row_length (dv_shape self)).
Proof.
  intros E I P U M V.
  apply build_array_ok in E. destruct E as [reads E].
  destruct (build_array_row self arr reads p E)
    as (l1 & item & l2 & row & S & A & _ & R & ->).
  { exists (header_values, offset :: rest). split; [exact I|].
    now apply at_position_iff. }
  assert (J : In item (offsets (dv_index self))).
  { apply sorted_items_In. rewrite S. apply in_elt. }
  apply at_position_iff in A. rewrite (U item J A) in R.
  unfold item_row in R. simpl in R. rewrite M in R. simpl in R. rewrite V in R.
  cbn [map] in R. unfold broadcast_row in R. cbn [List.length] in R.
  destruct (Nat.eqb_spec 1 (row_length (dv_shape self))) as [L|L].
  - injection R as <-. rewrite <- L. reflexivity.
  - injection R as <-. now rewrite map_repeat.
Qed.

Lemma single_value_is_broadcast_witness :
  nd_row (built (build_array mixed_grid_variable)) []
  = repeat (mask_element (missing_value_of mixed_grid_variable)
              (cast (dv_dtype mixed_grid_variable) (double_of_Z 7)))
      (row_length (dv_shape mixed_grid_variable)).
Proof.
  apply (single_value_is_broadcast mixed_grid_variable
           (built (build_array mixed_grid_variable))
           (header_values_of ALL_KEYS (point_message 100 131 "u" 7))
           100%Z [] (point_message 100 131 "u" 7)).
  - vm_compute. reflexivity.
  - vm_compute. auto.
  - vm_compute. reflexivity.
  - intros item I P. vm_compute in I. destruct I as [<-|[]]. vm_compute. reflexivity.
  - vm_compute. reflexivity.
  - reflexivity.
Defined.

Lemma list_index_lt {A : Type} (eqb : A -> A -> bool) (x : A) (l : list A) (i : nat) :
  list_index eqb x l = Some i -> (i < List.length l)%nat.
Proof.
  revert i. induction l as [|y l IH]; simpl; intros i E; [discriminate|].
  destruct (eqb x y).
  - inversion E. lia.
  - destruct (list_index eqb x l) as [j|]; [|discriminate].
    inversion E. specialize (IH j eq_refl). lia.
Qed.

Lemma list_index_value_In (v : value) (l : list value) :
  In v l -> exists j, list_index value_eqb v l = Some j.
Proof.
  induction l as [|y l IH]; simpl; intro I; [contradiction|].
  destruct (value_eqb v y) eqn:E; [eauto|].
  destruct I as [->|I]; [rewrite value_eqb_refl in E; discriminate|].
  destruct (IH I) as [j ->]. eauto.
Qed.

Lemma list_index_int_in_strings (z : Z) (l : list value) :
  list_index value_eqb (VInt z) (map (fun v => VStr (py_str v)) l) = None.
Proof.
  induction l as [|y l IH]; simpl; [reflexivity|]. now rewrite IH.
Qed.

Lemma column_In i (buckets : list (list value * list Z)) hv bucket v :
  In (hv, bucket) buckets -> nth_error hv i = Some v -> In v (column i buckets).
Proof.
  intros I N. unfold column. apply in_flat_map. exists (hv, bucket).
  split; [exact I|]. simpl. rewrite N. simpl. auto.
Qed.

Lemma getitem_position index key :
  getitem index key <> [] ->
  exists i,
    list_index String.eqb key (index_keys index) = Some i /\
    getitem index key = distinct_values (column i (offsets index)).
Proof.
  unfold getitem. destruct (list_index String.eqb key (index_keys index)) as [i|];
    [eauto | congruence].
Qed.

Lemma map_result_each {A B : Type} (f : A -> result B) (l : list A) (ys : list B) :
  map_result f l = Ok ys -> forall x, In x l -> exists y, f x = Ok y.
Proof.
  revert ys. induction l as [|a l IH]; simpl; intros ys E x I; [contradiction|].
  apply bind_ok in E. destruct E as [y [Y E]].
  apply bind_ok in E. destruct E as [ys' [YS _]].
  destruct I as [<-|I]; [eauto | now apply (IH ys')].
Qed.

(** A dimension of a constructed variable, other than ['i'], and its
    coordinate variable. *)
Lemma dimension_coordinate index stream self d :
  attrs_post_init index stream = Ok self ->
  In d (removelast (dv_dimensions self)) ->
  (2 <= List.length (getitem index d))%nat /\
  dv_index self = index /\
  dv_stream self = stream /\
  exists c,
    od_get d (dv_coordinates self) = Some c /\
    var_data c = Values (np_array (getitem index d)).
Proof.
  intros E I.
  pose proof (constructed_dimensions index stream self E) as DD.
  pose proof (coordinate_present_iff index stream self) as P.
  specialize (fun k => P k E).
  rewrite DD, removelast_last in I.
  apply filter_In in I. destruct I as [I R]. apply andb_true_iff in R.
  destruct R as [R V]. unfold varying in V. apply Nat.ltb_lt in V.
  apply attrs_post_init_ok in E.
  destruct E as (leader & attributes & grid_type & spatial & coordinates & sizes & n
                 & _ & _ & _ & _ & C & _ & _ & DI & DS & _ & _ & _ & _ & CS).
  split; [lia|]. split; [exact DI|]. split; [exact DS|].
  destruct (od_get d (dv_coordinates self)) as [c|] eqn:G;
    [|exfalso; apply (proj2 (P d I)) in R; congruence].
  exists c. split; [reflexivity|].
  rewrite CS in G. destruct (header_keys_closed d I) as (N1 & N2 & _).
  rewrite !(od_get_set_other string_key_eq) in G by assumption.
  destruct (header_coordinates_entries _ _ _ _ C d c G)
    as [L|(_ & _ & VD & _)]; [discriminate|].
  rewrite VD. apply coordinate_data_varying. lia.
Qed.

(** X14.  A dimension whose values mix integers with a string, such as
    the sentinel ['undef'], cannot be materialised: NumPy turns the
    coordinate into an array of strings, an integer header value is then
    not found in it, and [build_array] raises. *)
Theorem mixed_coordinate_fails (index : Index) (stream : Stream) (self : DataVariable)
  (d s : string) (header_values : list value) (bucket : list Z) (i : nat) (z : Z) :
  attrs_post_init index stream = Ok self ->
  In d (removelast (dv_dimensions self)) ->
  In (VStr s) (getitem index d) ->
  In (header_values, bucket) (offsets index) ->
  list_index String.eqb d (index_keys index) = Some i ->
  nth_error header_values i = Some (VInt z) ->
  exists e, build_array self = Raise e.
Proof.
  intros E I S J L N.
  destruct (dimension_coordinate index stream self d E I)
    as (_ & DI & _ & c & G & VD).
  destruct (build_array self) as [arr|e] eqn:B; [|eauto]. exfalso.
  apply build_array_ok in B. destruct B as [reads B].
  apply build_array_trace_ok in B. destruct B as (full & placed & F & P & _).
  apply np_full_ok in F. destruct F as (SH & DT & _).
  destruct (fold_place_each _ _ _ _ _ P SH DT (header_values, bucket))
    as (pos & row & HP & _).
  { apply sorted_items_In. now rewrite DI. }
  unfold header_indexes_of in HP. simpl in HP.
  destruct (map_result_each _ _ _ HP d I) as [j HJ].
  unfold header_index in HJ. rewrite DI, L in HJ. simpl in HJ.
  rewrite N in HJ. simpl in HJ. rewrite G in HJ. simpl in HJ.
  rewrite VD in HJ. simpl in HJ.
  assert (M : np_array (getitem index d)
              = map (fun v => VStr (py_str v)) (getitem index d)).
  { unfold np_array. destruct (forallb is_int (getitem index d)) eqn:X; [|reflexivity].
    rewrite forallb_forall in X. apply X in S. discriminate. }
  rewrite M, list_index_int_in_strings in HJ. discriminate.
Qed.

Lemma mixed_coordinate_fails_witness :
  exists e, build_array mixed_number_variable = Raise e.
Proof.
  apply (mixed_coordinate_fails
           (subindex (stream_index mixed_number_stream ALL_KEYS) "paramId" (VInt 130))
           mixed_number_stream mixed_number_variable "number" "undef"
           (header_values_of ALL_KEYS (sample_message 0 130 "t" 0 [1; 2]%Z))
           [0%Z] 37%nat 0%Z).
  - vm_compute. reflexivity.
  - vm_compute. auto.
  - vm_compute. auto.
  - vm_compute. auto.
  - vm_compute. reflexivity.
  - vm_compute. reflexivity.
Defined.

Lemma header_index_found index stream self d hv bucket :
  attrs_post_init index stream = Ok self ->
  In d (removelast (dv_dimensions self)) ->
  In (hv, bucket) (offsets index) ->
  List.length hv = List.length (index_keys index) ->
  np_array (getitem index d) = getitem index d ->
  exists j,
    header_index self hv d = Ok j /\ (j < List.length (getitem index d))%nat.
Proof.
  intros E I J LEN H.
  destruct (dimension_coordinate index stream self d E I)
    as (V & DI & _ & c & G & VD).
  destruct (getitem_position index d) as (i & L & GI).
  { intro X. rewrite X in V. simpl in V. lia. }
  pose proof (list_index_lt _ _ _ _ L) as LT.
  destruct (nth_error hv i) as [v|] eqn:N;
    [|apply nth_error_None in N; lia].
  assert (IV : In v (getitem index d)).
  { rewrite GI. apply distinct_values_spec. now apply (column_In i _ hv bucket). }
  destruct (list_index_value_In v _ IV) as [j LJ].
  exists j. split; [|now apply (list_index_lt value_eqb v)].
  unfold header_index. rewrite DI, L. simpl. rewrite N. simpl. rewrite G. simpl.
  rewrite VD. simpl. rewrite H, LJ. reflexivity.
Qed.

Lemma positions_in_bounds (f : string -> result nat) (size : string -> nat)
  (l : list string) (n : Z) :
  (forall d, In d l -> exists j, f d = Ok j /\ (j < size d)%nat) ->
  exists pos,
    map_result f l = Ok pos /\
    in_bounds pos (map (fun k => Z.of_nat (size k)) l ++ [n]) = true.
Proof.
  induction l as [|d l IH]; intro A; simpl.
  - exists []. auto.
  - destruct (A d (or_introl eq_refl)) as (j & -> & LT).
    destruct IH as (pos & -> & B); [intros d' I; apply A; now right|].
    exists (j :: pos). simpl. split; [reflexivity|].
    rewrite B, andb_true_r. apply Z.ltb_lt. lia.
Qed.

(** X15.  [build_array] returns for a constructed variable as soon as
    its trailing dimension is not negative, no dimension mixes integers
    and strings, every header tuple of the index has the length of the
    schema, and the record at the first offset of every bucket can be
    read and holds as many values as a row, or one. *)
Theorem constructed_build_array_returns (index : Index) (stream : Stream)
  (self : DataVariable) :
  attrs_post_init index stream = Ok self ->
  (0 <= last (dv_shape self) 0)%Z ->
  (forall d, In d (removelast (dv_dimensions self)) ->
             np_array (getitem index d) = getitem index d) ->
  (forall header_values bucket,
     In (header_values, bucket) (offsets index) ->
     List.length header_values = List.length (index_keys index) /\
     exists offset rest message,
       bucket = offset :: rest /\
       fromfile stream offset = Ok message /\
       (List.length (msg_values message) = row_length (dv_shape self) \/
        List.length (msg_values message) = 1%nat)) ->
  exists arr, build_array self = Ok arr.
Proof.
  intros E N H W.
  destruct (constructed_shape index stream self E) as [n S].
  assert (DI : dv_index self = index /\ dv_stream self = stream).
  { apply attrs_post_init_ok in E.
    destruct E as (leader & attributes & grid_type & spatial & coordinates & sizes & n'
                   & _ & _ & _ & _ & _ & _ & _ & DI & DS & _). auto. }
  destruct DI as [DI DS].
  assert (LN : last (dv_shape self) 0%Z = n) by (rewrite S; apply last_last).
  unfold build_array, build_array_trace, np_full.
  assert (NN : forallb (fun d => (0 <=? d)%Z) (dv_shape self) = true).
  { rewrite S, forallb_app. simpl. rewrite andb_true_r. apply andb_true_iff. split.
    - apply forallb_forall. intros x I. apply in_map_iff in I.
      destruct I as [k [<- _]]. apply Z.leb_le. lia.
    - apply Z.leb_le. lia. }
  rewrite NN. simpl.
  destruct (fold_place_total self (sorted_items (offsets (dv_index self)))
              {| nd_shape := dv_shape self; nd_dtype := dv_dtype self;
                 nd_fill := nan; nd_assigned := [] |} [] eq_refl eq_refl)
    as [st F].
  - intros [hv bucket] I. apply (proj1 (sorted_items_In _ _)) in I. rewrite DI in I.
    destruct (W hv bucket I) as (LEN & off & rest & msg & -> & M & PL).
    destruct (positions_in_bounds (header_index self hv)
                (fun k => List.length (getitem index k))
                (removelast (dv_dimensions self)) n) as (pos & P & B).
    { intros d J. apply (header_index_found index stream self d hv (off :: rest));
        auto. }
    exists pos. simpl.
    assert (R : exists row,
               broadcast_row (row_length (dv_shape self))
                 (map (cast (dv_dtype self)) (msg_values msg)) = Ok row).
    { unfold broadcast_row. rewrite length_map.
      destruct (Nat.eqb_spec (List.length (msg_values msg))
                  (row_length (dv_shape self))); [eauto|].
      destruct PL as [PL|PL]; [contradiction|].
      destruct (msg_values msg) as [|x [|y l]]; simpl in PL; try discriminate.
      simpl. eauto. }
    destruct R as [row R]. exists row. split; [exact P|].
    split; [rewrite S; exact B|].
    unfold item_row. simpl. rewrite DS, M. simpl. exact R.
  - rewrite F. simpl. eauto.
Qed.

Lemma constructed_build_array_returns_witness :
  exists arr, build_array sample_t_variable = Ok arr.
Proof.
  apply (constructed_build_array_returns sample_t_index sample_stream
           sample_t_variable sample_t_variable_constructed).
  - vm_compute. discriminate.
  - intros d I. vm_compute in I. destruct I as [<-|[]]. vm_compute. reflexivity.
  - intros hv bucket I. vm_compute in I.
    destruct I as [I|[I|[]]]; injection I as <- <-.
    + split; [vm_compute; reflexivity|].
      exists 0%Z, [], (sample_message 0 130 "t" 0 [1; 2]%Z).
      split; [reflexivity|]. split; [vm_compute; reflexivity|].
      left. vm_compute. reflexivity.
    + split; [vm_compute; reflexivity|].
      exists 100%Z, [], (sample_message 100 130 "t" 1 [3; 9999]%Z).
      split; [reflexivity|]. split; [vm_compute; reflexivity|].
      left. vm_compute. reflexivity.
Defined.

Lemma getitem_no_bucket index key : offsets index = [] -> getitem index key = [].
Proof.
  intro O. unfold getitem. rewrite O.
  destruct (list_index String.eqb key (index_keys index)); reflexivity.
Qed.

Lemma enforce_unique_attributes_no_bucket index keys :
  offsets index = [] -> enforce_unique_attributes index keys = Ok [].
Proof.
  intro O. unfold enforce_unique_attributes.
  induction keys as [|k keys IH]; simpl; [reflexivity|].
  now rewrite (getitem_no_bucket index k O).
Qed.

(** X16.  On an index without buckets, the sub-index of a parameter id
    that the file does not hold, the constructor still builds a
    variable from the first record of the stream: its only dimension is
    ['i'], no header value is an attribute, and its array is read
    without decoding any record and holds NaN everywhere. *)
Theorem empty_index_variable (index : Index) (stream : Stream) (leader : Message)
  (grid_type : value) (n : Z) :
  offsets index = [] ->
  hd_error (stream_messages stream) = Some leader ->
  message_getitem leader "gridType" = Ok grid_type ->
  message_get_long leader "numberOfPoints" = Ok n ->
  exists dv,
    attrs_post_init index stream = Ok dv /\
    dv_dimensions dv = ["i"] /\
    dv_shape dv = [n] /\
    dv_attributes dv
    = [("coordinates", VStr "number dataDate dataTime endStep topLevel lat lon")] /\
    ((0 <= n)%Z ->
     exists arr,
       build_array_trace dv = Ok (arr, []) /\
       forall p, nd_row arr p = repeat nan (Z.to_nat n)).
Proof.
  intros O L G N.
  assert (C : header_coordinates index HEADER_COORDINATES_MAP []
              = Ok (map (fun k => (k, {| var_dimensions := [k];
                                         var_data := Values [];
                                         var_attributes := [] |}))
                      ["number"; "dataDate"; "dataTime"; "endStep"; "topLevel"])).
  { unfold HEADER_COORDINATES_MAP. cbn [header_coordinates].
    unfold simple_header_coordinate.
    rewrite !(getitem_no_bucket index _ O).
    rewrite !(enforce_unique_attributes_no_bucket index _ O). reflexivity. }
  unfold attrs_post_init. rewrite L. cbn [of_option bind].
  rewrite (enforce_unique_attributes_no_bucket index _ O). cbn [bind].
  rewrite G. cbn [bind].
  rewrite (enforce_unique_attributes_no_bucket index _ O). cbn [bind].
  rewrite C. cbn [bind].
  match goal with
  | |- context [map_result ?f ?l] =>
      replace (map_result f l) with (Ok (@nil Z) : result (list Z))
        by reflexivity
  end.
  cbn [bind]. rewrite N. cbn [bind].
  eexists. split; [reflexivity|]. cbn [dv_dimensions dv_shape dv_attributes].
  split; [reflexivity|]. split; [reflexivity|]. split; [reflexivity|].
  intro NN. unfold build_array_trace, np_full.
  cbn [dv_shape dv_dtype dv_index app forallb].
  rewrite (proj2 (Z.leb_le 0 n) NN). cbn [andb bind].
  rewrite O. cbn [sorted_items fold_right fold_result bind fst snd].
  eexists. split; [reflexivity|]. intro p. rewrite nd_row_mask.
  unfold nd_row. cbn [nd_assigned find nd_fill nd_shape].
  apply map_mask_nan.
Qed.

Lemma empty_index_variable_witness :
  exists dv,
    DataVariable_fromstream (VInt 999) sample_stream = Ok dv /\
    dv_dimensions dv = ["i"] /\ dv_shape dv = [2%Z].
Proof.
  destruct (empty_index_variable
              (subindex (stream_index sample_stream ALL_KEYS) "paramId" (VInt 999))
              sample_stream (sample_message 0 130 "t" 0 [1; 2]%Z)
              (VStr "regular_ll") 2%Z)
    as (dv & E & D & S & _).
  - vm_compute. reflexivity.
  - reflexivity.
  - reflexivity.
  - reflexivity.
  - exists dv. auto.
Defined.

(** ** More on the dataset builder *)

Section DictMergeKeeps.
Context {K V : Type} `{Key K}.
Hypothesis key_ok : forall a b : K, key_eqb a b = true <-> a = b.
Variable value_eq : V -> V -> bool.

Lemma dict_merge_extends (update master master' : odict K V) (r : option K) :
  dict_merge value_eq master update = (master', r) ->
  (forall k v, od_get k master = Some v -> od_get k master' = Some v) /\
  exists added,
    od_keys master' = od_keys master ++ added /\
    forall k, In k added -> In k (od_keys update) /\ od_get k master = None.
Proof.
  revert master. induction update as [|[k0 v0] rest IH]; intros master E; simpl in E.
  - inversion E; subst. split; [auto|]. exists []. rewrite app_nil_r.
    split; [reflexivity|]. intros k [].
  - destruct (od_get k0 master) as [v0'|] eqn:G0.
    + destruct (value_eq v0' v0).
      * destruct (IH master E) as (Keep & added & KA & F).
        split; [exact Keep|]. exists added. split; [exact KA|].
        intros k I. destruct (F k I). split; [now right | assumption].
      * inversion E; subst. split; [auto|]. exists []. rewrite app_nil_r.
        split; [reflexivity|]. intros k [].
    + destruct (IH (od_set k0 v0 master) E) as (Keep & added & KA & F).
      rewrite (od_set_absent k0 v0 master G0) in *.
      split.
      * intros k v G. apply Keep. rewrite od_get_app, G. reflexivity.
      * exists (k0 :: added). split.
        -- rewrite KA. unfold od_keys. rewrite map_app, <- app_assoc. reflexivity.
        -- intros k [<-|I]; [split; [now left | exact G0]|].
           destruct (F k I) as [J N]. split; [now right|].
           rewrite od_get_app in N. destruct (od_get k master); congruence.
Qed.
End DictMergeKeeps.

(** X17.  [dict_merge] never touches what the master holds: whether it
    returns or raises, every key that was present keeps its value and
    its place, and the keys it has added come last, each a key of the
    update that was absent from the master. *)
Theorem dict_merge_keeps_master (V : Type) (value_eq : V -> V -> bool)
  (master update master' : odict string V) (raised : option string) :
  dict_merge value_eq master update = (master', raised) ->
  (forall k v, od_get k master = Some v -> od_get k master' = Some v) /\
  exists added,
    od_keys master' = od_keys master ++ added /\
    forall k, In k added -> In k (od_keys update) /\ od_get k master = None.
Proof.
  intro E. destruct (dict_merge_extends value_eq update master master' raised E)
    as (Keep & added & KA & F).
  split; [exact Keep|]. exists added. split; [exact KA | exact F].
Qed.

Lemma dict_merge_keeps_master_witness :
  od_get "number" [("number", 2%Z); ("i", 7%Z)] = Some 2%Z.
Proof.
  apply (proj1 (dict_merge_keeps_master Z Z.eqb
                  [("number", 2%Z)] [("i", 7%Z); ("number", 3%Z)]
                  [("number", 2%Z); ("i", 7%Z)] (Some "number") eq_refl)).
  reflexivity.
Defined.

Lemma stream_index_no_record stream keys :
  stream_messages stream = [] -> offsets (stream_index stream keys) = [].
Proof. intro M. unfold stream_index. rewrite M. reflexivity. Qed.

(** X18.  A stream without records gives an empty dataset and no
    error: no dimension, no variable, and the version of the package as
    the only attribute, whatever global attribute keys are asked for. *)
Theorem empty_stream_dataset (VERSION : string) (stream : Stream)
  (keys : list string) (encode : bool) :
  stream_messages stream = [] ->
  build_dataset_components VERSION stream keys
  = Ok ([], [], [("eccodesGribVersion", VStr VERSION)]) /\
  Dataset_attrs_post_init VERSION stream encode
  = Ok {| ds_stream := stream;
          ds_encode := encode;
          ds_dimensions := [];
          ds_variables := [];
          ds_attributes := [("eccodesGribVersion", VStr VERSION)] |}.
Proof.
  intro M.
  assert (B : forall ks, build_dataset_components VERSION stream ks
                         = Ok ([], [], [("eccodesGribVersion", VStr VERSION)])).
  { intro ks. unfold build_dataset_components. cbv zeta.
    pose proof (stream_index_no_record stream ALL_KEYS M) as O.
    rewrite !(getitem_no_bucket _ _ O). cbn [combine components_loop bind].
    rewrite (enforce_unique_attributes_no_bucket _ ks O). reflexivity. }
  split; [apply B|]. unfold Dataset_attrs_post_init. rewrite B. reflexivity.
Qed.

Lemma empty_stream_dataset_witness :
  build_dataset_components "0.8" {| stream_path := "empty.grib"; stream_messages := [] |}
    GLOBAL_ATTRIBUTES_KEYS
  = Ok ([], [], [("eccodesGribVersion", VStr "0.8")]).
Proof.
  apply (proj1 (empty_stream_dataset "0.8"
                  {| stream_path := "empty.grib"; stream_messages := [] |}
                  GLOBAL_ATTRIBUTES_KEYS true eq_refl)).
Defined.

(** X19.  The attributes of a dataset that is built hold the version of
    the package under ['eccodesGribVersion'], and under every other
    global key the single value the index of the whole file reports for
    it, if any; a global key with two or more values makes the build
    fail. *)
Theorem dataset_attributes (VERSION : string) (stream : Stream) (keys : list string) :
  let index := stream_index stream ALL_KEYS in
  (forall dimensions variables attributes,
     build_dataset_components VERSION stream keys
     = Ok (dimensions, variables, attributes) ->
     od_get "eccodesGribVersion" attributes = Some (VStr VERSION) /\
     forall key,
       key <> "eccodesGribVersion" ->
       od_get key attributes
       = if existsb (String.eqb key) keys then hd_error (getitem index key)
         else None) /\
  ((exists key, In key keys /\ (2 <= List.length (getitem index key))%nat) ->
   exists e, build_dataset_components VERSION stream keys = Raise e).
Proof.
  intro index.
  assert (A : forall dimensions variables attributes,
             build_dataset_components VERSION stream keys
             = Ok (dimensions, variables, attributes) ->
             exists global,
               enforce_unique_attributes index keys = Ok global /\
               attributes = od_set "eccodesGribVersion" (VStr VERSION) global).
  { unfold build_dataset_components. cbv zeta. intros d v a E.
    apply bind_ok in E. destruct E as [dv [_ E]].
    apply bind_ok in E. destruct E as [global [G E]].
    inversion E; subst. eauto. }
  split.
  - intros d v a E. destruct (A d v a E) as (global & G & ->). split.
    + apply (od_get_set_same string_key_eq).
    + intros key NE. rewrite (od_get_set_other string_key_eq) by exact NE.
      unfold enforce_unique_attributes in G. apply enforce_loop_ok in G.
      destruct G as (_ & G & _). rewrite G. simpl.
      destruct (if existsb (String.eqb key) keys then _ else _); reflexivity.
  - intros (key & I & L).
    destruct (build_dataset_components VERSION stream keys)
      as [[[d v] a]|e] eqn:E; [|eauto]. exfalso.
    destruct (A d v a eq_refl) as (global & G & _).
    unfold enforce_unique_attributes in G. apply enforce_loop_ok in G.
    destruct G as (B & _). apply B in I. lia.
Qed.

Lemma dataset_attributes_witness :
  exists e, build_dataset_components "0.8" sample_stream ["paramId"] = Raise e.
Proof.
  apply (proj2 (dataset_attributes "0.8" sample_stream ["paramId"])).
  exists "paramId". split; [simpl; auto | vm_compute; lia].
Defined.

Section OrderedDictUpdate.
Context {K V : Type} `{Key K}.
Hypothesis key_ok : forall a b : K, key_eqb a b = true <-> a = b.

Lemma od_update_keys_In (u d : odict K V) (x : K) :
  In x (od_keys (od_update d u)) -> In x (od_keys d) \/ In x (od_keys u).
Proof.
  unfold od_update. revert d. induction u as [|[k v] u IH]; simpl; intros d I;
    [now left|].
  apply IH in I. destruct I as [I|I]; [|tauto].
  apply od_set_keys_In in I. destruct I as [->|I]; [right; now left | now left].
Qed.

Lemma od_get_update_other (u d : odict K V) (k : K) :
  ~ In k (od_keys u) -> od_get k (od_update d u) = od_get k d.
Proof.
  unfold od_update. revert d. induction u as [|[k' v] u IH]; simpl; intros d N;
    [reflexivity|].
  rewrite IH by tauto. apply (od_get_set_other key_ok). intros ->. tauto.
Qed.
End OrderedDictUpdate.

Lemma variable_dims_In var d n :
  od_get d (variable_dims var) = Some n -> In d (dv_dimensions var).
Proof.
  intro G. apply (od_get_some_In string_key_eq) in G.
  unfold variable_dims, od_of_list in G. apply od_update_keys_In in G.
  destruct G as [[]|G]. unfold od_keys in G. apply in_map_iff in G.
  destruct G as [[k v] [<- I]]. simpl. now apply in_combine_l in I.
Qed.

Lemma components_loop_provenance stream index pairs :
  forall dimensions variables result,
    components_loop stream index pairs dimensions variables = Ok result ->
    forall d n,
      od_get d (fst result) = Some n ->
      od_get d dimensions = Some n \/
      exists param_id short_name var,
        In (param_id, short_name) pairs /\
        attrs_post_init (subindex index "paramId" param_id) stream = Ok var /\
        od_get d (variable_dims var) = Some n.
Proof.
  induction pairs as [|[p s] rest IH]; intros dimensions variables result E d n G.
  - simpl in E. inversion E; subst. now left.
  - simpl in E. apply bind_ok in E. destruct E as [var [C E]]. cbv zeta in E.
    apply bind_ok in E. destruct E as [dimensions' [MD E]].
    apply bind_ok in E. destruct E as [variables' [MV E]].
    apply raise_conflict_ok in MD.
    pose proof (dict_merge_spec string_key_eq Z.eqb (variable_dims var) dimensions
                  (od_of_list_keys_NoDup string_key_eq _)) as S.
    rewrite MD in S. destruct S as [_ L].
    destruct (IH _ _ _ E d n G) as [G'|(p' & s' & var' & I & C' & G')].
    + rewrite L in G'. destruct (od_get d dimensions) as [m|] eqn:GD.
      * left. exact G'.
      * right. exists p, s, var. simpl. auto.
    + right. exists p', s', var'. simpl. auto.
Qed.

Lemma constructed_dimension_names index stream dv d :
  attrs_post_init index stream = Ok dv ->
  In d (dv_dimensions dv) ->
  In d ["number"; "dataDate"; "dataTime"; "endStep"; "topLevel"; "i"].
Proof.
  intros E I. rewrite (constructed_dimensions _ _ _ E) in I.
  change ["number"; "dataDate"; "dataTime"; "endStep"; "topLevel"; "i"]
    with (["number"; "dataDate"; "dataTime"; "endStep"; "topLevel"] ++ ["i"]).
  apply in_app_or in I. apply in_or_app. destruct I as [J|J]; [left|now right].
  apply filter_In in J. exact (proj1 J).
Qed.

(** X20.  Every dimension of a dataset that is built is a dimension of
    one of the variables it was built from, with the size that variable
    declares; its name is one of number, dataDate, dataTime, endStep,
    topLevel and i. *)
Theorem dataset_dimensions_come_from_variables (VERSION : string) (stream : Stream)
  (keys : list string) (dimensions : odict string Z)
  (variables : odict value pyobj) (attributes : odict string value) :
  build_dataset_components VERSION stream keys
  = Ok (dimensions, variables, attributes) ->
  forall d n,
    od_get d dimensions = Some n ->
    In d ["number"; "dataDate"; "dataTime"; "endStep"; "topLevel"; "i"] /\
    exists param_id short_name var,
      In (param_id, short_name) (variable_pairs stream) /\
      variable_of stream param_id = Ok var /\
      od_get d (variable_dims var) = Some n.
Proof.
  unfold build_dataset_components. intros E d n G. cbv zeta in E.
  apply bind_ok in E. destruct E as [[dims vars] [L E]].
  apply bind_ok in E. destruct E as [attrs [A E]].
  inversion E; subst; clear E. simpl in G.
  destruct (components_loop_provenance _ _ _ _ _ _ L d n G)
    as [G'|(p & s & var & I & C & G')]; [discriminate|].
  split; [|exists p, s, var; auto].
  apply variable_dims_In in G'.
  exact (constructed_dimension_names _ _ _ d C G').
Qed.

Lemma dataset_dimensions_come_from_variables_witness :
  In "number" ["number"; "dataDate"; "dataTime"; "endStep"; "topLevel"; "i"].
Proof.
  apply (dataset_dimensions_come_from_variables "0.8" sample_stream
           GLOBAL_ATTRIBUTES_KEYS
           (fst (fst (built_components
              (build_dataset_components "0.8" sample_stream GLOBAL_ATTRIBUTES_KEYS))))
           (snd (fst (built_components
              (build_dataset_components "0.8" sample_stream GLOBAL_ATTRIBUTES_KEYS))))
           (snd (built_components
              (build_dataset_components "0.8" sample_stream GLOBAL_ATTRIBUTES_KEYS)))
           ltac:(vm_compute; reflexivity) "number" 2%Z).
  vm_compute. reflexivity.
Defined.

Lemma constructed_coordinate_names index stream dv k :
  attrs_post_init index stream = Ok dv ->
  In k (od_keys (dv_coordinates dv)) ->
  In k ["number"; "dataDate"; "dataTime"; "endStep"; "topLevel"; "lat"; "lon"].
Proof.
  intros E I. apply attrs_post_init_ok in E.
  destruct E as (leader & attributes & grid_type & spatial & coordinates & sizes & n
                 & _ & _ & _ & _ & C & _ & _ & _ & _ & _ & _ & _ & _ & CS).
  apply header_coordinates_retained in C.
  rewrite CS in I.
  change ["number"; "dataDate"; "dataTime"; "endStep"; "topLevel"; "lat"; "lon"]
    with (["number"; "dataDate"; "dataTime"; "endStep"; "topLevel"] ++ ["lat"; "lon"]).
  apply in_or_app.
  apply od_set_keys_In in I. destruct I as [->|I]; [right; simpl; auto|].
  apply od_set_keys_In in I. destruct I as [->|I]; [right; simpl; auto|].
  left. rewrite <- map_fst_key_data, C, map_map in I. cbn [fst] in I.
  rewrite map_id in I. apply filter_In in I. exact (proj1 I).
Qed.

Lemma variable_vars_keys short_name var k :
  In k (od_keys (variable_vars short_name var)) ->
  k = short_name \/ exists name, k = VStr name /\ In name (od_keys (dv_coordinates var)).
Proof.
  unfold variable_vars. intro I. apply od_update_keys_In in I.
  destruct I as [I|I].
  - left. simpl in I. destruct I as [<-|[]]. reflexivity.
  - right. unfold od_keys in I. rewrite map_map in I. apply in_map_iff in I.
    destruct I as [[name c] [<- I]]. simpl. exists name. split; [reflexivity|].
    unfold od_keys. apply in_map_iff. exists (name, c). auto.
Qed.

Lemma variable_vars_get short_name var :
  (forall name, In name (od_keys (dv_coordinates var)) -> short_name <> VStr name) ->
  od_get short_name (variable_vars short_name var) = Some (ODataVariable var).
Proof.
  intro N. unfold variable_vars.
  rewrite (od_get_update_other value_key_eq).
  - simpl. now rewrite value_eqb_refl.
  - unfold od_keys. rewrite map_map. intro I. apply in_map_iff in I.
    destruct I as [[name c] [EQ I]]. simpl in EQ.
    apply (N name); [|congruence].
    unfold od_keys. apply in_map_iff. exists (name, c). auto.
Qed.

Lemma variable_vars_NoDup short_name var :
  NoDup (od_keys (variable_vars short_name var)).
Proof.
  unfold variable_vars. apply (od_update_keys_NoDup value_key_eq).
  apply (od_of_list_keys_NoDup value_key_eq).
Qed.

Lemma components_loop_keeps stream index pairs :
  forall dimensions variables result,
    components_loop stream index pairs dimensions variables = Ok result ->
    forall k v, od_get k variables = Some v -> od_get k (snd result) = Some v.
Proof.
  induction pairs as [|[p s] rest IH]; intros dimensions variables result E k v G.
  - simpl in E. inversion E; subst. exact G.
  - simpl in E. apply bind_ok in E. destruct E as [var [C E]]. cbv zeta in E.
    apply bind_ok in E. destruct E as [dimensions' [MD E]].
    apply bind_ok in E. destruct E as [variables' [MV E]].
    apply raise_conflict_ok in MV.
    apply (IH _ _ _ E).
    destruct (dict_merge_extends pyobj_eq _ _ _ _ MV) as [Keep _].
    now apply Keep.
Qed.

Lemma combine_snd_NoDup {A B : Type} (l : list A) (l' : list B) :
  NoDup l' -> NoDup (map snd (combine l l')).
Proof.
  revert l'. induction l as [|x l IH]; intros l' N; simpl; [constructor|].
  destruct l' as [|y l']; simpl; [constructor|].
  inversion N as [|? ? NI N']; subst. constructor; [|now apply IH].
  intro I. apply NI. apply in_map_iff in I. destruct I as [[a b] [<- I]].
  simpl. now apply in_combine_r in I.
Qed.

Lemma components_loop_files stream index pairs :
  forall dimensions variables result,
    components_loop stream index pairs dimensions variables = Ok result ->
    NoDup (map snd pairs) ->
    forall param_id short_name,
      In (param_id, short_name) pairs ->
      ~ In short_name coordinate_names ->
      od_get short_name variables = None ->
      exists var,
        attrs_post_init (subindex index "paramId" param_id) stream = Ok var /\
        od_get short_name (snd result) = Some (ODataVariable var).
Proof.
  induction pairs as [|[p s] rest IH];
    intros dimensions variables result E N param_id short_name I NC G;
    [destruct I|].
  simpl in E. apply bind_ok in E. destruct E as [var [C E]]. cbv zeta in E.
  apply bind_ok in E. destruct E as [dimensions' [MD E]].
  apply bind_ok in E. destruct E as [variables' [MV E]].
  apply raise_conflict_ok in MV.
  pose proof (dict_merge_spec value_key_eq pyobj_eq (variable_vars s var) variables
                (variable_vars_NoDup s var)) as S.
  rewrite MV in S. destruct S as [_ L].
  simpl in N. inversion N as [|? ? NI N']; subst.
  assert (CN : forall sn name, ~ In sn coordinate_names ->
                 In name (od_keys (dv_coordinates var)) -> sn <> VStr name).
  { intros sn name NS J ->. apply NS. unfold coordinate_names.
    apply in_map. now apply (constructed_coordinate_names _ _ _ name C). }
  destruct I as [EQ|I].
  - inversion EQ; subst; clear EQ. exists var. split; [exact C|].
    apply (components_loop_keeps _ _ _ _ _ _ E).
    rewrite L, G. apply variable_vars_get. intros name J. now apply CN.
  - apply (IH _ _ _ E N' param_id short_name I NC).
    rewrite L, G.
    destruct (od_get short_name (variable_vars s var)) as [v|] eqn:GV; [|reflexivity].
    exfalso. apply (od_get_some_In value_key_eq) in GV.
    apply variable_vars_keys in GV. destruct GV as [->|(name & -> & J)].
    + apply NI. apply in_map_iff. exists (param_id, s). auto.
    + now apply (CN (VStr name) name).
Qed.

(** X21.  In a dataset that is built, the short name paired with a
    parameter id holds the data variable constructed for that id,
    unless the short name is the name of a coordinate. *)
Theorem dataset_variables_filed (VERSION : string) (stream : Stream)
  (keys : list string) (dimensions : odict string Z)
  (variables : odict value pyobj) (attributes : odict string value) :
  build_dataset_components VERSION stream keys
  = Ok (dimensions, variables, attributes) ->
  forall param_id short_name,
    In (param_id, short_name) (variable_pairs stream) ->
    ~ In short_name coordinate_names ->
    exists var,
      variable_of stream param_id = Ok var /\
      od_get short_name variables = Some (ODataVariable var).
Proof.
  unfold build_dataset_components. intros E p s I NC. cbv zeta in E.
  apply bind_ok in E. destruct E as [[dims vars] [L E]].
  apply bind_ok in E. destruct E as [attrs [A E]].
  inversion E; subst; clear E. simpl.
  apply (components_loop_files _ _ _ _ _ _ L); auto.
  apply combine_snd_NoDup, getitem_NoDup.
Qed.

Lemma dataset_variables_filed_witness :
  data_variable_attribute
    (snd (fst (built_components
       (build_dataset_components "0.8" sample_stream GLOBAL_ATTRIBUTES_KEYS))))
    (VStr "u") "paramId" = Some (VInt 131).
Proof.
  destruct (dataset_variables_filed "0.8" sample_stream GLOBAL_ATTRIBUTES_KEYS
              (fst (fst (built_components
                 (build_dataset_components "0.8" sample_stream GLOBAL_ATTRIBUTES_KEYS))))
              (snd (fst (built_components
                 (build_dataset_components "0.8" sample_stream GLOBAL_ATTRIBUTES_KEYS))))
              (snd (built_components
                 (build_dataset_components "0.8" sample_stream GLOBAL_ATTRIBUTES_KEYS)))
              ltac:(vm_compute; reflexivity) (VInt 131) (VStr "u"))
    as (var & V & G).
  - vm_compute. auto.
  - vm_compute. intuition discriminate.
  - unfold data_variable_attribute. rewrite G.
    assert (X : variable_of sample_stream (VInt 131)
                = Ok (constructed (variable_of sample_stream (VInt 131))))
      by (vm_compute; reflexivity).
    assert (var = constructed (variable_of sample_stream (VInt 131))) by congruence.
    subst var. vm_compute. reflexivity.
Defined.

Lemma list_eqb_refl_iff {A : Type} (eqb : A -> A -> bool) (l : list A) :
  list_eqb eqb l l = true <-> forall x, In x l -> eqb x x = true.
Proof.
  induction l as [|y l IH]; simpl.
  - split; [intros _ x [] | reflexivity].
  - rewrite andb_true_iff, IH. split.
    + intros [E F] x [<-|I]; auto.
    + intro F. split; [apply F; now left | intros x I; apply F; now right].
Qed.

Lemma SFeqb_refl_iff (x : spec_float) : SFeqb x x = true <-> x <> nan.
Proof.
  unfold nan. destruct x as [s|s| |s m e]; unfold SFeqb; simpl.
  - split; [discriminate | reflexivity].
  - destruct s; split; try discriminate; reflexivity.
  - split; [discriminate | intro N; now elim N].
  - rewrite Z.compare_refl, Pos.compare_cont_refl. destruct s; simpl;
      split; try discriminate; reflexivity.
Qed.

Lemma attributes_eqb_refl (a : odict string value) : attributes_eqb a a = true.
Proof.
  unfold attributes_eqb. apply list_eqb_refl_iff. intros [k v] _. simpl.
  now rewrite String.eqb_refl, value_eqb_refl.
Qed.

(** X22.  [Variable.__eq__] finds a variable equal to itself exactly
    when its float data hold no NaN; a coordinate with a NaN is
    therefore in conflict with itself when it is merged a second
    time. *)
Theorem Variable_eq_reflexive (v : VariableT) :
  (Variable_eq v v = true <->
   forall fs, var_data v = Floats fs -> ~ In nan fs) /\
  (forall fs (key : value),
     var_data v = Floats fs -> In nan fs ->
     dict_merge pyobj_eq [(key, OVariable v)] [(key, OVariable v)]
     = ([(key, OVariable v)], Some key)).
Proof.
  assert (D : list_eqb String.eqb (var_dimensions v) (var_dimensions v) = true)
    by (apply list_eqb_refl_iff; intros x _; apply String.eqb_refl).
  assert (R : Variable_eq v v = array_equal (var_data v) (var_data v))
    by (unfold Variable_eq; now rewrite D, attributes_eqb_refl).
  assert (F : forall fs, list_eqb SFeqb fs fs = true <-> ~ In nan fs).
  { intro fs. rewrite list_eqb_refl_iff. split.
    - intros H I. apply H in I. apply SFeqb_refl_iff in I. now apply I.
    - intros N x I. apply SFeqb_refl_iff. intros ->. contradiction. }
  split.
  - rewrite R. destruct (var_data v) as [x|xs|fs]; simpl.
    + rewrite value_eqb_refl. split; [discriminate | reflexivity].
    + split; [discriminate|]. intros _. apply list_eqb_refl_iff.
      intros x _. apply value_eqb_refl.
    + rewrite F. split.
      * intros N fs' E. inversion E; subst. exact N.
      * intro N. now apply N.
  - intros fs key E I. cbn [dict_merge od_get pyobj_eq].
    change (key_eqb key key) with (value_eqb key key). rewrite value_eqb_refl.
    change (pyobj_eq (OVariable v) (OVariable v)) with (Variable_eq v v).
    rewrite R, E. cbn [array_equal].
    destruct (list_eqb SFeqb fs fs) eqn:X; [|reflexivity].
    apply F in X. contradiction.
Qed.

Lemma Variable_eq_reflexive_witness :
  Variable_eq {| var_dimensions := ["i"];
                 var_data := Floats [double_of_Z 10; double_of_Z 20];
                 var_attributes := [("units", VStr "degrees_north")] |}
              {| var_dimensions := ["i"];
                 var_data := Floats [double_of_Z 10; double_of_Z 20];
                 var_attributes := [("units", VStr "degrees_north")] |} = true.
Proof.
  apply (proj1 (Variable_eq_reflexive _)). intros fs E. inversion E; subst.
  vm_compute. intuition discriminate.
Defined.

Lemma distinct_values_constant (v : value) (l : list value) :
  l <> [] -> (forall x, In x l -> x = v) -> distinct_values l = [v].
Proof.
  intros NE A. unfold distinct_values.
  destruct l as [|x l]; [congruence|]. simpl.
  assert (x = v) by (apply A; now left). subst x.
  assert (G : forall l, (forall x, In x l -> x = v) ->
                        fold_left add_distinct l [v] = [v]).
  { clear. induction l as [|y l IH]; intro A; simpl; [reflexivity|].
    assert (y = v) by (apply A; now left). subst y.
    unfold add_distinct at 2. simpl. rewrite value_eqb_refl. simpl.
    apply IH. intros x I. apply A. now right. }
  apply G. intros x I. apply A. now right.
Qed.

Lemma subindex_getitem index key v :
  offsets (subindex index key v) <> [] ->
  getitem (subindex index key v) key = [v].
Proof.
  unfold subindex, getitem. cbn [offsets index_keys].
  destruct (list_index String.eqb key (index_keys index)) as [i|]; [|congruence].
  intro NE. apply distinct_values_constant.
  - destruct (filter (bucket_matches i v) (offsets index)) as [|[hv b] l] eqn:F;
      [congruence|].
    assert (I : In (hv, b) (filter (bucket_matches i v) (offsets index)))
      by (rewrite F; now left).
    apply filter_In in I. destruct I as [_ M]. unfold bucket_matches in M.
    simpl in M. unfold column. simpl.
    destruct (nth_error hv i); [discriminate | discriminate].
  - intros x I. unfold column in I. apply in_flat_map in I.
    destruct I as [[hv b] [J X]]. apply filter_In in J. destruct J as [_ M].
    unfold bucket_matches in M. simpl in M, X.
    destruct (nth_error hv i) as [w|]; [|contradiction].
    destruct X as [<-|[]]. now apply value_eqb_eq.
Qed.

Lemma od_get_string_In {V : Type} (k : string) (v : V) (d : odict string V) :
  od_get k d = Some v -> In (k, v) d.
Proof.
  induction d as [|[k' v'] d IH]; simpl; [discriminate|].
  change (key_eqb k k') with (String.eqb k k').
  destruct (String.eqb k k') eqn:E.
  - apply String.eqb_eq in E. intro G. inversion G; subst. now left.
  - auto.
Qed.

Lemma grid_type_keys_closed grid_type :
  ~ In "paramId" (SPATIAL_COORDINATES_ATTRIBUTES_KEYS ++ grid_type_keys grid_type).
Proof.
  intro I. apply in_app_or in I. destruct I as [I|I].
  - simpl in I. intuition discriminate.
  - unfold grid_type_keys in I. destruct grid_type as [z|s]; [destruct I|].
    destruct (od_get s GRID_TYPE_MAP) as [ks|] eqn:G; [|destruct I].
    apply od_get_string_In in G.
    assert (J : In "paramId" (flat_map snd GRID_TYPE_MAP))
      by (apply in_flat_map; exists (s, ks); auto).
    vm_compute in J. intuition discriminate.
Qed.

(** X23.  [DataVariable.fromstream(paramId, ...)] that returns for a
    stream with a record of that parameter gives a variable whose
    [paramId] attribute is the requested one. *)
Theorem fromstream_param_id (param_id : value) (stream : Stream) (dv : DataVariable) :
  DataVariable_fromstream param_id stream = Ok dv ->
  offsets (dv_index dv) <> [] ->
  od_get "paramId" (dv_attributes dv) = Some param_id.
Proof.
  unfold DataVariable_fromstream. intros E NE.
  apply attrs_post_init_ok in E.
  destruct E as [leader [attributes [grid_type [spatial [coordinates [sizes [n E]]]]]]].
  destruct E as [_ [A [_ [S [_ [_ [_ [I [_ [_ [T _]]]]]]]]]]].
  rewrite I in NE. rewrite T.
  rewrite (od_get_set_other string_key_eq) by discriminate.
  apply enforce_loop_ok in A. destruct A as [_ [A _]].
  apply enforce_loop_ok in S. destruct S as [_ [S _]].
  rewrite (od_get_update_other string_key_eq).
  - rewrite A. cbn [VARIABLE_ATTRIBUTES_KEYS existsb String.eqb Ascii.eqb Bool.eqb orb].
    rewrite (subindex_getitem _ _ _ NE). reflexivity.
  - apply (od_get_none_iff string_key_eq). rewrite S.
    destruct (existsb (String.eqb "paramId")
                (SPATIAL_COORDINATES_ATTRIBUTES_KEYS ++ grid_type_keys grid_type)) eqn:X;
      [|reflexivity].
    apply existsb_exists in X. destruct X as [k [J X]].
    apply String.eqb_eq in X. subst k. now apply grid_type_keys_closed in J.
Qed.

Lemma fromstream_param_id_witness :
  od_get "paramId" (dv_attributes (constructed (DataVariable_fromstream (VInt 130) sample_stream)))
  = Some (VInt 130).
Proof.
  apply (fromstream_param_id (VInt 130) sample_stream).
  - vm_compute. reflexivity.
  - vm_compute. discriminate.
Defined.
